(** * 7550a_stream: manual software flow control for the HP 7550A plotter

    A shallow embedding of [7550a_stream.c] and the properties of its
    numeric-field reader, its text-field reader and its spooling loop.

    Conventions of the embedding:
    - a [char] is its code as a [Z]; a C string or a byte buffer is a list of
      codes;
    - [int] is 32 bits wide and [size_t] and [long] are 64 bits wide (LP64,
      the data model of the POSIX systems the program targets);
    - the serial line is a world that is threaded through every call: the
      bytes the device has sent and the host has not read yet, the state of
      the device, and the log of everything the host did;
    - the two loops of [main] take fuel, the number of rounds they may run: a
      run that is out of fuel is a run that has not ended yet;
    - the system around the program is a record of functions, one for each
      call that can fail or that returns settings: a run of the whole
      program logs the calls that open, configure, close and release
      something;
    - the messages on the error stream are not modelled, a [write] takes all
      the bytes it is given, and [strdup] returns memory; [malloc] returns
      memory unless the request is as large as the address space. *)

From Stdlib Require Import ZArith Lia List String Ascii Bool.
From Stdlib Require Import Decimal DecimalFacts DecimalPos DecimalN.
From stdpp Require Import base list.
Import ListNotations.
Local Open Scope Z_scope.

(** ** Constants of the source *)

Definition QUERY_DELAY : Z := 50000.
Definition READBUFSIZE : nat := 64.

Definition bytes_of (s : string) : list Z :=
  map (fun a => Z.of_N (N_of_ascii a)) (list_ascii_of_string s).

(** ["\x1B."] *)
Definition DEVCOM_PREFIX : list Z := [27; 46].
(** ['\r'] *)
Definition DEVCOM_TERM : Z := 13.
(** [','] *)
Definition DEVCOM_SEP : Z := 44.

(** ** Integer types *)

Definition INT_MIN : Z := - 2 ^ 31.
Definition INT_MAX : Z := 2 ^ 31 - 1.
Definition LONG_MIN : Z := - 2 ^ 63.
Definition LONG_MAX : Z := 2 ^ 63 - 1.
Definition SIZE_MAX : Z := 2 ^ 64 - 1.

(** Conversion of a [long] to [int]: the low 32 bits, read as signed. *)
Definition to_int (z : Z) : Z := (z + 2 ^ 31) mod 2 ^ 32 - 2 ^ 31.

(** Conversion of an [int] to [size_t], as in [buffree = read_dec(fd)]:
    reduction modulo [SIZE_MAX + 1]. *)
Definition to_size (z : Z) : Z := z mod 2 ^ 64.

(** ** The C library functions the readers use *)

Definition isspace (c : Z) : bool := (c =? 32) || ((9 <=? c) && (c <=? 13)).
Definition isdigit (c : Z) : bool := (48 <=? c) && (c <=? 57).

Fixpoint skip_space (s : list Z) : list Z :=
  match s with
  | c :: s' => if isspace c then skip_space s' else s
  | [] => []
  end.

(** The value of the leading run of decimal digits of [s], on top of [acc]. *)
Fixpoint digits_val (acc : Z) (s : list Z) : Z :=
  match s with
  | c :: s' => if isdigit c then digits_val (10 * acc + (c - 48)) s' else acc
  | [] => acc
  end.

(** [strtol(s, NULL, 10)]: white space, an optional sign, digits; no digits
    give 0; a value outside [long] is clamped. *)
Definition strtol (s : list Z) : Z :=
  match skip_space s with
  | c :: s' =>
      if c =? 45 then Z.max LONG_MIN (- digits_val 0 s')
      else if c =? 43 then Z.min LONG_MAX (digits_val 0 s')
      else Z.min LONG_MAX (digits_val 0 (c :: s'))
  | [] => 0
  end.

(** [atoi(s)] is [(int) strtol(s, NULL, 10)].  ISO C leaves the result
    undefined when the value does not fit an [int]; this is what the GNU C
    library computes there. *)
Definition atoi (s : list Z) : Z := to_int (strtol s).

(** ** Local buffers

    [char dec_buffer[READBUFSIZE]] is not initialised: a cell holds [None]
    until the function stores into it. *)

Definition buffer := list (option Z).

Definition fresh_buffer : buffer := replicate READBUFSIZE None.

(** [buf[i] = c]; [None] when [i] is not an index of [buf]. *)
Definition store (buf : buffer) (i : nat) (c : Z) : option buffer :=
  if (i <? length buf)%nat then Some (<[i := Some c]> buf) else None.

(** The C string that starts at [buf[0]]: the bytes before the first NUL.
    [None] when the scan reaches a cell that was never written or leaves the
    buffer. *)
Fixpoint c_string (buf : buffer) : option (list Z) :=
  match buf with
  | Some c :: buf' =>
      if c =? 0 then Some []
      else match c_string buf' with Some s => Some (c :: s) | None => None end
  | _ => None
  end.

(** ** The loop of [read_dec] and [read_asc]

    Both functions run the same loop (lines 102-112 and 129-139): [read]
    delivers one byte at a time; the terminator stores a NUL at [dbuf_pos] and
    ends the loop; any other byte is stored at [dbuf_pos], which then grows
    by one.  Neither store checks [dbuf_pos] against [READBUFSIZE]. *)

Inductive field_result :=
| FieldDone (buf : buffer) (dbuf_pos : nat) (rest : list Z)
    (* the terminator arrived; [rest] is what follows it *)
| FieldBlocked
    (* the line went silent before a terminator: [read] never returns *)
| FieldOverrun (dbuf_pos : nat).
    (* a store at index [dbuf_pos], outside the buffer *)

Fixpoint read_field (buf : buffer) (dbuf_pos : nat) (rx : list Z) : field_result :=
  match rx with
  | [] => FieldBlocked
  | c :: rx' =>
      if c =? DEVCOM_TERM then
        match store buf dbuf_pos 0 with
        | Some buf' => FieldDone buf' dbuf_pos rx'
        | None => FieldOverrun dbuf_pos
        end
      else
        match store buf dbuf_pos c with
        | Some buf' => read_field buf' (S dbuf_pos) rx'
        | None => FieldOverrun dbuf_pos
        end
  end.

(** What a call of [read_dec] or [read_asc] does to the pending bytes. *)
Inductive read_result (A : Type) :=
| Got (a : A) (rest : list Z)
| NoTerminator
| OutOfBounds (dbuf_pos : nat).
Arguments Got {A} a rest.
Arguments NoTerminator {A}.
Arguments OutOfBounds {A} dbuf_pos.

Definition finish_field {A} (f : list Z -> A) (r : field_result) : read_result A :=
  match r with
  | FieldDone buf pos rest =>
      match c_string buf with
      | Some s => Got (f s) rest
      | None => OutOfBounds pos
      end
  | FieldBlocked => NoTerminator
  | FieldOverrun pos => OutOfBounds pos
  end.

(** [read_dec] on the bytes pending on the line: [return atoi(dec_buffer)]. *)
Definition read_dec_bytes (rx : list Z) : read_result Z :=
  finish_field atoi (read_field fresh_buffer 0 rx).

(** [read_asc] on the bytes pending on the line:
    [return strdup(asc_buffer)]. *)
Definition read_asc_bytes (rx : list Z) : read_result (list Z) :=
  finish_field (fun s => s) (read_field fresh_buffer 0 rx).

(** ** The serial line and the device behind it

    What the host does is logged as a list of events, oldest first. *)

Inductive event :=
| EvCmd (s : list Z)                 (* [serial_write(serial_fd, s)] *)
| EvSleep (us : Z)                   (* [usleep(us)] *)
| EvDec (v : Z)                      (* [read_dec(serial_fd)] returned [v] *)
| EvAsc (s : list Z)                 (* [read_asc(serial_fd)] returned [s] *)
| EvFread (nmemb : Z) (got : list Z) (* [fread(buffer, 1, nmemb, input)] *)
| EvData (buf : list Z).             (* [write(serial_fd, buffer, fbufsize)] *)

(** What the device can observe of the host. *)
Inductive action :=
| Sent (bs : list Z)
| Slept (us : Z).

(** The device is a state machine: on every action of the host it moves to a
    new state and may put bytes on the line. *)
Definition device (D : Type) : Type := D -> action -> D * list Z.

Record world (D : Type) := World {
  dev : D;            (* the state of the device *)
  rx : list Z;        (* bytes sent by the device, not read yet, oldest first *)
  trace : list event  (* what the host did so far *)
}.
Arguments World {D} dev rx trace.
Arguments dev {D} w.
Arguments rx {D} w.
Arguments trace {D} w.

(** Why a run does not reach its end. *)
Inductive stop :=
| Blocked               (* [read] waits for a byte that never comes *)
| Overrun (pos : nat)   (* a store outside [dec_buffer] or [asc_buffer] *)
| OutOfFuel             (* the loop was still running when the fuel ran out *)
| NullBuffer.           (* [fread] is handed the [NULL] that [malloc] returned *)

Inductive result (D A : Type) :=
| Ret (a : A) (w : world D)
| Stop (why : stop) (w : world D).
Arguments Ret {D A} a w.
Arguments Stop {D A} why w.

Definition world_of {D A} (r : result D A) : world D :=
  match r with Ret _ w => w | Stop _ w => w end.

Definition events {D A} (r : result D A) : list event := trace (world_of r).

Definition returns {D A} (r : result D A) : bool :=
  match r with Ret _ _ => true | Stop _ _ => false end.

(** The input file: the bytes not read yet and the end-of-file indicator. *)
Record FILE := File { f_data : list Z; f_eof : bool }.

Definition fopen (data : list Z) : FILE := File data false.
Definition feof (input : FILE) : bool := f_eof input.

(** [fread(buffer, 1, nmemb, input)]: up to [nmemb] bytes; the end-of-file
    indicator is set when fewer than [nmemb] bytes were left.  With
    [nmemb = 0] nothing is read and the indicator is not touched. *)
Definition fread (nmemb : Z) (input : FILE) : list Z * FILE :=
  let n := Z.to_nat nmemb in
  (take n (f_data input),
   File (drop n (f_data input))
        (f_eof input || (length (f_data input) <? n)%nat)).

(** [buffer = malloc(chunksize)], line 253, whose result is not checked.  A
    request of the size of the user address space or more (47 bits on
    x86-64 Linux) returns [NULL]: the chunk sizes that a negative capacity
    gives, all from [2 ^ 63 - 2 ^ 30] on, are of this kind.  A smaller
    request is taken to return memory: the chunk sizes that a capacity of 0
    or more gives are all below [2 ^ 30]. *)
Definition TASK_SIZE : Z := 2 ^ 47.

(** Whether [malloc(size)] returns memory. *)
Definition malloc (size : Z) : bool := size <? TASK_SIZE.

Section Host.
Context {D : Type} (plotter : device D).

Definition M (A : Type) : Type := world D -> result D A.

Definition ret {A} (a : A) : M A := fun w => Ret a w.

Definition bind {A B} (m : M A) (k : A -> M B) : M B :=
  fun w => match m w with
           | Ret a w' => k a w'
           | Stop why w' => Stop why w'
           end.

(** The host does [a], the device reacts, [e] is logged. *)
Definition act (a : action) (e : event) : M unit :=
  fun w => let '(d, out) := plotter (dev w) a in
           Ret tt (World d (rx w ++ out) (trace w ++ [e])).

Definition log (e : event) : M unit :=
  fun w => Ret tt (World (dev w) (rx w) (trace w ++ [e])).

(** [serial_write(fd, s)], line 80.  A partial write is reported on the
    error stream and nothing else happens, so the call is its write. *)
Definition serial_write (s : list Z) : M unit := act (Sent s) (EvCmd s).

(** [write(serial_fd, buffer, fbufsize)], line 275. *)
Definition write (buf : list Z) : M unit := act (Sent buf) (EvData buf).

Definition usleep (us : Z) : M unit := act (Slept us) (EvSleep us).

Definition read_with {A} (reader : list Z -> read_result A) (ev : A -> event)
  : M A :=
  fun w => match reader (rx w) with
           | Got a rest => Ret a (World (dev w) rest (trace w ++ [ev a]))
           | NoTerminator => Stop Blocked w
           | OutOfBounds pos => Stop (Overrun pos) w
           end.

(** [read_dec(fd)], line 93. *)
Definition read_dec : M Z := read_with read_dec_bytes EvDec.

(** [read_asc(fd)], line 120. *)
Definition read_asc : M (list Z) := read_with read_asc_bytes EvAsc.

End Host.

Notation "'let*' x := m 'in' k" := (bind m (fun x => k))
  (at level 10, x name, m at level 100, k at level 200, only parsing).
Notation "m ;; k" := (bind m (fun _ => k))
  (at level 100, k at level 200, right associativity, only parsing).

(** The device commands of [main]. *)
Definition CMD_ON : list Z := DEVCOM_PREFIX ++ bytes_of "(".
Definition CMD_RESET : list Z := DEVCOM_PREFIX ++ bytes_of "R".
Definition CMD_BUFSIZE : list Z := DEVCOM_PREFIX ++ bytes_of "L".
Definition CMD_IDENT : list Z := DEVCOM_PREFIX ++ bytes_of "A".
Definition CMD_BEGIN : list Z := DEVCOM_PREFIX ++ bytes_of "U".
Definition CMD_FREE : list Z := DEVCOM_PREFIX ++ bytes_of "B".
Definition CMD_OFF : list Z := DEVCOM_PREFIX ++ bytes_of ")".

Section Main.
Context {D : Type} (plotter : device D).

(** The inner loop, lines 264-270, entered with [buffree] (line 263 sets
    it to 0):
      while(buffree <= fbufsize) { usleep; query; buffree = read_dec; } *)
Fixpoint poll (fuel : nat) (fbufsize buffree : Z) : M (D := D) unit :=
  if buffree <=? fbufsize then
    match fuel with
    | O => Stop OutOfFuel
    | S fuel' =>
        usleep plotter QUERY_DELAY ;;
        serial_write plotter CMD_FREE ;;
        let* v := read_dec in
        poll fuel' fbufsize (to_size v)
    end
  else ret tt.

(** The outer loop, lines 260-276:
      while(!feof(input)) { fbufsize = fread(...); buffree = 0;
                            <poll>; write(serial_fd, buffer, fbufsize); }
    [buffer] is what line 253 got from [malloc(chunksize)]: when that is
    [NULL], the [fread] of line 261 is handed a null pointer, and the run
    does not get past it. *)
Fixpoint spool (fuel : nat) (chunksize : Z) (input : FILE) : M (D := D) FILE :=
  if feof input then ret input
  else
    match fuel with
    | O => Stop OutOfFuel
    | S fuel' =>
        if malloc chunksize then
          let '(buffer, input') := fread chunksize input in
          log (EvFread chunksize buffer) ;;
          let fbufsize := Z.of_nat (length buffer) in
          poll fuel' fbufsize 0 ;;
          write plotter buffer ;;
          spool fuel' chunksize input'
        else Stop NullBuffer
    end.

(** Lines 229-232: plotter on, reset, and the query of the buffer size
    with its answer. *)
Definition plotter_init : M (D := D) Z :=
  serial_write plotter CMD_ON ;;
  serial_write plotter CMD_RESET ;;
  serial_write plotter CMD_BUFSIZE ;;
  read_dec.

(** Lines 239-243: the identification query, in verbose mode only. *)
Definition identify (verbose : bool) : M (D := D) unit :=
  if verbose then
    serial_write plotter CMD_IDENT ;;
    let* ident := read_asc in
    ret tt
  else ret tt.

(** Lines 229-249: everything before the spooling loop; the value is
    [chunksize]. *)
Definition prologue (verbose : bool) : M (D := D) Z :=
  let* v := plotter_init in
  let bufsize := to_size v in
  let chunksize := bufsize / 2 in
  identify verbose ;;
  serial_write plotter CMD_BUFSIZE ;;
  serial_write plotter CMD_BUFSIZE ;;
  serial_write plotter CMD_BEGIN ;;
  ret chunksize.

(** [main] from the point where the input and the serial port are open
    (line 227) to the plotter-off command (line 281).  The option parsing
    and the opening of the file and of the port before it, and the clean-up
    after it (lines 283-290, where [ident] is freed, which only the verbose
    mode has set), are in [entrypoint]. *)
Definition main (verbose : bool) (fuel : nat) (input : list Z)
  : M (D := D) unit :=
  let* chunksize := prologue verbose in
  spool fuel chunksize (fopen input) ;;
  serial_write plotter CMD_OFF.

End Main.

(** * The rest of the program

    ** The serial port: [init_serial], lines 38-77

    The flags of [<termios.h>] and [<fcntl.h>], with the values Linux gives
    them (octal in the headers). *)

Definition CSIZE : Z := 48.             (* 0000060 *)
Definition CS8 : Z := 48.               (* 0000060 *)
Definition CSTOPB : Z := 64.            (* 0000100 *)
Definition CREAD : Z := 128.            (* 0000200 *)
Definition PARENB : Z := 256.           (* 0000400 *)
Definition PARODD : Z := 512.           (* 0001000 *)
Definition CLOCAL : Z := 2048.          (* 0004000 *)
Definition CRTSCTS : Z := 2147483648.   (* 020000000000 *)
Definition ISIG : Z := 1.               (* 0000001 *)
Definition ICANON : Z := 2.             (* 0000002 *)
Definition ECHO : Z := 8.               (* 0000010 *)
Definition ECHOE : Z := 16.             (* 0000020 *)
Definition INLCR : Z := 64.             (* 0000100 *)
Definition IGNCR : Z := 128.            (* 0000200 *)
Definition ICRNL : Z := 256.            (* 0000400 *)
Definition INPCK : Z := 16.             (* 0000020 *)
Definition ISTRIP : Z := 32.            (* 0000040 *)
Definition IXON : Z := 1024.            (* 0002000 *)
Definition IXANY : Z := 2048.           (* 0004000 *)
Definition IXOFF : Z := 4096.           (* 0010000 *)
Definition OPOST : Z := 1.              (* 0000001 *)
Definition B9600 : Z := 13.             (* 0000015 *)
Definition O_RDWR : Z := 2.
Definition O_NOCTTY : Z := 256.         (* 0400 *)
Definition TCSAFLUSH : Z := 2.
Definition EXIT_SUCCESS : Z := 0.
Definition EXIT_FAILURE : Z := 1.

(** [struct termios]; a flag word is a [tcflag_t], an unsigned integer of 32
    bits. *)
Record termios := Termios {
  c_iflag : Z;
  c_oflag : Z;
  c_cflag : Z;
  c_lflag : Z;
  c_line : Z;
  c_cc : list Z
}.

Definition tcflag_t (z : Z) : Z := z mod 2 ^ 32.

(** [~m] as the right operand of [&=] on a flag word. *)
Definition compl (m : Z) : Z := tcflag_t (Z.lnot m).

(** The calls of the operating system and of the C library that open,
    configure, close and release something, as [main] and [init_serial] make
    them, each with what it returned. *)
Inductive stream :=
| Stdin
| Named (filename : string).

Inductive syscall :=
| SysFopen (filename : string) (opened : bool)  (* [fopen(filename, "r")] *)
| SysFclose (input : stream)                     (* [fclose(input)] *)
| SysOpen (path : string) (flags : Z) (fd : Z)   (* [open(path, flags)] *)
| SysTcgetattr (fd : Z)
| SysCfsetispeed (speed : Z)
| SysCfsetospeed (speed : Z)
| SysTcsetattr (fd : Z) (actions : Z) (options : termios) (r : Z)
| SysClose (fd : Z)
| SysFree.                                       (* [free(ident)] *)

(** What the program finds around it.  Each function gives what the call of
    the same name returns or leaves behind; nothing is assumed of them, so a
    call can fail or succeed in any combination. *)
Record system := System {
  (* [fopen(filename, "r")]: the bytes of the file, [None] for [NULL] *)
  sys_fopen : string -> option (list Z);
  (* the bytes of the standard input *)
  sys_stdin : list Z;
  (* [open(path, flags)]: the descriptor, negative on failure *)
  sys_open : string -> Z -> Z;
  (* what [options] holds after [tcgetattr(fd, &options)], whether the call
     succeeded or not: its result is not looked at *)
  sys_tcgetattr : Z -> termios;
  (* what [options] holds after [cfsetispeed(&options, speed)] *)
  sys_cfsetispeed : termios -> Z -> termios;
  (* what [options] holds after [cfsetospeed(&options, speed)] *)
  sys_cfsetospeed : termios -> Z -> termios;
  (* the result of [tcsetattr(fd, actions, &options)] *)
  sys_tcsetattr : Z -> Z -> termios -> Z
}.

(** Lines 56-67: the flag words of [options] after the ten assignments. *)
Definition line_flags (options : termios) : termios :=
  let cflag := c_cflag options in
  let cflag := Z.land cflag (compl CSIZE) in
  let cflag := Z.lor cflag CS8 in
  let cflag := Z.lor cflag (Z.lor PARENB PARODD) in
  let cflag := Z.land cflag (compl CSTOPB) in
  let cflag := Z.land cflag (compl CRTSCTS) in
  let cflag := Z.lor cflag (Z.lor CLOCAL CREAD) in
  let lflag := c_lflag options in
  let lflag :=
    Z.land lflag (compl (Z.lor (Z.lor (Z.lor ICANON ECHO) ECHOE) ISIG)) in
  let iflag := c_iflag options in
  let iflag := Z.lor iflag (Z.lor INPCK ISTRIP) in
  let iflag := Z.land iflag (compl (Z.lor (Z.lor IXON IXOFF) IXANY)) in
  let oflag := c_oflag options in
  let oflag := Z.land oflag (compl OPOST) in
  Termios iflag oflag cflag lflag (c_line options) (c_cc options).

(** [init_serial(device, baud_rate)]: the value it returns and the calls it
    made. *)
Definition init_serial (sys : system) (path : string) (baud_rate : Z)
  : Z * list syscall :=
  let flags := Z.lor O_RDWR O_NOCTTY in
  let fd := sys_open sys path flags in
  if fd <? 0 then (fd, [SysOpen path flags fd])
  else
    let options := sys_tcgetattr sys fd in
    let options := sys_cfsetispeed sys options baud_rate in
    let options := sys_cfsetospeed sys options baud_rate in
    let options := line_flags options in
    let r := sys_tcsetattr sys fd TCSAFLUSH options in
    let calls := [SysOpen path flags fd; SysTcgetattr fd;
                  SysCfsetispeed baud_rate; SysCfsetospeed baud_rate;
                  SysTcsetattr fd TCSAFLUSH options r] in
    if r <? 0 then (-1, calls ++ [SysClose fd])
    else (fd, calls).

(** ** The command line, lines 161-201

    [getopt] is the C library's.  A call of it is what it returned and what
    it left in [optarg] and [optopt]; the command line is the list of the
    calls in order, and after the last of them [getopt] returns -1. *)

Record getopt_call := Getopt {
  g_return : Z;
  g_optarg : string;
  g_optopt : Z
}.

(** Conversion of an [int] to [char], as in [c = getopt(...)]; [char] is
    signed. *)
Definition to_char (z : Z) : Z := (z + 128) mod 256 - 128.

Definition code (a : ascii) : Z := Z.of_N (N_of_ascii a).

(** The options of [main]: [filename] is [None] for [NULL]. *)
Record options := Options {
  o_device : string;
  o_filename : option string;
  o_verbose : bool;
  o_baud_rate : Z
}.

(** Lines 162-165. *)
Definition default_options : options :=
  Options "/dev/ttyS0" None false B9600.

Inductive parsed :=
| Parsed (o : options)   (* the loop ended: [getopt] returned -1 *)
| Rejected               (* [return EXIT_FAILURE], line 196 *)
| Aborted.               (* [abort()], line 199 *)

(** The loop of lines 170-201. *)
Fixpoint process_arguments (o : options) (calls : list getopt_call) : parsed :=
  match calls with
  | [] => Parsed o
  | g :: calls' =>
      let c := to_char (g_return g) in
      if c =? -1 then Parsed o
      else if c =? code "d" then
        process_arguments
          (Options (g_optarg g) (o_filename o) (o_verbose o) (o_baud_rate o))
          calls'
      else if c =? code "f" then
        process_arguments
          (Options (o_device o) (Some (g_optarg g)) (o_verbose o)
                   (o_baud_rate o))
          calls'
      else if c =? code "r" then process_arguments o calls'
      else if c =? code "v" then
        process_arguments
          (Options (o_device o) (o_filename o) true (o_baud_rate o))
          calls'
      else if c =? code "?" then Rejected
      else Aborted
  end.

(** ** The whole of [main], lines 144-291 *)

(** How a run ends. *)
Inductive ending :=
| Exited (status : Z)   (* [main] returned [status] *)
| Abort                 (* [abort()] was called *)
| Halted (why : stop)   (* the dialogue with the plotter did not return *)
| FreeUnset.            (* line 284 frees [ident], which was never set *)

(** A run: how it ended, the calls it made, and the serial line as the
    dialogue left it, when the run got that far. *)
Record run (D : Type) := Run {
  run_ending : ending;
  run_calls : list syscall;
  run_line : option (world D)
}.
Arguments Run {D} run_ending run_calls run_line.
Arguments run_ending {D} r.
Arguments run_calls {D} r.
Arguments run_line {D} r.

(** Lines 203-215: the input with its bytes, [None] when the file cannot be
    opened, and the calls made. *)
Definition open_input (sys : system) (filename : option string)
  : option (stream * list Z) * list syscall :=
  match filename with
  | None => (Some (Stdin, sys_stdin sys), [])
  | Some name =>
      match sys_fopen sys name with
      | Some data => (Some (Named name, data), [SysFopen name true])
      | None => (None, [SysFopen name false])
      end
  end.

(** The program, started on the command line [argv] (as [getopt] reads it),
    with the device [plotter] in state [d] behind the serial port and the
    bytes [pending] on the line when the port has been set up.  The part
    between the opening of the port and the plotter-off command is [main].
    [ident] holds a pointer only if the verbose mode stored one in it
    (line 241): otherwise line 284 frees a variable that no statement has
    assigned, and what the program does from there is undefined. *)
Definition entrypoint {D : Type} (sys : system) (plotter : device D) (d : D)
    (pending : list Z) (fuel : nat) (argv : list getopt_call) : run D :=
  match process_arguments default_options argv with
  | Aborted => Run Abort [] None
  | Rejected => Run (Exited EXIT_FAILURE) [] None
  | Parsed o =>
      match open_input sys (o_filename o) with
      | (None, opening) => Run (Exited EXIT_FAILURE) opening None
      | (Some (input, data), opening) =>
          let '(serial_fd, setting) :=
            init_serial sys (o_device o) (o_baud_rate o) in
          if serial_fd <? 0 then
            Run (Exited EXIT_FAILURE)
                (opening ++ setting
                 ++ match o_filename o with
                    | Some _ => [SysFclose input]
                    | None => []
                    end)
                None
          else
            match main plotter (o_verbose o) fuel data (World d pending []) with
            | Stop why w => Run (Halted why) (opening ++ setting) (Some w)
            | Ret _ w =>
                if o_verbose o then
                  Run (Exited EXIT_SUCCESS)
                      (opening ++ setting
                       ++ [SysFree; SysClose serial_fd; SysFclose input])
                      (Some w)
                else Run FreeUnset (opening ++ setting) (Some w)
            end
      end
  end.

(** * Vocabulary of the properties *)

(** ** Worlds *)

(** The world before the host did anything: the device in state [d], the
    bytes [pending] on the line. *)
Definition boot {D} (d : D) (pending : list Z) : world D := World d pending [].

(** The world after the host did [a], logged as [e]. *)
Definition after {D : Type} (plotter : device D) (a : action) (e : event)
    (w : world D) : world D :=
  World (fst (plotter (dev w) a)) (rx w ++ snd (plotter (dev w) a))
        (trace w ++ [e]).

(** The world in which line 232 calls [read_dec]. *)
Definition queried {D : Type} (plotter : device D) (w : world D) : world D :=
  after plotter (Sent CMD_BUFSIZE) (EvCmd CMD_BUFSIZE)
    (after plotter (Sent CMD_RESET) (EvCmd CMD_RESET)
       (after plotter (Sent CMD_ON) (EvCmd CMD_ON) w)).

(** The chunk size [main] computes from what [plotter_init] returned. *)
Definition chunksize_of {D : Type} (r : result D Z) : Z :=
  match r with
  | Ret C _ => to_size C / 2
  | Stop _ _ => 0
  end.

(** ** Logs *)

(** Equality of byte strings. *)
Fixpoint bytes_eqb (a b : list Z) : bool :=
  match a, b with
  | [], [] => true
  | x :: a', y :: b' => (x =? y) && bytes_eqb a' b'
  | _, _ => false
  end.

(** The data of the [write] calls of a log, in order. *)
Fixpoint data_of (evs : list event) : list (list Z) :=
  match evs with
  | EvData buf :: evs' => buf :: data_of evs'
  | _ :: evs' => data_of evs'
  | [] => []
  end.

(** The values the free-space polls of a log returned, as [buffree] holds
    them. *)
Fixpoint polled (evs : list event) : list Z :=
  match evs with
  | EvDec v :: evs' => to_size v :: polled evs'
  | _ :: evs' => polled evs'
  | [] => []
  end.

(** One free-space poll: the delay, the query, the answer. *)
Definition poll_log (vs : list Z) : list event :=
  flat_map (fun v => [EvSleep QUERY_DELAY; EvCmd CMD_FREE; EvDec v]) vs.

(** Events of the polling loop. *)
Definition polling (e : event) : Prop :=
  match e with
  | EvSleep _ | EvCmd _ | EvDec _ => True
  | _ => False
  end.

(** Events outside the spooling loop. *)
Definition setup (e : event) : Prop :=
  match e with
  | EvCmd _ | EvDec _ | EvAsc _ => True
  | _ => False
  end.

(** Events other than a [write] of data. *)
Definition no_data (e : event) : Prop :=
  match e with EvData _ => False | _ => True end.

(** What the loop does with a chunk size of [c]: every [fread] asks for [c]
    bytes and every [write] has at most [c] bytes. *)
Definition within (c : Z) (e : event) : Prop :=
  match e with
  | EvFread nmemb _ => nmemb = c
  | EvData buf => Z.of_nat (length buf) <= c
  | _ => True
  end.

(** The log of the spooling loop, whether it ran to its end or not: rounds of
    one [fread], the polls that waited, the poll that released, and the
    [write] of what [fread] returned; the last round may stop while
    polling. *)
Inductive spool_shape (c : Z) : list event -> Prop :=
| shape_done : spool_shape c []
| shape_stalled (buf : list Z) (evs : list event) :
    Z.of_nat (length buf) <= c ->
    Forall polling evs ->
    spool_shape c (EvFread c buf :: evs)
| shape_round (buf : list Z) (waits : list Z) (v : Z) (evs : list event) :
    Z.of_nat (length buf) <= c ->
    Forall (fun i => to_size i <= Z.of_nat (length buf)) waits ->
    Z.of_nat (length buf) < to_size v ->
    spool_shape c evs ->
    spool_shape c (EvFread c buf :: poll_log (waits ++ [v]) ++ EvData buf :: evs).

(** Every [write] of a chunk in the log closes the round that read the
    chunk: between the [fread] that returned it and the [write] there are
    only free-space polls (delay, query, answer), at least one, and the
    answer [v] of the last one is above the size of the chunk as [buffree]
    holds it, which is [v] converted to [size_t].  So an answer that is not
    negative is itself above the size of the chunk; a negative answer can be
    anything. *)
Definition guarded (tr : list event) : Prop :=
  forall pre buf post,
    tr = pre ++ EvData buf :: post ->
    exists pre' c waits v,
      pre = pre' ++ EvFread c buf :: poll_log (waits ++ [v])
      /\ Z.of_nat (length buf) < to_size v
      /\ (0 <= v -> Z.of_nat (length buf) < v).

(** Queries for a DEC field and reads of a DEC field. *)
Definition asks_dec (e : event) : bool :=
  match e with
  | EvCmd s => bytes_eqb s CMD_BUFSIZE || bytes_eqb s CMD_FREE
  | _ => false
  end.

Definition reads_dec (e : event) : bool :=
  match e with EvDec _ => true | _ => false end.

Definition step (e : event) : Z :=
  (if asks_dec e then 1 else 0) - (if reads_dec e then 1 else 0).

(** The queries for a DEC field that a log sent, less the DEC fields it
    read: with a device that answers each such query with one field, in
    order, the number of answers on their way or waiting on the line. *)
Fixpoint outstanding (tr : list event) : Z :=
  match tr with
  | [] => 0
  | e :: tr' => step e + outstanding tr'
  end.

(** Every read of a DEC field in [evs] is done with [k] queries outstanding,
    when [o] are outstanding before [evs]. *)
Fixpoint reads_at (k o : Z) (evs : list event) : Prop :=
  match evs with
  | [] => True
  | e :: evs' => (reads_dec e = true -> o = k) /\ reads_at k (o + step e) evs'
  end.

(** ** Fields and pending answers *)

(** The bytes of [s] before its first NUL. *)
Fixpoint until_nul (s : list Z) : list Z :=
  match s with
  | c :: s' => if c =? 0 then [] else c :: until_nul s'
  | [] => []
  end.

(** The text [s] and the terminator. *)
Definition field (s : string) : list Z := bytes_of s ++ [DEVCOM_TERM].

(** The ASCII codes of the digits of a decimal number. *)
Fixpoint uint_digits (d : Decimal.uint) : list Z :=
  match d with
  | Nil => []
  | D0 d => 48 :: uint_digits d
  | D1 d => 49 :: uint_digits d
  | D2 d => 50 :: uint_digits d
  | D3 d => 51 :: uint_digits d
  | D4 d => 52 :: uint_digits d
  | D5 d => 53 :: uint_digits d
  | D6 d => 54 :: uint_digits d
  | D7 d => 55 :: uint_digits d
  | D8 d => 56 :: uint_digits d
  | D9 d => 57 :: uint_digits d
  end.

(** A DEC field as the device sends it: the ASCII decimal digits of [k],
    then the terminator. *)
Definition dec_field (k : Z) : list Z :=
  uint_digits (N.to_uint (Z.to_N k)) ++ [DEVCOM_TERM].

(** The bytes pending on the line start with complete DEC fields that
    [read_dec] decodes to [vs], in this order. *)
Fixpoint answers (pending : list Z) (vs : list Z) : bool :=
  match vs with
  | [] => true
  | v :: vs' =>
      match read_dec_bytes pending with
      | Got v' rest => (v' =? v) && answers rest vs'
      | _ => false
      end
  end.

(** The polled values [vs] release the chunks of sizes [ns] one after the
    other: for each chunk in turn, after the values that released the chunks
    before it, some value is above its size. *)
Fixpoint serves (vs : list Z) (ns : list Z) {struct vs} : bool :=
  match ns with
  | [] => true
  | n :: ns' =>
      match vs with
      | [] => false
      | v :: vs' => if n <? to_size v then serves vs' ns' else serves vs' ns
      end
  end.

(** ** Chunks of the input *)

(** The input cut into pieces of [c] bytes, followed by what is left, which
    is shorter than [c] and may be empty; [k] bounds the number of full
    pieces. *)
Fixpoint chunks_aux (k c : nat) (data : list Z) : list (list Z) :=
  match k with
  | O => [data]
  | S k' =>
      if (length data <? c)%nat then [data]
      else take c data :: chunks_aux k' c (drop c data)
  end.

Definition chunks (c : nat) (data : list Z) : list (list Z) :=
  chunks_aux (length data) c data.

(** The written data [ds] are the input in chunks: consecutive pieces of the
    input, all of exactly [c] bytes but the last, which is shorter (it may be
    empty); so [length input] bytes in all. *)
Definition in_chunks (c : Z) (input : list Z) (ds : list (list Z)) : Prop :=
  exists full last,
    ds = full ++ [last]
    /\ concat ds = input
    /\ length (concat ds) = length input
    /\ Forall (fun b => Z.of_nat (length b) = c) full
    /\ Z.of_nat (length last) < c.

(** ** Devices of the scenarios *)

Definition is_command (s : list Z) : bool :=
  bytes_eqb (take 2 s) DEVCOM_PREFIX.

(** A device that never answers: everything it will ever say is already on
    the line. *)
Definition silent : device unit := fun d _ => (d, []).

(** A device that answers the buffer-size query with [capacity] and every
    free-space query with [free], whatever it was sent. *)
Definition fixed_answers (capacity free : Z) : device unit :=
  fun d a =>
    match a with
    | Sent s =>
        if bytes_eqb s CMD_BUFSIZE then (d, dec_field capacity)
        else if bytes_eqb s CMD_FREE then (d, dec_field free)
        else (d, [])
    | Slept _ => (d, [])
    end.

(** A plotter with a receive buffer of [capacity] bytes that is busy and
    takes nothing out of its buffer: its state is the number of data bytes it
    was sent.  It answers the buffer-size query with [capacity], the
    free-space query with the room that is left, and the identification
    query with its name. *)
Definition busy_plotter (capacity : Z) : device Z :=
  fun held a =>
    match a with
    | Sent s =>
        if bytes_eqb s CMD_BUFSIZE then (held, dec_field capacity)
        else if bytes_eqb s CMD_FREE
             then (held, dec_field (Z.max 0 (capacity - held)))
        else if bytes_eqb s CMD_IDENT then (held, field "7550A")
        else if is_command s then (held, [])
        else (held + Z.of_nat (length s), [])
    | Slept _ => (held, [])
    end.

(** A device that numbers its answers: it answers the [k]-th query for a DEC
    field (buffer size or free space) with [base + k].  Its state is the
    number of such queries it has answered. *)
Definition numbering (base : Z) : device Z :=
  fun k a =>
    match a with
    | Sent s =>
        if bytes_eqb s CMD_BUFSIZE || bytes_eqb s CMD_FREE
        then (k + 1, dec_field (base + k + 1))
        else (k, [])
    | Slept _ => (k, [])
    end.

(** ** Commands and delays *)

(** The strings a log sent with [serial_write], in order. *)
Fixpoint commands (evs : list event) : list (list Z) :=
  match evs with
  | EvCmd s :: evs' => s :: commands evs'
  | _ :: evs' => commands evs'
  | [] => []
  end.

(** What the spooling loop may log: the delay and the free-space query of a
    poll, the answer, a [fread] and a [write] of data. *)
Definition loop_event (e : event) : Prop :=
  match e with
  | EvSleep us => us = QUERY_DELAY
  | EvCmd s => s = CMD_FREE
  | EvAsc _ => False
  | EvDec _ | EvFread _ _ | EvData _ => True
  end.

(** The delays of a log, in order. *)
Fixpoint delays (evs : list event) : list Z :=
  match evs with
  | EvSleep us :: evs' => us :: delays evs'
  | _ :: evs' => delays evs'
  | [] => []
  end.

(** ** The serial port and the calls of a run *)

(** The bits that lines 56-67 name, with the values the lines give them:
    8 data bits, parity on and odd, one stop bit, no hardware flow control,
    a local line with the receiver enabled; canonical mode, the echoes and
    the signals off; parity checked and the eighth bit stripped on input,
    software flow control off; the processing of the output off.  The bits
    the lines do not name are no part of it: the translations of CR and NL on
    input ([ICRNL], [INLCR], [IGNCR]) among them. *)
Definition assigned_bits (options : termios) : Prop :=
  Z.land (c_cflag options) CSIZE = CS8
  /\ Z.land (c_cflag options) (Z.lor PARENB PARODD) = Z.lor PARENB PARODD
  /\ Z.land (c_cflag options) CSTOPB = 0
  /\ Z.land (c_cflag options) CRTSCTS = 0
  /\ Z.land (c_cflag options) (Z.lor CLOCAL CREAD) = Z.lor CLOCAL CREAD
  /\ Z.land (c_lflag options)
            (Z.lor (Z.lor (Z.lor ICANON ECHO) ECHOE) ISIG) = 0
  /\ Z.land (c_iflag options) (Z.lor INPCK ISTRIP) = Z.lor INPCK ISTRIP
  /\ Z.land (c_iflag options) (Z.lor (Z.lor IXON IXOFF) IXANY) = 0
  /\ Z.land (c_oflag options) OPOST = 0.

(** The translations of CR and NL on input, which lines 56-67 do not
    name. *)
Definition CR_NL_BITS : Z := Z.lor ICRNL (Z.lor INLCR IGNCR).

(** The bits of each flag word that lines 56-67 name. *)
Definition CFLAG_NAMED : Z :=
  Z.lor CSIZE
    (Z.lor PARENB (Z.lor PARODD (Z.lor CSTOPB (Z.lor CRTSCTS
       (Z.lor CLOCAL CREAD))))).
Definition LFLAG_NAMED : Z := Z.lor (Z.lor (Z.lor ICANON ECHO) ECHOE) ISIG.
Definition IFLAG_NAMED : Z :=
  Z.lor INPCK (Z.lor ISTRIP (Z.lor (Z.lor IXON IXOFF) IXANY)).
Definition OFLAG_NAMED : Z := OPOST.

(** The descriptors that the calls opened and did not close, on top of
    [held]. *)
Fixpoint open_fds (held : list Z) (calls : list syscall) : list Z :=
  match calls with
  | [] => held
  | SysOpen _ _ fd :: calls' =>
      open_fds (if fd <? 0 then held else fd :: held) calls'
  | SysClose fd :: calls' => open_fds (List.remove Z.eq_dec fd held) calls'
  | _ :: calls' => open_fds held calls'
  end.

(** The files that the calls opened by name and did not close, on top of
    [held]. *)
Fixpoint open_files (held : list string) (calls : list syscall)
  : list string :=
  match calls with
  | [] => held
  | SysFopen name true :: calls' => open_files (name :: held) calls'
  | SysFclose (Named name) :: calls' =>
      open_files (List.remove string_dec name held) calls'
  | _ :: calls' => open_files held calls'
  end.

(** ** The command line *)

(** The call of [getopt] returned the option letter [a]. *)
Definition returned (a : ascii) (g : getopt_call) : bool :=
  to_char (g_return g) =? code a.

(** The call returned one of the four option letters. *)
Definition is_option (g : getopt_call) : bool :=
  returned "d" g || returned "f" g || returned "r" g || returned "v" g.

(** What [getopt] may return where its option string is ["d:f:r:v"]: -1, a
    question mark or one of the four letters. *)
Definition getopt_contract (g : getopt_call) : Prop :=
  In (g_return g) [-1; code "?"; code "d"; code "f"; code "r"; code "v"].

(** The argument of the last call that returned [a], if there is one. *)
Fixpoint last_optarg (a : ascii) (calls : list getopt_call) : option string :=
  match calls with
  | [] => None
  | g :: calls' =>
      match last_optarg a calls' with
      | Some s => Some s
      | None => if returned a g then Some (g_optarg g) else None
      end
  end.

(** A port as a terminal has it before anything sets it up: CR is
    translated to NL on input.  It opens as descriptor 3, and the speed
    functions leave the flag words alone. *)
Definition cooked_port : system :=
  System (fun _ => None)
         []
         (fun _ _ => 3)
         (fun _ => Termios ICRNL 0 0 0 0 [])
         (fun options _ => options)
         (fun options _ => options)
         (fun _ _ _ => 0).

(** A system for the scenarios: one file, [plot.hpgl], and one port,
    [/dev/ttyS0], which opens as descriptor 3; the speed functions leave the
    flag words alone. *)
Definition one_port (stdin_data file_data : list Z) (set_result : Z)
  : system :=
  System (fun name => if String.eqb name "plot.hpgl" then Some file_data
                      else None)
         stdin_data
         (fun path _ => if String.eqb path "/dev/ttyS0" then 3 else -1)
         (fun _ => Termios 0 0 0 0 0 [])
         (fun options _ => options)
         (fun options _ => options)
         (fun _ _ _ => set_result).

(** * Properties of the readers *)

Example read_dec_100 :
  read_dec_bytes (bytes_of "100" ++ [13] ++ bytes_of "7") = Got 100 (bytes_of "7").
Proof. reflexivity. Qed.

Example read_dec_junk : read_dec_bytes (bytes_of "abc" ++ [13]) = Got 0 [].
Proof. reflexivity. Qed.

Example read_dec_minus : read_dec_bytes (bytes_of "-5" ++ [13]) = Got (-5) [].
Proof. reflexivity. Qed.

Example read_dec_overrun :
  read_dec_bytes (replicate 64 48 ++ [13]) = OutOfBounds 64.
Proof. reflexivity. Qed.

Example read_dec_full :
  read_dec_bytes (replicate 63 48 ++ [13]) = Got 0 [].
Proof. reflexivity. Qed.

Lemma c_string_written (bs : list Z) (tail : buffer) :
  c_string (map Some bs ++ Some 0 :: tail) = Some (until_nul bs).
Proof.
  induction bs as [|c bs IH]; simpl; [reflexivity|].
  destruct (c =? 0); [reflexivity|]. now rewrite IH.
Qed.

Lemma store_Some (buf : buffer) (i : nat) (c : Z) :
  (i < length buf)%nat -> store buf i c = Some (<[i := Some c]> buf).
Proof.
  intros Hi. unfold store.
  destruct (Nat.ltb_spec i (length buf)); [reflexivity | lia].
Qed.

Lemma store_None (buf : buffer) (i : nat) (c : Z) :
  (length buf <= i)%nat -> store buf i c = None.
Proof.
  intros Hi. unfold store.
  destruct (Nat.ltb_spec i (length buf)); [lia | reflexivity].
Qed.

(** Storing at the end of the written part of a buffer. *)
Lemma insert_written (done : list Z) (c : Z) (o : option Z) (tail : buffer) :
  <[length done := Some c]> (map Some done ++ o :: tail)
  = map Some (done ++ [c]) ++ tail.
Proof.
  induction done as [|d done IH]; simpl; [reflexivity|].
  now rewrite IH.
Qed.

(** The loop on a field of [bs] bytes that fits the buffer. *)
Lemma read_field_fits (bs done : list Z) (tail : buffer) (rest : list Z) :
  Forall (fun c => c <> DEVCOM_TERM) bs ->
  (length bs < length tail)%nat ->
  exists tail',
    read_field (map Some done ++ tail) (length done) (bs ++ DEVCOM_TERM :: rest)
    = FieldDone (map Some (done ++ bs) ++ Some 0 :: tail')
                (length done + length bs) rest
    /\ (length tail = length bs + 1 + length tail')%nat.
Proof.
  revert done tail.
  induction bs as [|c bs IH]; intros done tail Hbs Hlen; simpl in *.
  - destruct tail as [|o tail]; [simpl in Hlen; lia|].
    rewrite store_Some by (rewrite length_app, length_map; simpl; lia).
    rewrite insert_written.
    exists tail. rewrite app_nil_r, Nat.add_0_r.
    split; [|simpl; lia].
    now rewrite map_app, <- app_assoc.
  - inversion Hbs as [|? ? Hc Hbs']; subst.
    destruct (Z.eqb_spec c DEVCOM_TERM) as [->|_]; [contradiction|].
    destruct tail as [|o tail]; [simpl in Hlen; lia|].
    rewrite store_Some by (rewrite length_app, length_map; simpl; lia).
    rewrite insert_written.
    destruct (IH (done ++ [c]) tail Hbs') as (tail' & Heq & Hl);
      [simpl in Hlen; lia|].
    rewrite length_app in Heq. simpl in Heq.
    replace (length done + 1)%nat with (S (length done)) in Heq by lia.
    exists tail'. rewrite Heq. split; [|simpl; lia].
    rewrite <- app_assoc. simpl. f_equal. lia.
Qed.

(** The loop on a run of bytes that is longer than what is left of the
    buffer: the store that follows the last cell is out of bounds. *)
Lemma read_field_long (bs done : list Z) (tail : buffer) (rest : list Z) :
  Forall (fun c => c <> DEVCOM_TERM) bs ->
  (length tail <= length bs)%nat ->
  read_field (map Some done ++ tail) (length done) (bs ++ DEVCOM_TERM :: rest)
  = FieldOverrun (length done + length tail).
Proof.
  revert done tail.
  induction bs as [|c bs IH]; intros done tail Hbs Hlen; simpl in *.
  - destruct tail; [|simpl in Hlen; lia].
    rewrite store_None by (rewrite length_app, length_map; simpl; lia).
    simpl. f_equal. lia.
  - inversion Hbs as [|? ? Hc Hbs']; subst.
    destruct (Z.eqb_spec c DEVCOM_TERM) as [->|_]; [contradiction|].
    destruct tail as [|o tail].
    + rewrite store_None by (rewrite length_app, length_map; simpl; lia).
      simpl. f_equal. lia.
    + rewrite store_Some by (rewrite length_app, length_map; simpl; lia).
      rewrite insert_written.
      specialize (IH (done ++ [c]) tail Hbs').
      rewrite length_app in IH. simpl in IH.
      replace (length done + 1)%nat with (S (length done)) in IH by lia.
      rewrite IH by (simpl in Hlen; lia).
      simpl. f_equal. lia.
Qed.

(** Without a terminator the loop never ends with a field. *)
Lemma read_field_no_term (rx : list Z) (buf : buffer) (pos : nat) :
  Forall (fun c => c <> DEVCOM_TERM) rx ->
  read_field buf pos rx = FieldBlocked
  \/ exists p, read_field buf pos rx = FieldOverrun p.
Proof.
  revert buf pos.
  induction rx as [|c rx IH]; intros buf pos Hrx; simpl; [now left|].
  inversion Hrx as [|? ? Hc Hrx']; subst.
  destruct (Z.eqb_spec c DEVCOM_TERM) as [->|_]; [contradiction|].
  destruct (store buf pos c); [apply IH; assumption|].
  right. now exists pos.
Qed.

(** Every byte sequence either has no terminator or splits at its first
    one. *)
Lemma first_term (rx : list Z) :
  Forall (fun c => c <> DEVCOM_TERM) rx
  \/ exists bs rest,
       rx = bs ++ DEVCOM_TERM :: rest /\ Forall (fun c => c <> DEVCOM_TERM) bs.
Proof.
  induction rx as [|c rx IH]; [left; constructor|].
  destruct (Z.eq_dec c DEVCOM_TERM) as [->|Hc].
  - right. exists [], rx. split; [reflexivity | constructor].
  - destruct IH as [IH|(bs & rest & -> & Hbs)].
    + left. now constructor.
    + right. exists (c :: bs), rest. split; [reflexivity | now constructor].
Qed.

(** [atoi] does not look past a NUL: [dec_buffer] is read as a C string. *)
Lemma skip_space_until_nul (s : list Z) :
  skip_space (until_nul s) = until_nul (skip_space s).
Proof.
  induction s as [|c s IH]; simpl; [reflexivity|].
  destruct (Z.eqb_spec c 0) as [->|Hc]; simpl; [reflexivity|].
  destruct (isspace c); simpl; [assumption|].
  destruct (Z.eqb_spec c 0); [contradiction | reflexivity].
Qed.

Lemma digits_val_until_nul (s : list Z) (acc : Z) :
  digits_val acc (until_nul s) = digits_val acc s.
Proof.
  revert acc. induction s as [|c s IH]; intros acc; simpl; [reflexivity|].
  destruct (Z.eqb_spec c 0) as [->|Hc]; simpl; [reflexivity|].
  destruct (isdigit c); [apply IH | reflexivity].
Qed.

Lemma strtol_until_nul (s : list Z) : strtol (until_nul s) = strtol s.
Proof.
  unfold strtol. rewrite skip_space_until_nul.
  destruct (skip_space s) as [|c t]; [reflexivity|].
  cbn [until_nul].
  destruct (Z.eqb_spec c 0) as [->|Hc]; [reflexivity|].
  rewrite digits_val_until_nul.
  pose proof (digits_val_until_nul (c :: t) 0) as Hct.
  cbn [until_nul] in Hct.
  destruct (Z.eqb_spec c 0); [contradiction|].
  now rewrite Hct.
Qed.

Lemma atoi_until_nul (s : list Z) : atoi (until_nul s) = atoi s.
Proof. unfold atoi. now rewrite strtol_until_nul. Qed.

(** [read_dec] and [read_asc] on a field of at most 63 bytes. *)
Lemma read_dec_bytes_field (bs rest : list Z) :
  Forall (fun c => c <> DEVCOM_TERM) bs ->
  (length bs < READBUFSIZE)%nat ->
  read_dec_bytes (bs ++ DEVCOM_TERM :: rest) = Got (atoi bs) rest.
Proof.
  intros Hbs Hlen. unfold read_dec_bytes.
  destruct (read_field_fits bs [] fresh_buffer rest Hbs) as (tail' & Heq & _);
    [assumption|].
  simpl in Heq. rewrite Heq. simpl.
  now rewrite c_string_written, atoi_until_nul.
Qed.

Lemma read_asc_bytes_field (bs rest : list Z) :
  Forall (fun c => c <> DEVCOM_TERM) bs ->
  (length bs < READBUFSIZE)%nat ->
  read_asc_bytes (bs ++ DEVCOM_TERM :: rest) = Got (until_nul bs) rest.
Proof.
  intros Hbs Hlen. unfold read_asc_bytes.
  destruct (read_field_fits bs [] fresh_buffer rest Hbs) as (tail' & Heq & _);
    [assumption|].
  simpl in Heq. rewrite Heq. simpl.
  now rewrite c_string_written.
Qed.

(** A field of 64 bytes or more overruns the buffer at index 64. *)
Lemma read_dec_bytes_long (bs rest : list Z) :
  Forall (fun c => c <> DEVCOM_TERM) bs ->
  (READBUFSIZE <= length bs)%nat ->
  read_dec_bytes (bs ++ DEVCOM_TERM :: rest) = OutOfBounds READBUFSIZE.
Proof.
  intros Hbs Hlen. unfold read_dec_bytes.
  pose proof (read_field_long bs [] fresh_buffer rest Hbs Hlen) as H.
  change (map Some [] ++ fresh_buffer) with fresh_buffer in H.
  change (length (@nil Z)) with 0%nat in H.
  now rewrite H.
Qed.

(** What a successful [read_dec] has consumed. *)
Lemma read_dec_bytes_Got (rx : list Z) (v : Z) (rest : list Z) :
  read_dec_bytes rx = Got v rest ->
  exists bs,
    rx = bs ++ DEVCOM_TERM :: rest
    /\ Forall (fun c => c <> DEVCOM_TERM) bs
    /\ (length bs < READBUFSIZE)%nat
    /\ v = atoi bs.
Proof.
  intros Hgot.
  destruct (first_term rx) as [Hno|(bs & rest' & -> & Hbs)].
  - unfold read_dec_bytes in Hgot.
    destruct (read_field_no_term rx fresh_buffer 0 Hno) as [H|[p H]];
      rewrite H in Hgot; discriminate.
  - destruct (Nat.lt_ge_cases (length bs) READBUFSIZE) as [Hlt|Hge].
    + rewrite read_dec_bytes_field in Hgot by assumption.
      inversion Hgot; subst. now exists bs.
    + rewrite read_dec_bytes_long in Hgot by assumption. discriminate.
Qed.

(** Bytes that arrive later do not change what a successful [read_dec]
    returns. *)
Lemma read_dec_bytes_app (rx more : list Z) (v : Z) (rest : list Z) :
  read_dec_bytes rx = Got v rest ->
  read_dec_bytes (rx ++ more) = Got v (rest ++ more).
Proof.
  intros Hgot.
  destruct (read_dec_bytes_Got _ _ _ Hgot) as (bs & -> & Hbs & Hlen & ->).
  rewrite <- app_assoc. simpl.
  now apply read_dec_bytes_field.
Qed.

(** The result of [atoi] is an [int]. *)
Lemma to_int_range (z : Z) : INT_MIN <= to_int z <= INT_MAX.
Proof.
  unfold to_int, INT_MIN, INT_MAX.
  pose proof (Z.mod_pos_bound (z + 2 ^ 31) (2 ^ 32) ltac:(lia)). lia.
Qed.

Lemma to_size_small (z : Z) : 0 <= z <= INT_MAX -> to_size z = z.
Proof.
  unfold to_size, INT_MAX. intros H. apply Z.mod_small. lia.
Qed.

Lemma to_size_le (z : Z) : 0 <= z -> to_size z <= z.
Proof. intros H. unfold to_size. apply Z.mod_le; lia. Qed.

Lemma to_size_range (z : Z) : 0 <= to_size z <= SIZE_MAX.
Proof.
  unfold to_size, SIZE_MAX.
  pose proof (Z.mod_pos_bound z (2 ^ 64) ltac:(lia)). lia.
Qed.

(** * The host's primitives *)

Section Primitives.
Context {D : Type} (plotter : device D).

Lemma act_after (a : action) (e : event) (w : world D) :
  act plotter a e w = Ret tt (after plotter a e w).
Proof. unfold act, after. now destruct (plotter (dev w) a). Qed.

Lemma bind_Ret {A B} (m : M A) (k : A -> M B) (w w1 : world D) (a : A) :
  m w = Ret a w1 -> bind m k w = k a w1.
Proof. intros H. unfold bind. now rewrite H. Qed.

Lemma bind_Stop {A B} (m : M A) (k : A -> M B) (w w1 : world D) why :
  m w = Stop why w1 -> bind m k w = Stop why w1.
Proof. intros H. unfold bind. now rewrite H. Qed.

Lemma bind_act {B} (a : action) (e : event) (k : unit -> M B) (w : world D) :
  bind (act plotter a e) k w = k tt (after plotter a e w).
Proof. apply bind_Ret, act_after. Qed.

Lemma bind_log {B} (e : event) (k : unit -> M B) (w : world D) :
  bind (log e) k w = k tt (World (dev w) (rx w) (trace w ++ [e])).
Proof. reflexivity. Qed.

Lemma trace_after (a : action) (e : event) (w : world D) :
  trace (after plotter a e w) = trace w ++ [e].
Proof. reflexivity. Qed.

Lemma rx_after (a : action) (e : event) (w : world D) :
  rx (after plotter a e w) = rx w ++ snd (plotter (dev w) a).
Proof. reflexivity. Qed.

Lemma read_dec_Ret (w w1 : world D) (v : Z) :
  read_dec w = Ret v w1 ->
  read_dec_bytes (rx w) = Got v (rx w1)
  /\ trace w1 = trace w ++ [EvDec v] /\ dev w1 = dev w.
Proof.
  unfold read_dec, read_with.
  destruct (read_dec_bytes (rx w)); intros H; inversion H; subst.
  now simpl.
Qed.

Lemma read_dec_Stop (w w1 : world D) why :
  read_dec w = Stop why w1 -> w1 = w /\ why <> OutOfFuel.
Proof.
  unfold read_dec, read_with.
  destruct (read_dec_bytes (rx w)); intros H; inversion H; subst;
    split; congruence.
Qed.

Lemma read_dec_Got (w : world D) (v : Z) (rest : list Z) :
  read_dec_bytes (rx w) = Got v rest ->
  read_dec w = Ret v (World (dev w) rest (trace w ++ [EvDec v])).
Proof. intros H. unfold read_dec, read_with. now rewrite H. Qed.

Lemma read_asc_Ret (w w1 : world D) (s : list Z) :
  read_asc w = Ret s w1 -> trace w1 = trace w ++ [EvAsc s].
Proof.
  unfold read_asc, read_with.
  destruct (read_asc_bytes (rx w)); intros H; inversion H; subst.
  now simpl.
Qed.

Lemma read_asc_Stop (w w1 : world D) why :
  read_asc w = Stop why w1 -> w1 = w.
Proof.
  unfold read_asc, read_with.
  destruct (read_asc_bytes (rx w)); intros H; inversion H; subst;
    reflexivity.
Qed.

End Primitives.

(** * The shape of the log *)

Lemma poll_log_app (vs ws : list Z) :
  poll_log (vs ++ ws) = poll_log vs ++ poll_log ws.
Proof. unfold poll_log. now rewrite flat_map_app. Qed.

Lemma polling_poll_log (vs : list Z) : Forall polling (poll_log vs).
Proof.
  induction vs as [|v vs IH]; simpl; [constructor|].
  repeat (constructor; [exact I|]). exact IH.
Qed.

Section PollLoop.
Context {D : Type} (plotter : device D).

(** The world after one round of the polling loop that read [v]. *)
Lemma poll_unfold (fuel : nat) (n b : Z) (w : world D) :
  b <= n ->
  poll plotter (S fuel) n b w =
  bind read_dec (fun v => poll plotter fuel n (to_size v))
       (after plotter (Sent CMD_FREE) (EvCmd CMD_FREE)
          (after plotter (Slept QUERY_DELAY) (EvSleep QUERY_DELAY) w)).
Proof.
  intros Hb. simpl.
  destruct (Z.leb_spec b n); [|lia].
  unfold usleep, serial_write. now rewrite !bind_act.
Qed.

Lemma poll_exit (fuel : nat) (n b : Z) (w : world D) :
  n < b -> poll plotter fuel n b w = Ret tt w.
Proof.
  intros Hb. destruct fuel; simpl; destruct (Z.leb_spec b n); try lia;
    reflexivity.
Qed.

(** When the polling loop ends, it has read values at most [n] and then one
    above [n], and nothing else happened. *)
Lemma poll_Ret (fuel : nat) (n b : Z) (w w' : world D) :
  poll plotter fuel n b w = Ret tt w' ->
  b <= n ->
  exists waits v,
    trace w' = trace w ++ poll_log (waits ++ [v])
    /\ Forall (fun i => to_size i <= n) waits
    /\ n < to_size v.
Proof.
  revert b w.
  induction fuel as [|fuel IH]; intros b w Hret Hb.
  - simpl in Hret. destruct (Z.leb_spec b n); [discriminate | lia].
  - rewrite poll_unfold in Hret by assumption.
    unfold bind in Hret.
    match type of Hret with
    | match read_dec ?w2 with _ => _ end = _ =>
        destruct (read_dec w2) as [v w3|why w3] eqn:Hrd; [|discriminate];
        apply read_dec_Ret in Hrd as (_ & Htr & _)
    end.
    rewrite !trace_after in Htr.
    destruct (Z.le_gt_cases (to_size v) n) as [Hle|Hgt].
    + destruct (IH _ _ Hret Hle) as (waits & v' & Htr' & Hw & Hv).
      exists (v :: waits), v'. split; [|split; [now constructor | assumption]].
      rewrite Htr', Htr. simpl. now rewrite <- !app_assoc.
    + rewrite poll_exit in Hret by lia. inversion Hret; subst.
      exists [], v. split; [|split; [constructor | lia]].
      rewrite Htr. simpl. now rewrite <- !app_assoc.
Qed.

(** When the polling loop does not end, it has done nothing but poll. *)
Lemma poll_Stop (fuel : nat) (n b : Z) (w w' : world D) why :
  poll plotter fuel n b w = Stop why w' ->
  exists evs, trace w' = trace w ++ evs /\ Forall polling evs.
Proof.
  revert b w.
  induction fuel as [|fuel IH]; intros b w Hstop.
  - simpl in Hstop. destruct (Z.leb_spec b n); [|discriminate].
    inversion Hstop; subst. exists []. now rewrite app_nil_r.
  - destruct (Z.le_gt_cases b n) as [Hb|Hb];
      [|rewrite poll_exit in Hstop by lia; discriminate].
    rewrite poll_unfold in Hstop by assumption.
    unfold bind in Hstop.
    match type of Hstop with
    | match read_dec ?w2 with _ => _ end = _ =>
        destruct (read_dec w2) as [v w3|why3 w3] eqn:Hrd
    end.
    + apply read_dec_Ret in Hrd as (_ & Htr & _).
      rewrite !trace_after in Htr.
      destruct (IH _ _ Hstop) as (evs & Htr' & Hevs).
      exists ([EvSleep QUERY_DELAY; EvCmd CMD_FREE; EvDec v] ++ evs).
      split.
      * rewrite Htr', Htr. now rewrite <- !app_assoc.
      * apply Forall_app. split; [|assumption].
        repeat constructor.
    + apply read_dec_Stop in Hrd as [-> _]. inversion Hstop; subst.
      exists [EvSleep QUERY_DELAY; EvCmd CMD_FREE].
      split; [|repeat constructor].
      rewrite !trace_after. now rewrite <- !app_assoc.
Qed.

End PollLoop.

Lemma fread_length (c : Z) (input : FILE) :
  0 <= c -> Z.of_nat (length (fst (fread c input))) <= c.
Proof.
  intros Hc. unfold fread. simpl. rewrite length_take. lia.
Qed.

Section SpoolLoop.
Context {D : Type} (plotter : device D).

Lemma spool_unfold (fuel : nat) (c : Z) (input : FILE) (w : world D) :
  feof input = false ->
  malloc c = true ->
  spool plotter (S fuel) c input w =
  bind (poll plotter fuel (Z.of_nat (length (fst (fread c input)))) 0)
       (fun _ => bind (write plotter (fst (fread c input)))
                   (fun _ => spool plotter fuel c (snd (fread c input))))
       (World (dev w) (rx w)
              (trace w ++ [EvFread c (fst (fread c input))])).
Proof.
  intros Heof Hmem. simpl. rewrite Heof, Hmem.
  destruct (fread c input) as [buffer input'] eqn:Hfr. reflexivity.
Qed.

(** Without a buffer the loop does not get past its first [fread]. *)
Lemma spool_null (fuel : nat) (c : Z) (input : FILE) (w : world D) :
  feof input = false ->
  malloc c = false ->
  spool plotter (S fuel) c input w = Stop NullBuffer w.
Proof. intros Heof Hmem. simpl. now rewrite Heof, Hmem. Qed.

(** The chunk sizes for which [malloc] returns memory. *)
Lemma malloc_true (c : Z) : malloc c = true <-> c < TASK_SIZE.
Proof. unfold malloc. apply Z.ltb_lt. Qed.

Lemma malloc_small (c : Z) : c <= INT_MAX -> malloc c = true.
Proof.
  intros Hc. apply malloc_true. unfold TASK_SIZE, INT_MAX in *. lia.
Qed.

Lemma spool_eof (fuel : nat) (c : Z) (input : FILE) (w : world D) :
  feof input = true -> spool plotter fuel c input w = Ret input w.
Proof. intros Heof. destruct fuel; simpl; now rewrite Heof. Qed.

Lemma spool_has_shape (fuel : nat) (c : Z) (input : FILE) (w : world D) :
  0 <= c ->
  exists evs,
    events (spool plotter fuel c input w) = trace w ++ evs
    /\ spool_shape c evs.
Proof.
  intros Hc. revert input w.
  induction fuel as [|fuel IH]; intros input w.
  - exists []. split; [|constructor].
    rewrite app_nil_r. simpl. now destruct (feof input).
  - destruct (feof input) eqn:Heof.
    + rewrite spool_eof by assumption. exists [].
      split; [now rewrite app_nil_r | constructor].
    + destruct (malloc c) eqn:Hmem;
        [|rewrite spool_null by assumption; exists [];
          split; [now rewrite app_nil_r | constructor]].
      rewrite spool_unfold by assumption.
      pose proof (fread_length c input Hc) as Hlen.
      destruct (fread c input) as [buf input']. simpl in *.
      unfold bind at 1.
      match goal with
      | |- context [poll plotter fuel ?n 0 ?w1] =>
          destruct (poll plotter fuel n 0 w1) as [[] w2|why w2] eqn:Hpoll
      end.
      * apply poll_Ret in Hpoll as (waits & v & Htr & Hw & Hv); [|lia].
        simpl in Htr.
        unfold write. rewrite bind_act.
        destruct (IH input' (after plotter (Sent buf) (EvData buf) w2))
          as (evs & Hev & Hsh).
        exists (EvFread c buf :: poll_log (waits ++ [v]) ++ EvData buf :: evs).
        split; [|now constructor].
        rewrite Hev, trace_after, Htr.
        rewrite <- !app_assoc. reflexivity.
      * apply poll_Stop in Hpoll as (evs & Htr & Hevs). simpl in Htr.
        exists (EvFread c buf :: evs). split; [|now constructor].
        unfold events. simpl. rewrite Htr.
        now rewrite <- !app_assoc.
Qed.

End SpoolLoop.

Section MainShape.
Context {D : Type} (plotter : device D).

Lemma plotter_init_unfold (w : world D) :
  plotter_init plotter w = read_dec (queried plotter w).
Proof.
  unfold plotter_init, serial_write. now rewrite !bind_act.
Qed.

Lemma trace_queried (w : world D) :
  trace (queried plotter w)
  = trace w ++ [EvCmd CMD_ON; EvCmd CMD_RESET; EvCmd CMD_BUFSIZE].
Proof.
  unfold queried. rewrite !trace_after. now rewrite <- !app_assoc.
Qed.

Lemma plotter_init_Ret (w w0 : world D) (C : Z) :
  plotter_init plotter w = Ret C w0 ->
  trace w0
  = trace w ++ [EvCmd CMD_ON; EvCmd CMD_RESET; EvCmd CMD_BUFSIZE; EvDec C]
  /\ INT_MIN <= C <= INT_MAX.
Proof.
  rewrite plotter_init_unfold. intros H.
  apply read_dec_Ret in H as (Hgot & Htr & _).
  rewrite trace_queried in Htr. split.
  - rewrite Htr. now rewrite <- app_assoc.
  - apply read_dec_bytes_Got in Hgot as (bs & _ & _ & _ & ->).
    apply to_int_range.
Qed.

Lemma plotter_init_Stop (w w0 : world D) why :
  plotter_init plotter w = Stop why w0 ->
  trace w0 = trace w ++ [EvCmd CMD_ON; EvCmd CMD_RESET; EvCmd CMD_BUFSIZE].
Proof.
  rewrite plotter_init_unfold. intros H.
  apply read_dec_Stop in H as [-> _]. apply trace_queried.
Qed.

Lemma identify_log (verbose : bool) (w : world D) :
  exists evs,
    trace (world_of (identify plotter verbose w)) = trace w ++ evs
    /\ Forall setup evs.
Proof.
  destruct verbose; simpl.
  - unfold serial_write. rewrite bind_act. unfold bind.
    match goal with
    | |- context [read_asc ?w1] =>
        destruct (read_asc w1) as [s w2|why w2] eqn:Hrd
    end.
    + apply read_asc_Ret in Hrd. rewrite trace_after in Hrd.
      exists [EvCmd CMD_IDENT; EvAsc s]. simpl. rewrite Hrd.
      split; [now rewrite <- app_assoc | repeat constructor].
    + apply read_asc_Stop in Hrd as ->.
      exists [EvCmd CMD_IDENT]. simpl.
      split; [reflexivity | repeat constructor].
  - exists []. split; [now rewrite app_nil_r | constructor].
Qed.

(** The prologue after a successful [plotter_init]. *)
Lemma prologue_unfold (verbose : bool) (w w0 : world D) (C : Z) :
  plotter_init plotter w = Ret C w0 ->
  prologue plotter verbose w =
  match identify plotter verbose w0 with
  | Ret _ w1 =>
      Ret (to_size C / 2)
        (after plotter (Sent CMD_BEGIN) (EvCmd CMD_BEGIN)
           (after plotter (Sent CMD_BUFSIZE) (EvCmd CMD_BUFSIZE)
              (after plotter (Sent CMD_BUFSIZE) (EvCmd CMD_BUFSIZE) w1)))
  | Stop why w1 => Stop why w1
  end.
Proof.
  intros Hinit. unfold prologue.
  rewrite (bind_Ret _ _ _ _ _ Hinit). cbv zeta.
  unfold bind at 1.
  destruct (identify plotter verbose w0) as [[] w1|why w1]; [|reflexivity].
  unfold serial_write. now rewrite !bind_act.
Qed.

Lemma prologue_Ret (verbose : bool) (w w1 : world D) (c : Z) :
  prologue plotter verbose w = Ret c w1 ->
  exists C w0 pro,
    plotter_init plotter w = Ret C w0
    /\ c = to_size C / 2
    /\ trace w1 = trace w ++ pro
    /\ Forall setup pro.
Proof.
  intros Hpro.
  destruct (plotter_init plotter w) as [C w0|why w0] eqn:Hinit.
  - rewrite (prologue_unfold _ _ _ _ Hinit) in Hpro.
    destruct (identify_log verbose w0) as (evs & Htr & Hevs).
    destruct (identify plotter verbose w0) as [[] w2|why w2];
      [|discriminate].
    inversion Hpro; subst. simpl in Htr.
    apply plotter_init_Ret in Hinit as [Htr0 _].
    exists C, w0,
      ([EvCmd CMD_ON; EvCmd CMD_RESET; EvCmd CMD_BUFSIZE; EvDec C] ++ evs
       ++ [EvCmd CMD_BUFSIZE; EvCmd CMD_BUFSIZE; EvCmd CMD_BEGIN]).
    repeat split.
    + rewrite !trace_after, Htr, Htr0. now rewrite <- !app_assoc.
    + apply Forall_app. split; [repeat constructor|].
      apply Forall_app. split; [assumption | repeat constructor].
  - unfold prologue in Hpro.
    rewrite (bind_Stop _ _ _ _ _ Hinit) in Hpro. discriminate.
Qed.

Lemma prologue_Stop (verbose : bool) (w w1 : world D) why :
  prologue plotter verbose w = Stop why w1 ->
  exists pro, trace w1 = trace w ++ pro /\ Forall setup pro.
Proof.
  intros Hpro.
  destruct (plotter_init plotter w) as [C w0|why0 w0] eqn:Hinit.
  - rewrite (prologue_unfold _ _ _ _ Hinit) in Hpro.
    destruct (identify_log verbose w0) as (evs & Htr & Hevs).
    destruct (identify plotter verbose w0) as [[] w2|why2 w2];
      [discriminate|].
    inversion Hpro; subst. simpl in Htr.
    apply plotter_init_Ret in Hinit as [Htr0 _].
    exists ([EvCmd CMD_ON; EvCmd CMD_RESET; EvCmd CMD_BUFSIZE; EvDec C]
              ++ evs).
    split.
    + rewrite Htr, Htr0. now rewrite <- !app_assoc.
    + apply Forall_app. split; [repeat constructor | assumption].
  - unfold prologue in Hpro.
    rewrite (bind_Stop _ _ _ _ _ Hinit) in Hpro.
    inversion Hpro; subst.
    apply plotter_init_Stop in Hinit.
    exists [EvCmd CMD_ON; EvCmd CMD_RESET; EvCmd CMD_BUFSIZE].
    split; [assumption | repeat constructor].
Qed.

(** [main] after a prologue that reached the loop. *)
Lemma main_unfold (verbose : bool) (fuel : nat) (input : list Z)
    (w w1 : world D) (c : Z) :
  prologue plotter verbose w = Ret c w1 ->
  main plotter verbose fuel input w =
  match spool plotter fuel c (fopen input) w1 with
  | Ret _ w2 => Ret tt (after plotter (Sent CMD_OFF) (EvCmd CMD_OFF) w2)
  | Stop why w2 => Stop why w2
  end.
Proof.
  intros Hpro. unfold main.
  rewrite (bind_Ret _ _ _ _ _ Hpro).
  unfold bind at 1.
  destruct (spool plotter fuel c (fopen input) w1) as [f w2|why w2];
    [|reflexivity].
  unfold serial_write. apply act_after.
Qed.

Lemma chunksize_of_nonneg (r : result D Z) : 0 <= chunksize_of r.
Proof.
  destruct r as [C w|why w]; simpl; [|lia].
  pose proof (to_size_range C). apply Z.div_pos; lia.
Qed.

(** The log of [main]: the prologue, the rounds of the spooling loop, and
    the plotter-off command when the loop ended. *)
Lemma main_shape (verbose : bool) (fuel : nat) (input : list Z)
    (w : world D) :
  exists pro evs epi,
    events (main plotter verbose fuel input w) = trace w ++ pro ++ evs ++ epi
    /\ Forall setup pro
    /\ spool_shape (chunksize_of (plotter_init plotter w)) evs
    /\ (epi = [] \/ epi = [EvCmd CMD_OFF]).
Proof.
  destruct (prologue plotter verbose w) as [c w1|why w1] eqn:Hpro.
  - rewrite (main_unfold _ _ _ _ _ _ Hpro).
    apply prologue_Ret in Hpro as (C & w0 & pro & Hinit & -> & Htr & Hpro).
    rewrite Hinit. simpl chunksize_of.
    destruct (spool_has_shape plotter fuel (to_size C / 2) (fopen input) w1)
      as (evs & Hev & Hsh).
    { pose proof (to_size_range C). apply Z.div_pos; lia. }
    unfold events in *.
    destruct (spool plotter fuel (to_size C / 2) (fopen input) w1)
      as [f w2|why w2]; simpl in *.
    + exists pro, evs, [EvCmd CMD_OFF]. rewrite Hev, Htr.
      repeat split; try assumption; [|now right].
      now rewrite <- !app_assoc.
    + exists pro, evs, []. rewrite Hev, Htr.
      repeat split; try assumption; [|now left].
      now rewrite app_nil_r, <- !app_assoc.
  - unfold main. rewrite (bind_Stop _ _ _ _ _ Hpro).
    apply prologue_Stop in Hpro as (pro & Htr & Hpro).
    exists pro, [], []. unfold events. simpl. rewrite Htr, app_nil_r.
    repeat split; try assumption; [constructor | now left].
Qed.

End MainShape.

(** * What the device has to send for the loops to go on *)

Lemma answers_app (pending more vs : list Z) :
  answers pending vs = true -> answers (pending ++ more) vs = true.
Proof.
  revert pending.
  induction vs as [|v vs IH]; intros pending H; simpl in *; [reflexivity|].
  destruct (read_dec_bytes pending) as [v' rest| |] eqn:Hrd; try discriminate.
  rewrite (read_dec_bytes_app _ more _ _ Hrd).
  apply andb_true_iff in H as [Hv Hrest].
  rewrite Hv. simpl. now apply IH.
Qed.

Lemma answers_cons (pending : list Z) (v : Z) (vs : list Z) :
  answers pending (v :: vs) = true ->
  exists rest, read_dec_bytes pending = Got v rest /\ answers rest vs = true.
Proof.
  simpl. destruct (read_dec_bytes pending) as [v' rest| |]; try discriminate.
  intros H. apply andb_true_iff in H as [Hv Hrest].
  apply Z.eqb_eq in Hv as ->. now exists rest.
Qed.

Lemma answers_split (pending : list Z) (vs ws : list Z) :
  answers pending (vs ++ ws) = true -> answers pending vs = true.
Proof.
  revert pending.
  induction vs as [|v vs IH]; intros pending H; simpl in *; [reflexivity|].
  destruct (read_dec_bytes pending) as [v' rest| |]; try discriminate.
  apply andb_true_iff in H as [Hv Hrest].
  rewrite Hv. simpl. now apply IH with (pending := rest).
Qed.

Lemma serves_split (vs : list Z) (n : Z) (ns : list Z) :
  serves vs (n :: ns) = true ->
  exists waits v rest,
    vs = waits ++ v :: rest
    /\ Forall (fun i => to_size i <= n) waits
    /\ n < to_size v
    /\ serves rest ns = true.
Proof.
  induction vs as [|v vs IH]; simpl; [discriminate|].
  destruct (Z.ltb_spec n (to_size v)) as [Hlt|Hge]; intros H.
  - exists [], v, vs. repeat split; [constructor | assumption | assumption].
  - destruct (IH H) as (waits & v' & rest & -> & Hw & Hv & Hrest).
    exists (v :: waits), v', rest.
    repeat split; [now constructor | assumption | assumption].
Qed.

Section Release.
Context {D : Type} (plotter : device D).

(** One round of the polling loop when the answer [i] is pending. *)
Lemma poll_round (i : Z) (vs : list Z) (n b : Z) (fuel : nat) (w : world D) :
  b <= n ->
  answers (rx w) (i :: vs) = true ->
  exists w1,
    poll plotter (S fuel) n b w = poll plotter fuel n (to_size i) w1
    /\ trace w1 = trace w ++ poll_log [i]
    /\ answers (rx w1) vs = true.
Proof.
  intros Hb Hans.
  rewrite poll_unfold by assumption.
  set (w2 := after plotter (Sent CMD_FREE) (EvCmd CMD_FREE)
               (after plotter (Slept QUERY_DELAY) (EvSleep QUERY_DELAY) w)).
  assert (Hans2 : answers (rx w2) (i :: vs) = true).
  { unfold w2. rewrite !rx_after. now do 2 apply answers_app. }
  apply answers_cons in Hans2 as (rest' & Hgot & Hrest).
  rewrite (bind_Ret _ _ _ _ _ (read_dec_Got _ _ _ Hgot)).
  eexists. split; [reflexivity|]. split; [|exact Hrest].
  unfold w2. simpl. now rewrite <- !app_assoc.
Qed.

(** With the answers [waits ++ v :: rest] pending, all of [waits] at most
    [n] and [v] above [n], the polling loop reads [waits] and [v] and
    ends. *)
Lemma poll_release (waits : list Z) (v : Z) (rest : list Z) (n b : Z)
    (fuel : nat) (w : world D) :
  b <= n ->
  answers (rx w) (waits ++ v :: rest) = true ->
  Forall (fun i => to_size i <= n) waits ->
  n < to_size v ->
  (length waits < fuel)%nat ->
  exists w',
    poll plotter fuel n b w = Ret tt w'
    /\ trace w' = trace w ++ poll_log (waits ++ [v])
    /\ answers (rx w') rest = true.
Proof.
  revert b fuel w.
  induction waits as [|i waits IH]; intros b fuel w Hb Hans Hw Hv Hfuel;
    (destruct fuel as [|fuel]; [simpl in Hfuel; lia|]).
  - destruct (poll_round v rest n b fuel w Hb Hans) as (w1 & -> & Htr & Hans1).
    rewrite poll_exit by lia.
    exists w1. now repeat split.
  - destruct (poll_round i (waits ++ v :: rest) n b fuel w Hb Hans)
      as (w1 & -> & Htr & Hans1).
    inversion Hw as [|? ? Hi Hw']; subst.
    destruct (IH (to_size i) fuel w1 Hi Hans1 Hw' Hv) as (w' & Hpoll & Htr' & Hans');
      [simpl in Hfuel; lia|].
    exists w'. split; [exact Hpoll|]. split; [|assumption].
    rewrite Htr', Htr. change (poll_log ((i :: waits) ++ [v]))
      with (poll_log [i] ++ poll_log (waits ++ [v])).
    now rewrite <- !app_assoc.
Qed.

End Release.

(** * The chunks of the input *)

Lemma chunks_aux_short (k c : nat) (data : list Z) :
  (length data < c)%nat -> chunks_aux k c data = [data].
Proof.
  intros H. destruct k; simpl; [reflexivity|].
  destruct (Nat.ltb_spec (length data) c); [reflexivity | lia].
Qed.

Lemma chunks_aux_full (k c : nat) (data : list Z) :
  (c <= length data)%nat ->
  chunks_aux (S k) c data = take c data :: chunks_aux k c (drop c data).
Proof.
  intros H. simpl.
  destruct (Nat.ltb_spec (length data) c); [lia | reflexivity].
Qed.

Lemma concat_chunks_aux (k c : nat) (data : list Z) :
  concat (chunks_aux k c data) = data.
Proof.
  revert data. induction k as [|k IH]; intros data; simpl.
  - apply app_nil_r.
  - destruct (length data <? c)%nat; simpl; [apply app_nil_r|].
    rewrite IH. apply take_drop.
Qed.

(** All pieces but the last have exactly [c] bytes, the last one fewer. *)
Lemma chunks_aux_sizes (k c : nat) (data : list Z) :
  (0 < c)%nat ->
  (length data <= k)%nat ->
  exists full last,
    chunks_aux k c data = full ++ [last]
    /\ Forall (fun b => length b = c) full
    /\ (length last < c)%nat.
Proof.
  intros Hc. revert data.
  induction k as [|k IH]; intros data Hk.
  - exists [], data. simpl. repeat split; [constructor | lia].
  - destruct (Nat.lt_ge_cases (length data) c) as [Hlt|Hge].
    + rewrite chunks_aux_short by assumption.
      exists [], data. repeat split; [constructor | assumption].
    + rewrite chunks_aux_full by assumption.
      destruct (IH (drop c data)) as (full & last & Heq & Hfull & Hlast).
      { rewrite length_drop. lia. }
      exists (take c data :: full), last. rewrite Heq.
      repeat split; [|assumption].
      constructor; [|assumption]. rewrite length_take. lia.
Qed.

Lemma data_of_app (l1 l2 : list event) :
  data_of (l1 ++ l2) = data_of l1 ++ data_of l2.
Proof.
  induction l1 as [|e l1 IH]; simpl; [reflexivity|].
  destruct e; simpl; now rewrite ?IH.
Qed.

Lemma data_of_polling (evs : list event) :
  Forall polling evs -> data_of evs = [].
Proof.
  induction 1 as [|e evs He _ IH]; simpl; [reflexivity|].
  destruct e; simpl in *; try contradiction; assumption.
Qed.

Lemma data_of_poll_log (vs : list Z) : data_of (poll_log vs) = [].
Proof. apply data_of_polling, polling_poll_log. Qed.

Lemma polled_app (l1 l2 : list event) :
  polled (l1 ++ l2) = polled l1 ++ polled l2.
Proof.
  induction l1 as [|e l1 IH]; simpl; [reflexivity|].
  destruct e; simpl; now rewrite ?IH.
Qed.

Lemma polled_poll_log (vs : list Z) : polled (poll_log vs) = map to_size vs.
Proof.
  induction vs as [|v vs IH]; simpl; [reflexivity|]. now rewrite IH.
Qed.

Section SpoolRuns.
Context {D : Type} (plotter : device D).

(** One round of the spooling loop when the answers that release its chunk
    are pending. *)
Lemma spool_round (fuel : nat) (c : Z) (input : FILE) (w : world D)
    (waits : list Z) (v : Z) (rest : list Z) :
  feof input = false ->
  malloc c = true ->
  answers (rx w) (waits ++ v :: rest) = true ->
  Forall (fun i => to_size i <= Z.of_nat (length (fst (fread c input)))) waits ->
  Z.of_nat (length (fst (fread c input))) < to_size v ->
  (length waits < fuel)%nat ->
  exists w1,
    spool plotter (S fuel) c input w
    = spool plotter fuel c (snd (fread c input)) w1
    /\ trace w1
       = trace w ++ EvFread c (fst (fread c input))
           :: poll_log (waits ++ [v]) ++ [EvData (fst (fread c input))]
    /\ answers (rx w1) rest = true.
Proof.
  intros Heof Hmem Hans Hw Hv Hfuel.
  rewrite spool_unfold by assumption.
  set (buf := fst (fread c input)) in *.
  set (w0 := World (dev w) (rx w) (trace w ++ [EvFread c buf])).
  destruct (poll_release plotter waits v rest (Z.of_nat (length buf)) 0
              fuel w0) as (w' & Hpoll & Htr & Hans'); try assumption; [lia|].
  rewrite (bind_Ret _ _ _ _ _ Hpoll).
  unfold write. rewrite bind_act.
  eexists. split; [reflexivity|]. split.
  - rewrite trace_after, Htr. unfold w0. simpl.
    now rewrite <- !app_assoc.
  - rewrite rx_after. now apply answers_app.
Qed.

(** The last round: fewer than [c] bytes are left, [fread] sets the
    end-of-file indicator, and the loop ends after the [write]. *)
Lemma spool_last (c : Z) (data : list Z) (vs : list Z) (fuel : nat)
    (w : world D) :
  (length data < Z.to_nat c)%nat ->
  malloc c = true ->
  answers (rx w) vs = true ->
  serves vs [Z.of_nat (length data)] = true ->
  (length vs < fuel)%nat ->
  exists w' evs,
    spool plotter fuel c (File data false) w = Ret (File [] true) w'
    /\ trace w' = trace w ++ evs
    /\ data_of evs = [data]
    /\ spool_shape c evs.
Proof.
  intros Hlt Hmem Hans Hserves Hfuel.
  destruct fuel as [|fuel]; [lia|].
  apply serves_split in Hserves as (waits & v & rest & -> & Hw & Hv & _).
  assert (Hfr : fread c (File data false) = (data, File [] true)).
  { unfold fread. simpl.
    rewrite take_ge, drop_ge by lia.
    destruct (Nat.ltb_spec (length data) (Z.to_nat c)); [reflexivity | lia]. }
  rewrite length_app in Hfuel. simpl in Hfuel.
  destruct (spool_round fuel c (File data false) w waits v rest)
    as (w1 & -> & Htr & _); try reflexivity; try assumption;
    rewrite ?Hfr; simpl; try assumption; [lia|].
  rewrite Hfr in *. simpl in *.
  rewrite spool_eof by reflexivity.
  eexists _, _. split; [reflexivity|]. split; [exact Htr|].
  split.
  - simpl. now rewrite data_of_app, data_of_poll_log.
  - change (spool_shape c (EvFread c data :: poll_log (waits ++ [v])
                             ++ EvData data :: [])).
    apply shape_round; simpl; try assumption; try lia. constructor.
Qed.

(** With the answers that release every chunk of the input pending, the
    spooling loop ends and has written the chunks, in order. *)
Lemma spool_serves (k : nat) (c : Z) (data : list Z) (vs : list Z)
    (fuel : nat) (w : world D) :
  0 < c ->
  malloc c = true ->
  (length data <= k)%nat ->
  answers (rx w) vs = true ->
  serves vs (map (fun b => Z.of_nat (length b))
                 (chunks_aux k (Z.to_nat c) data)) = true ->
  (length vs + k < fuel)%nat ->
  exists w' evs,
    spool plotter fuel c (File data false) w = Ret (File [] true) w'
    /\ trace w' = trace w ++ evs
    /\ data_of evs = chunks_aux k (Z.to_nat c) data
    /\ spool_shape c evs.
Proof.
  intros Hc Hmem. revert data vs fuel w.
  induction k as [|k IH]; intros data vs fuel w Hk Hans Hserves Hfuel.
  - apply (spool_last c data vs); try assumption; [|lia].
    destruct data; simpl in *; lia.
  - destruct (Nat.lt_ge_cases (length data) (Z.to_nat c)) as [Hlt|Hge].
    + rewrite chunks_aux_short in * by assumption.
      apply (spool_last c data vs); try assumption. lia.
    + destruct fuel as [|fuel]; [lia|].
      rewrite chunks_aux_full in * by assumption. simpl in Hserves.
      apply serves_split in Hserves
        as (waits & v & rest & -> & Hw & Hv & Hserves).
      assert (Hfr : fread c (File data false)
                    = (take (Z.to_nat c) data,
                       File (drop (Z.to_nat c) data) false)).
      { unfold fread. simpl.
        destruct (Nat.ltb_spec (length data) (Z.to_nat c)); [lia | reflexivity]. }
      rewrite length_app in Hfuel. simpl in Hfuel.
      destruct (spool_round fuel c (File data false) w waits v rest)
        as (w1 & -> & Htr & Hans1); try reflexivity; try assumption;
        rewrite ?Hfr; simpl; try assumption; [lia|].
      rewrite Hfr in *. simpl in *.
      destruct (IH (drop (Z.to_nat c) data) rest fuel w1)
        as (w' & evs & Hrun & Htr' & Hdata & Hsh); try assumption.
      { rewrite length_drop. lia. }
      { lia. }
      exists w'. eexists. split; [exact Hrun|]. split.
      * rewrite Htr', Htr. rewrite <- app_assoc. reflexivity.
      * split.
        -- simpl. rewrite !data_of_app, data_of_poll_log. simpl.
           now rewrite Hdata.
        -- simpl. rewrite <- app_assoc. simpl.
           apply shape_round; try assumption.
           rewrite length_take. lia.
Qed.

(** Whatever the device does: when the spooling loop ends, it is at the end
    of the input and it has written the chunks of the input, in order. *)
Lemma spool_Ret_chunks (fuel k : nat) (c : Z) (data : list Z)
    (w w' : world D) (f' : FILE) :
  0 < c ->
  (length data <= k)%nat ->
  spool plotter fuel c (File data false) w = Ret f' w' ->
  f' = File [] true
  /\ exists evs,
       trace w' = trace w ++ evs
       /\ data_of evs = chunks_aux k (Z.to_nat c) data.
Proof.
  intros Hc. revert k data w w' f'.
  induction fuel as [|fuel IH]; intros k data w w' f' Hk Hrun; [discriminate|].
  destruct (malloc c) eqn:Hmem;
    [|rewrite spool_null in Hrun by (reflexivity || assumption);
      discriminate].
  rewrite spool_unfold in Hrun by (reflexivity || assumption).
  assert (Hfr : fread c (File data false)
                = if (length data <? Z.to_nat c)%nat
                  then (data, File [] true)
                  else (take (Z.to_nat c) data,
                        File (drop (Z.to_nat c) data) false)).
  { unfold fread. simpl.
    destruct (Nat.ltb_spec (length data) (Z.to_nat c)); [|reflexivity].
    now rewrite take_ge, drop_ge by lia. }
  rewrite Hfr in Hrun. clear Hfr.
  unfold bind at 1 in Hrun.
  match type of Hrun with
  | context [poll plotter fuel ?n 0 ?w1] =>
      destruct (poll plotter fuel n 0 w1) as [[] w2|why w2] eqn:Hpoll;
        [|discriminate]
  end.
  apply poll_Ret in Hpoll as (waits & v & Htr & _ & _); [|lia].
  unfold write in Hrun. rewrite bind_act in Hrun.
  destruct (Nat.ltb_spec (length data) (Z.to_nat c)) as [Hlt|Hge];
    cbn [fst snd trace] in *.
  - rewrite spool_eof in Hrun by reflexivity.
    inversion Hrun; subst. split; [reflexivity|].
    exists (EvFread c data :: poll_log (waits ++ [v]) ++ [EvData data]).
    split.
    + rewrite trace_after, Htr. now rewrite <- !app_assoc.
    + rewrite chunks_aux_short by assumption.
      simpl. now rewrite data_of_app, data_of_poll_log.
  - destruct k as [|k]; [lia|].
    apply IH with (k := k) in Hrun as (-> & evs & Htr' & Hdata);
      [|rewrite length_drop; lia].
    split; [reflexivity|].
    exists (EvFread c (take (Z.to_nat c) data) :: poll_log (waits ++ [v])
              ++ EvData (take (Z.to_nat c) data) :: evs).
    split.
    + rewrite Htr', trace_after, Htr. rewrite <- !app_assoc. reflexivity.
    + rewrite chunks_aux_full by assumption.
      simpl. rewrite data_of_app, data_of_poll_log. simpl.
      now rewrite Hdata.
Qed.

End SpoolRuns.

(** * The guard of every data write *)

Lemma no_data_polling (e : event) : polling e -> no_data e.
Proof. now destruct e. Qed.

Lemma no_data_setup (e : event) : setup e -> no_data e.
Proof. now destruct e. Qed.

(** Where a data write sits in a log that ends with the only one. *)
Lemma only_data_last (evs pre post : list event) (buf b : list Z) :
  Forall no_data evs ->
  evs ++ [EvData buf] = pre ++ EvData b :: post ->
  pre = evs /\ b = buf /\ post = [].
Proof.
  revert pre.
  induction evs as [|e evs IH]; intros pre Hevs Heq.
  - destruct pre as [|e' pre]; simpl in Heq.
    + inversion Heq; subst. now repeat split.
    + inversion Heq as [[He' Hrest]]. now destruct pre.
  - inversion Hevs as [|? ? He Hevs']; subst.
    destruct pre as [|e' pre]; simpl in Heq.
    + inversion Heq; subst. contradiction.
    + inversion Heq as [[He' Hrest]]; subst.
      destruct (IH pre Hevs' Hrest) as (-> & -> & ->). now repeat split.
Qed.

Lemma guarded_no_data (evs : list event) : Forall no_data evs -> guarded evs.
Proof.
  intros Hevs pre buf post ->.
  apply Forall_app in Hevs as [_ Hevs].
  inversion Hevs as [|? ? He _]; subst. contradiction.
Qed.

Lemma guarded_app (l1 l2 : list event) :
  guarded l1 -> guarded l2 -> guarded (l1 ++ l2).
Proof.
  intros H1 H2 pre buf post Heq.
  apply app_eq_app in Heq as [l [[-> Heq]|[-> ->]]].
  - destruct l as [|e l]; simpl in Heq.
    + destruct (H2 [] buf post) as (pre' & c & waits & v & Habs & _);
        [now rewrite <- Heq|].
      now destruct pre'.
    + inversion Heq; subst.
      apply (H1 pre buf l). reflexivity.
  - destruct (H2 l buf post eq_refl) as (pre' & c & waits & v & -> & Hv).
    exists (l1 ++ pre'), c, waits, v.
    split; [now rewrite <- app_assoc | assumption].
Qed.

Lemma guarded_round (c : Z) (buf : list Z) (waits : list Z) (v : Z) :
  Z.of_nat (length buf) < to_size v ->
  guarded (EvFread c buf :: poll_log (waits ++ [v]) ++ [EvData buf]).
Proof.
  intros Hv pre b post Heq.
  rewrite poll_log_app in Heq.
  change (EvFread c buf :: (poll_log waits ++ poll_log [v]) ++ [EvData buf])
    with ((EvFread c buf :: poll_log waits ++ poll_log [v]) ++ [EvData buf])
    in Heq.
  apply only_data_last in Heq as (-> & -> & _).
  - exists [], c, waits, v. rewrite poll_log_app.
    split; [reflexivity|]. split; [exact Hv|].
    intros Hpos. pose proof (to_size_le v Hpos). lia.
  - constructor; [exact I|].
    apply Forall_app. split;
      (eapply Forall_impl; [apply polling_poll_log | apply no_data_polling]).
Qed.

Lemma spool_shape_guarded (c : Z) (evs : list event) :
  spool_shape c evs -> guarded evs.
Proof.
  induction 1 as [|buf evs Hlen Hevs|buf waits v evs Hlen Hw Hv Hsh IH].
  - apply guarded_no_data. constructor.
  - apply guarded_no_data. constructor; [exact I|].
    eapply Forall_impl; [exact Hevs | apply no_data_polling].
  - replace (EvFread c buf :: poll_log (waits ++ [v]) ++ EvData buf :: evs)
      with ((EvFread c buf :: poll_log (waits ++ [v]) ++ [EvData buf]) ++ evs)
      by (simpl; now rewrite <- app_assoc).
    apply guarded_app; [now apply guarded_round | assumption].
Qed.

(** C2, as stated, fails: the answer is compared as the unsigned [buffree]
    holds it, so a negative answer is not below the size of the chunk but
    far above it.  Here the answer to the only poll is -1, and the chunk of
    1000 bytes is written right after it. *)
Lemma negative_answer_precedes_write :
  spool silent 2 2000 (fopen (replicate 1000 65))
    (boot tt (bytes_of "-1" ++ [DEVCOM_TERM]))
  = Ret (File [] true)
      (World tt []
         (EvFread 2000 (replicate 1000 65) :: poll_log [-1]
            ++ [EvData (replicate 1000 65)]))
  /\ -1 < Z.of_nat (length (replicate 1000 65)).
Proof. split; [vm_compute; reflexivity | simpl; lia]. Qed.

(** C2, amended.  For every device, input and amount of fuel, in verbose mode
    or not, the log of [main] is guarded: each chunk of [n] bytes is written
    right after a free-space query of the round that read it, and the answer
    to that query, converted to the unsigned [buffree], was above [n]; so an
    answer that is not negative was itself above [n], and at least [n].
    With a chunk of 50 bytes and the answers 10, 10 and 60 the loop polls
    three times and then writes; after two polls it is still waiting. *)
Theorem write_follows_sufficient_poll :
  (forall (D : Type) (plotter : device D) (verbose : bool) (fuel : nat)
          (input : list Z) (d : D) (pending : list Z),
      guarded (events (main plotter verbose fuel input (boot d pending))))
  /\ spool silent 4 64 (fopen (replicate 50 65))
       (boot tt (dec_field 10 ++ dec_field 10 ++ dec_field 60))
     = Ret (File [] true)
         (World tt []
            (EvFread 64 (replicate 50 65) :: poll_log [10; 10; 60]
               ++ [EvData (replicate 50 65)]))
  /\ poll silent 2 50 0 (boot tt (dec_field 10 ++ dec_field 10 ++ dec_field 60))
     = Stop OutOfFuel (World tt (dec_field 60) (poll_log [10; 10])).
Proof.
  split; [|split; vm_compute; reflexivity].
  intros D plotter verbose fuel input d pending.
  destruct (main_shape plotter verbose fuel input (boot d pending))
    as (pro & evs & epi & -> & Hpro & Hsh & Hepi).
  simpl. apply guarded_app; [|apply guarded_app].
  - apply guarded_no_data.
    eapply Forall_impl; [exact Hpro | apply no_data_setup].
  - eapply spool_shape_guarded, Hsh.
  - apply guarded_no_data. destruct Hepi as [->| ->]; repeat constructor.
Qed.

(** * The release condition of the polling loop *)

(** C3, as stated, fails: a free-space answer equal to the size of the chunk
    does not release it.  With a chunk of 50 bytes and the answers 50 and 60,
    the loop is still polling after the first answer and ends after the
    second. *)
Lemma poll_equal_answer_keeps_waiting :
  poll silent 1 50 0 (boot tt (dec_field 50 ++ dec_field 60))
  = Stop OutOfFuel (World tt (dec_field 60) (poll_log [50]))
  /\ poll silent 2 50 0 (boot tt (dec_field 50 ++ dec_field 60))
     = Ret tt (World tt [] (poll_log [50; 60])).
Proof. split; vm_compute; reflexivity. Qed.

(** C3, amended.  For a chunk of [n] bytes the polling loop ends exactly when
    a free-space answer is above [n] for the first time.  Whenever the loop
    ends it has polled answers at most [n] and then one above [n]; and when
    such answers are pending (answers [waits], all at most [n], then [v]
    above [n]) the loop ends after [length waits + 1] polls. *)
Theorem poll_releases_above (D : Type) (plotter : device D) (n : Z)
    (fuel : nat) (w : world D) :
  0 <= n ->
  (forall w',
      poll plotter fuel n 0 w = Ret tt w' ->
      exists waits v,
        trace w' = trace w ++ poll_log (waits ++ [v])
        /\ Forall (fun i => to_size i <= n) waits
        /\ n < to_size v)
  /\ (forall waits v,
        answers (rx w) (waits ++ [v]) = true ->
        Forall (fun i => to_size i <= n) waits ->
        n < to_size v ->
        (length waits < fuel)%nat ->
        exists w',
          poll plotter fuel n 0 w = Ret tt w'
          /\ trace w' = trace w ++ poll_log (waits ++ [v])).
Proof.
  intros Hn. split.
  - intros w' Hret. now apply (poll_Ret plotter fuel n 0 w w').
  - intros waits v Hans Hw Hv Hfuel.
    destruct (poll_release plotter waits v [] n 0 fuel w)
      as (w' & Hpoll & Htr & _); try assumption.
    now exists w'.
Qed.

Lemma poll_releases_above_witness :
  exists w',
    poll silent 3 50 0 (boot tt (dec_field 10 ++ dec_field 50 ++ dec_field 51))
    = Ret tt w'
    /\ trace w' = [] ++ poll_log ([10; 50] ++ [51]).
Proof.
  apply (proj2 (poll_releases_above unit silent 50 3
                  (boot tt (dec_field 10 ++ dec_field 50 ++ dec_field 51))
                  ltac:(lia)) [10; 50] 51).
  - reflexivity.
  - repeat constructor; vm_compute; discriminate.
  - reflexivity.
  - simpl. lia.
Defined.

(** * The data phase *)

(** With a chunk size of 0, [fread] reads nothing and never sets the
    end-of-file indicator: the loop cannot end. *)
Lemma spool_zero_never_returns (D : Type) (plotter : device D) (fuel : nat)
    (data : list Z) (w : world D) :
  returns (spool plotter fuel 0 (fopen data) w) = false.
Proof.
  revert w. induction fuel as [|fuel IH]; intros w; [reflexivity|].
  rewrite spool_unfold by reflexivity.
  change (fread 0 (fopen data)) with ([] : list Z, File (drop 0 data) false).
  rewrite drop_0. simpl fst. simpl snd.
  unfold bind at 1.
  match goal with
  | |- context [poll plotter fuel ?n 0 ?w1] =>
      destruct (poll plotter fuel n 0 w1) as [[] w2|why w2]; [|reflexivity]
  end.
  unfold write. rewrite bind_act. apply IH.
Qed.

(** A chunk size of 0 (what a device capacity of 0 or 1 gives): here every
    free-space poll is answered 9, above any chunk, yet the loop never ends
    and the one byte of the input is never written; after two rounds it has
    written two empty chunks and starts a third round. *)
Lemma spool_chunk_size_zero_writes_nothing :
  ~ (exists fuel f w',
        spool (fixed_answers 1 9) fuel 0 (fopen [65]) (boot tt []) = Ret f w')
  /\ events (spool (fixed_answers 1 9) 3 0 (fopen [65]) (boot tt []))
     = [EvFread 0 []] ++ poll_log [9] ++ [EvData []]
       ++ [EvFread 0 []] ++ poll_log [9] ++ [EvData []]
       ++ [EvFread 0 []].
Proof.
  split; [|vm_compute; reflexivity].
  intros (fuel & f & w' & H).
  pose proof (spool_zero_never_returns unit (fixed_answers 1 9) fuel [65]
                (boot tt [])) as Hnever.
  rewrite H in Hnever. discriminate.
Qed.

(** X21.  The data phase where it has chunks to work with: for a chunk size
    of at least 1.  Whatever the device does, when the spooling loop ends it
    has written the whole input in chunks.  And it does end when [malloc]
    returned the buffer and the answers [vs] are pending on the line and
    release every chunk of the input in turn (for each chunk, first answers
    at most its size, then one above it). *)
Theorem spool_writes_whole_input (D : Type) (plotter : device D)
    (chunksize : Z) (input : list Z) (w : world D) :
  0 < chunksize ->
  (forall fuel f' w',
      spool plotter fuel chunksize (fopen input) w = Ret f' w' ->
      f' = File [] true
      /\ exists evs, trace w' = trace w ++ evs
                      /\ in_chunks chunksize input (data_of evs))
  /\ (forall vs fuel,
        malloc chunksize = true ->
        answers (rx w) vs = true ->
        serves vs (map (fun b => Z.of_nat (length b))
                       (chunks (Z.to_nat chunksize) input)) = true ->
        (length vs + length input < fuel)%nat ->
        exists w',
          spool plotter fuel chunksize (fopen input) w = Ret (File [] true) w').
Proof.
  intros Hc. split.
  - intros fuel f' w' Hrun.
    apply (spool_Ret_chunks plotter fuel (length input)) in Hrun
      as (-> & evs & Htr & Hdata); [|assumption|lia].
    split; [reflexivity|]. exists evs. split; [assumption|].
    destruct (chunks_aux_sizes (length input) (Z.to_nat chunksize) input)
      as (full & last & Hsplit & Hfull & Hlast); [lia | lia |].
    exists full, last. rewrite Hdata, concat_chunks_aux.
    repeat split; try assumption; try reflexivity.
    + eapply Forall_impl; [exact Hfull|]. simpl. intros b Hb. lia.
    + lia.
  - intros vs fuel Hmem Hans Hserves Hfuel.
    destruct (spool_serves plotter (length input) chunksize input vs fuel w)
      as (w' & evs & Hrun & _); try assumption; [lia|].
    now exists w'.
Qed.

Lemma spool_writes_whole_input_witness :
  exists w' evs,
    spool silent 10 2 (fopen (bytes_of "hello"))
      (boot tt (dec_field 3 ++ dec_field 2 ++ dec_field 7 ++ dec_field 2))
    = Ret (File [] true) w'
    /\ trace w' = [] ++ evs
    /\ in_chunks 2 (bytes_of "hello") (data_of evs).
Proof.
  destruct (spool_writes_whole_input unit silent 2 (bytes_of "hello")
              (boot tt (dec_field 3 ++ dec_field 2 ++ dec_field 7 ++ dec_field 2))
              ltac:(lia)) as [Hdone Hruns].
  destruct (Hruns [3; 2; 7; 2] 10%nat) as [w' Hrun].
  - reflexivity.
  - reflexivity.
  - reflexivity.
  - simpl. lia.
  - destruct (Hdone _ _ _ Hrun) as (_ & evs & Htr & Hchunks).
    exists w', evs. repeat split; assumption.
Defined.

(** * The chunk size *)

Lemma within_polling (c : Z) (e : event) : polling e -> within c e.
Proof. now destruct e. Qed.


Lemma spool_shape_within (c : Z) (evs : list event) :
  spool_shape c evs -> Forall (within c) evs.
Proof.
  induction 1 as [|buf evs Hlen Hevs|buf waits v evs Hlen Hw Hv Hsh IH].
  - constructor.
  - constructor; [reflexivity|].
    eapply Forall_impl; [exact Hevs | apply within_polling].
  - constructor; [reflexivity|].
    apply Forall_app. split.
    + eapply Forall_impl; [apply polling_poll_log | apply within_polling].
    + constructor; assumption.
Qed.

Lemma data_of_no_data (evs : list event) :
  Forall no_data evs -> data_of evs = [].
Proof.
  induction 1 as [|e evs He _ IH]; [reflexivity|].
  destruct e; simpl in *; try assumption. contradiction.
Qed.

(** With a chunk size of 0 every [write] is a write of no bytes. *)
Lemma within_zero_no_data (evs : list event) :
  Forall (within 0) evs -> concat (data_of evs) = [].
Proof.
  induction 1 as [|e evs He _ IH]; [reflexivity|].
  destruct e; simpl in *; try assumption.
  destruct buf; [assumption | simpl in He; lia].
Qed.

(** C1 on the code.  The data phase writes the input only where it has
    chunks to work with.  When the prologue gives a chunk size of 0 (a
    capacity of 0 or 1, the defect of C6), or a chunk size for which
    [malloc] returns [NULL] (a negative capacity; line 253 does not look at
    the result), then for every device, whatever it answers to the
    free-space queries, [main] does not return and no byte of the input is
    written. *)
Theorem data_phase_without_chunks (D : Type) (plotter : device D)
    (verbose : bool) (fuel : nat) (input : list Z) (w w1 : world D) (c : Z) :
  prologue plotter verbose w = Ret c w1 ->
  c = 0 \/ malloc c = false ->
  returns (main plotter verbose fuel input w) = false
  /\ exists evs,
       events (main plotter verbose fuel input w) = trace w ++ evs
       /\ concat (data_of evs) = [].
Proof.
  intros Hpro Hcase.
  rewrite (main_unfold plotter verbose fuel input w w1 c Hpro).
  destruct (prologue_Ret plotter verbose w w1 c Hpro)
    as (C & w0 & pro & _ & _ & Htr1 & Hsetup).
  assert (Hprodata : data_of pro = []).
  { apply data_of_no_data.
    eapply Forall_impl; [exact Hsetup | apply no_data_setup]. }
  destruct Hcase as [Hzero|Hmem].
  - subst c.
    pose proof (spool_zero_never_returns D plotter fuel input w1) as Hnever.
    destruct (spool_has_shape plotter fuel 0 (fopen input) w1 ltac:(lia))
      as (evs & Hev & Hsh).
    apply spool_shape_within in Hsh.
    unfold events in Hev.
    destruct (spool plotter fuel 0 (fopen input) w1) as [f' w2|why w2];
      [discriminate Hnever|].
    split; [reflexivity|]. exists (pro ++ evs). split.
    + unfold events. simpl in *. rewrite Hev, Htr1.
      now rewrite <- app_assoc.
    + rewrite data_of_app, Hprodata. simpl.
      now apply within_zero_no_data.
  - assert (Hstop : exists why,
               spool plotter fuel c (fopen input) w1 = Stop why w1).
    { destruct fuel as [|fuel]; [now exists OutOfFuel|].
      exists NullBuffer. now apply spool_null. }
    destruct Hstop as [why ->].
    split; [reflexivity|]. exists pro. split.
    + exact Htr1.
    + now rewrite Hprodata.
Qed.

Lemma data_phase_without_chunks_witness :
  (returns (main (fixed_answers 1 9) false 10 [65] (boot tt [])) = false
   /\ exists evs,
        events (main (fixed_answers 1 9) false 10 [65] (boot tt []))
        = trace (boot tt []) ++ evs
        /\ concat (data_of evs) = [])
  /\ (returns (main silent false 10 [65] (boot tt (field "-1"))) = false
      /\ exists evs,
           events (main silent false 10 [65] (boot tt (field "-1")))
           = trace (boot tt (field "-1")) ++ evs
           /\ concat (data_of evs) = []).
Proof.
  split.
  - eapply (data_phase_without_chunks unit (fixed_answers 1 9) false 10 [65]
              (boot tt []) _ 0).
    + lazy. reflexivity.
    + left. reflexivity.
  - eapply (data_phase_without_chunks unit silent false 10 [65]
              (boot tt (field "-1")) _ (2 ^ 63 - 1)).
    + lazy. reflexivity.
    + right. reflexivity.
Defined.



(** * A capacity of 0 or 1 *)

(** C6 on the code: when the device reports a capacity of 0 or 1, the chunk
    size is 0 and [main] enters the loop all the same; no amount of fuel
    lets it return, and nothing rejects the capacity. *)
Theorem capacity_below_two_never_ends (D : Type) (plotter : device D)
    (verbose : bool) (fuel : nat) (input : list Z) (w w0 : world D) (C : Z) :
  plotter_init plotter w = Ret C w0 ->
  C = 0 \/ C = 1 ->
  returns (main plotter verbose fuel input w) = false.
Proof.
  intros Hinit HC.
  destruct (prologue plotter verbose w) as [c w1|why w1] eqn:Hpro.
  - rewrite (main_unfold _ _ _ _ _ _ _ Hpro).
    apply prologue_Ret in Hpro as (C' & w0' & pro & Hinit' & -> & _).
    rewrite Hinit in Hinit'. inversion Hinit'; subst C' w0'.
    assert (Hzero : to_size C / 2 = 0) by (destruct HC as [->| ->]; reflexivity).
    rewrite Hzero.
    pose proof (spool_zero_never_returns D plotter fuel input w1) as Hnever.
    now destruct (spool plotter fuel 0 (fopen input) w1).
  - unfold main. now rewrite (bind_Stop _ _ _ _ _ Hpro).
Qed.

Lemma capacity_below_two_never_ends_witness :
  returns (main (fixed_answers 1 9) false 1000 [65] (boot tt [])) = false.
Proof.
  apply (capacity_below_two_never_ends unit (fixed_answers 1 9) false 1000 [65]
           (boot tt [])
           (World tt [] [EvCmd CMD_ON; EvCmd CMD_RESET; EvCmd CMD_BUFSIZE;
                         EvDec 1])
           1).
  - reflexivity.
  - now right.
Defined.

(** * Whose answer a poll reads *)

Lemma outstanding_app (l1 l2 : list event) :
  outstanding (l1 ++ l2) = outstanding l1 + outstanding l2.
Proof.
  induction l1 as [|e l1 IH]; simpl; [reflexivity|]. rewrite IH. lia.
Qed.

Lemma reads_at_app (k o : Z) (l1 l2 : list event) :
  reads_at k o l1 ->
  reads_at k (o + outstanding l1) l2 ->
  reads_at k o (l1 ++ l2).
Proof.
  revert o. induction l1 as [|e l1 IH]; intros o H1 H2; simpl in *.
  - now rewrite Z.add_0_r in H2.
  - destruct H1 as [He H1]. split; [assumption|].
    apply IH; [assumption|].
    now replace (o + step e + outstanding l1)
      with (o + (step e + outstanding l1)) by lia.
Qed.

(** What [reads_at] says of one read of the log. *)
Lemma reads_at_split (k o : Z) (evs pre post : list event) (v : Z) :
  reads_at k o evs ->
  evs = pre ++ EvDec v :: post ->
  o + outstanding pre = k.
Proof.
  intros H ->. revert o H.
  induction pre as [|e pre IH]; intros o H; simpl in *.
  - destruct H as [H _]. rewrite Z.add_0_r. now apply H.
  - destruct H as [_ H]. apply IH in H. lia.
Qed.

Section Lag.
Context {D : Type} (plotter : device D).

(** The polling loop reads each answer with one query outstanding more than
    when it was entered, and leaves as many outstanding as it found. *)
Lemma poll_lag (fuel : nat) (n b : Z) (w : world D) :
  exists evs,
    events (poll plotter fuel n b w) = trace w ++ evs
    /\ reads_at 1 0 evs
    /\ (returns (poll plotter fuel n b w) = true -> outstanding evs = 0).
Proof.
  revert b w. induction fuel as [|fuel IH]; intros b w.
  - exists []. rewrite app_nil_r. simpl.
    destruct (b <=? n); repeat split; reflexivity.
  - destruct (Z.le_gt_cases b n) as [Hb|Hb].
    + rewrite poll_unfold by assumption. unfold bind.
      match goal with
      | |- context [read_dec ?w2] =>
          destruct (read_dec w2) as [v w3|why w3] eqn:Hrd
      end.
      * apply read_dec_Ret in Hrd as (_ & Htr & _).
        rewrite !trace_after in Htr.
        destruct (IH (to_size v) w3) as (evs & Hev & Hreads & Hout).
        exists ([EvSleep QUERY_DELAY; EvCmd CMD_FREE; EvDec v] ++ evs).
        split; [|split].
        -- rewrite Hev, Htr. now rewrite <- !app_assoc.
        -- apply reads_at_app; [|exact Hreads].
           cbv. repeat split; intros; first [discriminate | reflexivity].
        -- intros Hret. rewrite outstanding_app, (Hout Hret). reflexivity.
      * apply read_dec_Stop in Hrd as [-> _].
        exists [EvSleep QUERY_DELAY; EvCmd CMD_FREE].
        split; [|split].
        -- unfold events. simpl. now rewrite <- !app_assoc.
        -- cbv. repeat split; intros; discriminate.
        -- discriminate.
    + rewrite poll_exit by assumption.
      exists []. rewrite app_nil_r. repeat split; reflexivity.
Qed.

(** So does the spooling loop. *)
Lemma spool_lag (fuel : nat) (c : Z) (input : FILE) (w : world D) :
  exists evs,
    events (spool plotter fuel c input w) = trace w ++ evs
    /\ reads_at 1 0 evs
    /\ (returns (spool plotter fuel c input w) = true -> outstanding evs = 0).
Proof.
  revert input w. induction fuel as [|fuel IH]; intros input w.
  - exists []. rewrite app_nil_r. simpl.
    destruct (feof input); repeat split; reflexivity.
  - destruct (feof input) eqn:Heof.
    + rewrite spool_eof by assumption.
      exists []. rewrite app_nil_r. repeat split; reflexivity.
    + destruct (malloc c) eqn:Hmem;
        [|rewrite spool_null by assumption; exists []; rewrite app_nil_r;
          repeat split; try reflexivity; discriminate].
      pose proof (spool_unfold plotter fuel c input w Heof Hmem) as Hun.
      set (buf := fst (fread c input)) in *.
      set (w0 := World (dev w) (rx w) (trace w ++ [EvFread c buf])) in *.
      destruct (poll_lag fuel (Z.of_nat (length buf)) 0 w0)
        as (evs & Hev & Hreads & Hout).
      unfold bind at 1 in Hun.
      destruct (poll plotter fuel (Z.of_nat (length buf)) 0 w0)
        as [[] w2|why w2].
      * unfold write in Hun. rewrite bind_act in Hun. rewrite Hun.
        destruct (IH (snd (fread c input))
                    (after plotter (Sent buf) (EvData buf) w2))
          as (evs' & Hev' & Hreads' & Hout').
        unfold events in Hev. simpl in Hev.
        exists ([EvFread c buf] ++ evs ++ [EvData buf] ++ evs').
        split; [|split].
        -- rewrite Hev', trace_after, Hev. now rewrite <- !app_assoc.
        -- apply reads_at_app; [simpl; split; [discriminate | exact I]|].
           apply reads_at_app; [exact Hreads|].
           rewrite (Hout eq_refl).
           apply reads_at_app; [simpl; split; [discriminate | exact I]|].
           exact Hreads'.
        -- intros Hret. rewrite !outstanding_app, (Hout eq_refl), (Hout' Hret).
           reflexivity.
      * rewrite Hun. unfold events in *. simpl in *.
        exists ([EvFread c buf] ++ evs).
        split; [|split].
        -- rewrite Hev. now rewrite <- !app_assoc.
        -- apply reads_at_app; [simpl; split; [discriminate | exact I]|].
           exact Hreads.
        -- discriminate.
Qed.

(** The prologue sends three queries for a DEC field and reads one answer. *)
Lemma prologue_outstanding (verbose : bool) (w w1 : world D) (c : Z) :
  prologue plotter verbose w = Ret c w1 ->
  outstanding (trace w1) = outstanding (trace w) + 2.
Proof.
  intros Hpro.
  destruct (plotter_init plotter w) as [C w0|why w0] eqn:Hinit.
  - rewrite (prologue_unfold _ _ _ _ _ Hinit) in Hpro.
    apply plotter_init_Ret in Hinit as [Htr0 _].
    destruct verbose; simpl in Hpro.
    + unfold serial_write in Hpro. rewrite bind_act in Hpro.
      unfold bind in Hpro.
      match type of Hpro with
      | context [read_asc ?w2] =>
          destruct (read_asc w2) as [s w3|why w3] eqn:Hrd; [|discriminate]
      end.
      apply read_asc_Ret in Hrd. rewrite trace_after in Hrd.
      inversion Hpro; subst. rewrite !trace_after, Hrd, Htr0.
      rewrite !outstanding_app.
      change (outstanding [EvCmd CMD_ON; EvCmd CMD_RESET; EvCmd CMD_BUFSIZE;
                           EvDec C]) with 0.
      change (outstanding [EvCmd CMD_IDENT]) with 0.
      change (outstanding [EvAsc s]) with 0.
      change (outstanding [EvCmd CMD_BUFSIZE]) with 1.
      change (outstanding [EvCmd CMD_BEGIN]) with 0.
      lia.
    + inversion Hpro; subst. rewrite !trace_after, Htr0.
      rewrite !outstanding_app.
      change (outstanding [EvCmd CMD_ON; EvCmd CMD_RESET; EvCmd CMD_BUFSIZE;
                           EvDec C]) with 0.
      change (outstanding [EvCmd CMD_BUFSIZE]) with 1.
      change (outstanding [EvCmd CMD_BEGIN]) with 0.
      lia.
  - unfold prologue in Hpro.
    rewrite (bind_Stop _ _ _ _ _ Hinit) in Hpro. discriminate.
Qed.

End Lag.

(** C7 on the code.  Count the queries for a DEC field that were sent and
    whose answers were not read yet.  For every device, the prologue leaves
    two more outstanding than it found (lines 245-246 send two buffer-size
    queries and read neither answer), and the loop reads each answer with one
    more outstanding than at its start, the free-space query it just sent:
    so with three outstanding, and the answer it reads is the answer to the
    query sent two queries before the last.  A busy plotter with a buffer of
    100 bytes answers the free-space queries of the four rounds with 100, 50,
    0 and 0; the loop acts on 100, 100, 100 and 50 (the first two are the
    answers to lines 245-246), writes all 150 bytes of the input into the
    100-byte buffer, and leaves the last two answers unread.  With a device
    that numbers its answers (101 for the first query, 102 for the second,
    and so on) the free-space queries of the three rounds are the queries
    number 4, 5 and 6, and the loop reads the answers number 2, 3 and 4; the
    answers number 5 and 6 are never read. *)
Theorem poll_reads_stale_answer :
  (forall (D : Type) (plotter : device D) (verbose : bool) (w w1 : world D)
          (c : Z),
      prologue plotter verbose w = Ret c w1 ->
      outstanding (trace w1) = outstanding (trace w) + 2)
  /\ (forall (D : Type) (plotter : device D) (fuel : nat) (c : Z)
             (input : FILE) (w : world D) pre v post,
        events (spool plotter fuel c input w) = trace w ++ pre ++ EvDec v :: post ->
        outstanding pre = 1)
  /\ let r := main (busy_plotter 100) false 10 (replicate 150 65) (boot 0 []) in
     let r' := main (numbering 100) false 10 (replicate 120 65) (boot 0 []) in
     returns r = true
     /\ polled (events r) = [100; 100; 100; 100; 50]
     /\ data_of (events r)
        = [replicate 50 65; replicate 50 65; replicate 50 65; []]
     /\ dev (world_of r) = 150
     /\ rx (world_of r) = dec_field 0 ++ dec_field 0
     /\ events r'
        = [EvCmd CMD_ON; EvCmd CMD_RESET; EvCmd CMD_BUFSIZE; EvDec 101;
           EvCmd CMD_BUFSIZE; EvCmd CMD_BUFSIZE; EvCmd CMD_BEGIN;
           EvFread 50 (replicate 50 65);
           EvSleep QUERY_DELAY; EvCmd CMD_FREE; EvDec 102;
           EvData (replicate 50 65);
           EvFread 50 (replicate 50 65);
           EvSleep QUERY_DELAY; EvCmd CMD_FREE; EvDec 103;
           EvData (replicate 50 65);
           EvFread 50 (replicate 20 65);
           EvSleep QUERY_DELAY; EvCmd CMD_FREE; EvDec 104;
           EvData (replicate 20 65);
           EvCmd CMD_OFF]
     /\ rx (world_of r') = dec_field 105 ++ dec_field 106.
Proof.
  split; [|split].
  - intros D plotter verbose w w1 c. apply prologue_outstanding.
  - intros D plotter fuel c input w pre v post Hev.
    destruct (spool_lag plotter fuel c input w) as (evs & Hev' & Hreads & _).
    rewrite Hev in Hev'. apply app_inv_head in Hev'.
    pose proof (reads_at_split 1 0 evs pre post v Hreads (eq_sym Hev')).
    lia.
  - vm_compute. repeat split; reflexivity.
Qed.

Lemma poll_reads_stale_answer_witness :
  outstanding
    [EvCmd CMD_ON; EvCmd CMD_RESET; EvCmd CMD_BUFSIZE; EvDec 100;
     EvCmd CMD_BUFSIZE; EvCmd CMD_BUFSIZE; EvCmd CMD_BEGIN]
  = outstanding [] + 2
  /\ outstanding
       ([EvFread 50 (replicate 50 65)] ++ poll_log [100]
        ++ [EvData (replicate 50 65); EvFread 50 (replicate 10 65);
            EvSleep QUERY_DELAY; EvCmd CMD_FREE])
     = 1.
Proof.
  split.
  - apply (proj1 poll_reads_stale_answer Z (busy_plotter 100) false
             (boot 0 [])
             (World 0 (dec_field 100 ++ dec_field 100)
                [EvCmd CMD_ON; EvCmd CMD_RESET; EvCmd CMD_BUFSIZE; EvDec 100;
                 EvCmd CMD_BUFSIZE; EvCmd CMD_BUFSIZE; EvCmd CMD_BEGIN])
             50).
    reflexivity.
  - apply (proj1 (proj2 poll_reads_stale_answer) Z (busy_plotter 100) 3%nat 50
             (fopen (replicate 60 65))
             (World 0 (dec_field 100 ++ dec_field 100) [])
             ([EvFread 50 (replicate 50 65)] ++ poll_log [100]
              ++ [EvData (replicate 50 65); EvFread 50 (replicate 10 65);
                  EvSleep QUERY_DELAY; EvCmd CMD_FREE])
             100
             [EvData (replicate 10 65)]).
    vm_compute. reflexivity.
Defined.

(** * An empty input *)

(** C8, as stated, fails: on an input of 0 bytes the [fread] that returns 0
    does not end the loop at once.  The round goes on: the loop sends
    free-space queries until an answer is above 0 (here the answers are 0,
    then 7), and then calls [write] with 0 bytes; only then does the loop end
    and the plotter-off command go out. *)
Lemma empty_input_still_polls_and_writes :
  main silent false 5 [] (boot tt (dec_field 100 ++ dec_field 0 ++ dec_field 7))
  = Ret tt
      (World tt []
         ([EvCmd CMD_ON; EvCmd CMD_RESET; EvCmd CMD_BUFSIZE; EvDec 100;
           EvCmd CMD_BUFSIZE; EvCmd CMD_BUFSIZE; EvCmd CMD_BEGIN;
           EvFread 50 []]
          ++ poll_log [0; 7]
          ++ [EvData []; EvCmd CMD_OFF])).
Proof. vm_compute. reflexivity. Qed.

(** With a negative capacity the buffer is [NULL] (see [malloc]), and the
    run on an input of 0 bytes does not get past its first [fread]: it sends
    no plotter-off command. *)
Lemma empty_input_without_buffer :
  main silent false 5 [] (boot tt (bytes_of "-1" ++ [DEVCOM_TERM] ++ dec_field 7))
  = Stop NullBuffer
      (World tt (dec_field 7)
         [EvCmd CMD_ON; EvCmd CMD_RESET; EvCmd CMD_BUFSIZE; EvDec (-1);
          EvCmd CMD_BUFSIZE; EvCmd CMD_BUFSIZE; EvCmd CMD_BEGIN]).
Proof. vm_compute. reflexivity. Qed.

(** C8, amended.  On an input of 0 bytes and with a chunk size of at least 1
    for which [malloc] returned the buffer (so with every capacity from 2 to
    [INT_MAX]), the loop runs one round: [fread] returns 0 bytes, the loop
    polls until an answer is above 0 (at least once), and calls [write] with
    0 bytes, so no data byte goes to the serial line; then the loop ends and
    the plotter-off command is sent.  This needs answers on the line that end
    the polling: [waits], all 0, then [v] above 0. *)
Theorem empty_input_one_empty_round (D : Type) (plotter : device D)
    (verbose : bool) (fuel : nat) (w w1 : world D) (c : Z)
    (waits : list Z) (v : Z) :
  prologue plotter verbose w = Ret c w1 ->
  0 < c ->
  malloc c = true ->
  answers (rx w1) (waits ++ [v]) = true ->
  Forall (fun i => to_size i <= 0) waits ->
  0 < to_size v ->
  (length waits + 1 < fuel)%nat ->
  exists w',
    main plotter verbose fuel [] w = Ret tt w'
    /\ trace w'
       = trace w1 ++ EvFread c [] :: poll_log (waits ++ [v])
           ++ [EvData []; EvCmd CMD_OFF]
    /\ concat (data_of (EvFread c [] :: poll_log (waits ++ [v])
                          ++ [EvData []; EvCmd CMD_OFF])) = [].
Proof.
  intros Hpro Hc Hmem Hans Hw Hv Hfuel.
  rewrite (main_unfold _ _ _ _ _ _ _ Hpro).
  destruct fuel as [|fuel]; [lia|].
  assert (Hfr : fread c (fopen []) = ([], File [] true)).
  { unfold fread, fopen. simpl. rewrite take_nil, drop_nil.
    destruct (Nat.ltb_spec 0 (Z.to_nat c)); [reflexivity | lia]. }
  destruct (spool_round plotter fuel c (fopen []) w1 waits v [])
    as (w2 & -> & Htr & _); try reflexivity; rewrite ?Hfr; simpl;
    try assumption; [lia|].
  rewrite Hfr in *. simpl in *.
  rewrite spool_eof by reflexivity.
  eexists. split; [reflexivity|]. split.
  - rewrite trace_after, Htr. rewrite <- !app_assoc. simpl.
    now rewrite <- !app_assoc.
  - simpl. rewrite data_of_app, data_of_poll_log. reflexivity.
Qed.

Lemma empty_input_one_empty_round_witness :
  exists w',
    main (busy_plotter 100) true 5 [] (boot 0 []) = Ret tt w'
    /\ trace w'
       = [EvCmd CMD_ON; EvCmd CMD_RESET; EvCmd CMD_BUFSIZE; EvDec 100;
          EvCmd CMD_IDENT; EvAsc (bytes_of "7550A");
          EvCmd CMD_BUFSIZE; EvCmd CMD_BUFSIZE; EvCmd CMD_BEGIN]
         ++ EvFread 50 [] :: poll_log ([] ++ [100])
         ++ [EvData []; EvCmd CMD_OFF]
    /\ concat (data_of (EvFread 50 [] :: poll_log ([] ++ [100])
                          ++ [EvData []; EvCmd CMD_OFF])) = [].
Proof.
  apply (empty_input_one_empty_round Z (busy_plotter 100) true 5 (boot 0 [])
           (World 0 (dec_field 100 ++ dec_field 100)
              [EvCmd CMD_ON; EvCmd CMD_RESET; EvCmd CMD_BUFSIZE; EvDec 100;
               EvCmd CMD_IDENT; EvAsc (bytes_of "7550A");
               EvCmd CMD_BUFSIZE; EvCmd CMD_BUFSIZE; EvCmd CMD_BEGIN])
           50 [] 100).
  - reflexivity.
  - lia.
  - reflexivity.
  - reflexivity.
  - constructor.
  - reflexivity.
  - simpl. lia.
Defined.

(** * Malformed numeric fields *)

(** C5, as stated, fails: [read_dec] has no error to report.  On the field
    [abc] it returns 0 like on the field [0], and the polling loop takes
    that 0 for the free space and polls again. *)
Lemma malformed_field_reads_as_zero :
  read_dec (boot tt (field "abc")) = Ret 0 (World tt [] [EvDec 0])
  /\ poll silent 2 50 0 (boot tt (field "abc" ++ dec_field 60))
     = Ret tt (World tt [] (poll_log [0; 60])).
Proof. split; vm_compute; reflexivity. Qed.

Lemma atoi_no_number (c : Z) (bs : list Z) :
  isdigit c = false -> isspace c = false -> c <> 43 -> c <> 45 ->
  atoi (c :: bs) = 0.
Proof.
  intros Hd Hs Hplus Hminus. unfold atoi, strtol.
  cbn [skip_space]. rewrite Hs.
  destruct (Z.eqb_spec c 45); [contradiction|].
  destruct (Z.eqb_spec c 43); [contradiction|].
  cbn [digits_val]. now rewrite Hd.
Qed.

(** C5, amended.  On a field of at most 63 bytes [read_dec] always returns a
    number, never an error: the number [atoi] reads at the start of the
    bytes, which is 0 when the field is empty or starts with a byte that is
    neither white space, a sign nor a digit.  A polling loop whose next
    answer is such a field takes the 0 as the free space: it goes into its
    next round as it went into its first, with [buffree = 0]. *)
Theorem malformed_field_is_a_number (D : Type) (plotter : device D)
    (w : world D) (bs rest : list Z) :
  rx w = bs ++ DEVCOM_TERM :: rest ->
  Forall (fun c => c <> DEVCOM_TERM) bs ->
  (length bs < READBUFSIZE)%nat ->
  read_dec w = Ret (atoi bs) (World (dev w) rest (trace w ++ [EvDec (atoi bs)]))
  /\ (bs = [] -> atoi bs = 0)
  /\ (forall c bs',
        bs = c :: bs' ->
        isdigit c = false -> isspace c = false -> c <> 43 -> c <> 45 ->
        atoi bs = 0)
  /\ (atoi bs = 0 ->
      forall n b fuel,
        b <= n ->
        exists w1,
          poll plotter (S fuel) n b w = poll plotter fuel n 0 w1
          /\ trace w1 = trace w ++ poll_log [0]).
Proof.
  intros Hrx Hbs Hlen.
  assert (Hgot : read_dec_bytes (rx w) = Got (atoi bs) rest).
  { rewrite Hrx. now apply read_dec_bytes_field. }
  split; [now apply read_dec_Got|].
  split; [now intros ->|].
  split.
  - intros c bs' -> Hd Hs Hplus Hminus. now apply atoi_no_number.
  - intros Hzero n b fuel Hb.
    destruct (poll_round plotter 0 [] n b fuel w Hb) as (w1 & Hpoll & Htr & _).
    { simpl. rewrite Hgot, Hzero. reflexivity. }
    exists w1. split; assumption.
Qed.

Lemma malformed_field_is_a_number_witness :
  read_dec (boot tt (field "abc" ++ dec_field 60))
  = Ret (atoi (bytes_of "abc"))
      (World tt (dec_field 60) ([] ++ [EvDec (atoi (bytes_of "abc"))]))
  /\ (bytes_of "abc" = [] -> atoi (bytes_of "abc") = 0)
  /\ (forall c bs',
        bytes_of "abc" = c :: bs' ->
        isdigit c = false -> isspace c = false -> c <> 43 -> c <> 45 ->
        atoi (bytes_of "abc") = 0)
  /\ (atoi (bytes_of "abc") = 0 ->
      forall n b fuel,
        b <= n ->
        exists w1,
          poll silent (S fuel) n b (boot tt (field "abc" ++ dec_field 60))
          = poll silent fuel n 0 w1
          /\ trace w1 = [] ++ poll_log [0]).
Proof.
  apply (malformed_field_is_a_number unit silent
           (boot tt (field "abc" ++ dec_field 60))
           (bytes_of "abc") (dec_field 60)).
  - reflexivity.
  - repeat constructor; vm_compute; discriminate.
  - vm_compute. lia.
Defined.

(** * Decoding what the device encodes *)

(** The digits of a decimal number are digits, and [atoi] reads its value. *)
Lemma uint_digits_isdigit (d : Decimal.uint) :
  Forall (fun c => isdigit c = true) (uint_digits d).
Proof.
  induction d; constructor; try reflexivity; assumption.
Qed.

Lemma digits_val_acc (d : Decimal.uint) (acc : positive) :
  digits_val (Z.pos acc) (uint_digits d) = Z.pos (Pos.of_uint_acc d acc).
Proof.
  revert acc. induction d; intros acc; [reflexivity| ..];
    cbn [uint_digits digits_val Pos.of_uint_acc];
    change (isdigit _) with true; cbv iota;
    rewrite <- IHd; f_equal; lia.
Qed.

Lemma digits_val_uint (d : Decimal.uint) :
  digits_val 0 (uint_digits d) = Z.of_N (Pos.of_uint d).
Proof.
  induction d; [reflexivity| ..];
    cbn [uint_digits digits_val Pos.of_uint];
    change (isdigit _) with true; cbv iota;
    [exact IHd | apply digits_val_acc ..].
Qed.

(** Every further digit multiplies the value by 10 at least. *)
Lemma of_uint_acc_lower (d : Decimal.uint) (acc : positive) :
  Z.pos acc * 10 ^ Z.of_nat (length (uint_digits d))
  <= Z.pos (Pos.of_uint_acc d acc).
Proof.
  revert acc. induction d; intros acc;
    [simpl; lia| ..];
    cbn [uint_digits length Pos.of_uint_acc];
    rewrite Nat2Z.inj_succ, Z.pow_succ_r by lia;
    (etransitivity; [|apply IHd]); nia.
Qed.

Lemma nzhead_not_D0 (d d' : Decimal.uint) : nzhead d <> D0 d'.
Proof. induction d; simpl; try discriminate. assumption. Qed.

(** The decimal digits of a positive number start with a digit that is not 0,
    so a number of [n] digits is at least [10 ^ (n - 1)]. *)
Lemma pos_digits_lower (p : positive) :
  10 ^ (Z.of_nat (length (uint_digits (Pos.to_uint p))) - 1) <= Z.pos p.
Proof.
  pose proof (DecimalPos.Unsigned.of_to p) as Hval.
  pose proof (DecimalPos.Unsigned.to_of (Pos.to_uint p)) as Hnorm.
  rewrite Hval in Hnorm. change (N.to_uint (N.pos p)) with (Pos.to_uint p) in Hnorm.
  pose proof (DecimalPos.Unsigned.to_uint_nonzero p) as Hnz.
  destruct (Pos.to_uint p) as [|l|l|l|l|l|l|l|l|l|l] eqn:Hd;
    [discriminate Hval| |
     cbn [Pos.of_uint] in Hval; injection Hval as <-;
     cbn [uint_digits length]; rewrite Nat2Z.inj_succ;
     replace (Z.succ (Z.of_nat (length (uint_digits l))) - 1)
       with (Z.of_nat (length (uint_digits l))) by lia;
     (etransitivity; [|apply of_uint_acc_lower]); lia ..].
  exfalso. unfold unorm in Hnorm. cbn [nzhead] in Hnorm.
  destruct (nzhead l) eqn:Hl; try discriminate Hnorm.
  - apply Hnz. exact Hnorm.
  - now apply (nzhead_not_D0 l u).
Qed.

(** The digits of an [int] fit the buffer. *)
Lemma uint_digits_length (n : N) :
  Z.of_N n <= INT_MAX ->
  (length (uint_digits (N.to_uint n)) < READBUFSIZE)%nat.
Proof.
  intros Hn. destruct n as [|p]; [simpl; unfold READBUFSIZE; lia|].
  change (N.to_uint (N.pos p)) with (Pos.to_uint p).
  pose proof (pos_digits_lower p) as Hlow.
  destruct (Nat.lt_ge_cases (length (uint_digits (Pos.to_uint p))) READBUFSIZE)
    as [Hlt|Hge]; [assumption|].
  exfalso.
  assert (H10 : 10 ^ 63 <= 10 ^ (Z.of_nat (length (uint_digits (Pos.to_uint p))) - 1)).
  { apply Z.pow_le_mono_r; unfold READBUFSIZE in Hge; lia. }
  unfold INT_MAX in Hn. simpl Z.of_N in Hn. lia.
Qed.

(** A string that starts with a digit has no white space or sign to skip. *)
Lemma strtol_digits (c : Z) (s : list Z) :
  isdigit c = true ->
  strtol (c :: s) = Z.min LONG_MAX (digits_val 0 (c :: s)).
Proof.
  intros Hc. unfold isdigit in Hc. apply andb_true_iff in Hc as [H1 H2].
  apply Z.leb_le in H1, H2.
  unfold strtol. cbn [skip_space]. unfold isspace.
  destruct (Z.eqb_spec c 32); [lia|].
  destruct (Z.leb_spec 9 c); [|lia].
  destruct (Z.leb_spec c 13); [lia|]. cbn [orb andb].
  destruct (Z.eqb_spec c 45); [lia|].
  destruct (Z.eqb_spec c 43); [lia|]. reflexivity.
Qed.

(** [read_dec] decodes what the device encodes, for every number an [int]
    holds. *)
Lemma read_dec_bytes_dec_field (k : Z) (rest : list Z) :
  0 <= k <= INT_MAX ->
  read_dec_bytes (dec_field k ++ rest) = Got k rest.
Proof.
  intros Hk. unfold dec_field. rewrite <- app_assoc. simpl.
  pose proof (uint_digits_isdigit (N.to_uint (Z.to_N k))) as Hdig.
  rewrite read_dec_bytes_field.
  - f_equal.
    assert (Hval : digits_val 0 (uint_digits (N.to_uint (Z.to_N k))) = k).
    { rewrite digits_val_uint.
      change (Pos.of_uint (N.to_uint (Z.to_N k)))
        with (N.of_uint (N.to_uint (Z.to_N k))).
      rewrite DecimalN.Unsigned.of_to. lia. }
    unfold atoi.
    destruct (uint_digits (N.to_uint (Z.to_N k))) as [|c s] eqn:Hd.
    + simpl in Hval. subst k. reflexivity.
    + apply Forall_cons in Hdig as [Hc _].
      rewrite strtol_digits by assumption. rewrite Hval.
      unfold LONG_MAX, INT_MAX in *. rewrite Z.min_r by lia.
      unfold to_int. rewrite Z.mod_small by lia. lia.
  - eapply Forall_impl; [exact Hdig|]. simpl. intros c Hc ->. discriminate.
  - apply uint_digits_length. lia.
Qed.

Example dec_field_9999 : dec_field 9999 = bytes_of "9999" ++ [DEVCOM_TERM].
Proof. reflexivity. Qed.

(** C9.  For [k] one of 0, 1 and 9999: when the decimal digits of [k] and the
    terminator are the next bytes on the line, [read_dec] returns [k] and
    leaves what follows the terminator. *)
Theorem dec_field_round_trip (D : Type) (w : world D) (k : Z) (rest : list Z) :
  In k [0; 1; 9999] ->
  rx w = dec_field k ++ rest ->
  read_dec w = Ret k (World (dev w) rest (trace w ++ [EvDec k])).
Proof.
  intros Hk Hrx. apply read_dec_Got. rewrite Hrx.
  apply read_dec_bytes_dec_field.
  unfold INT_MAX. simpl in Hk. destruct Hk as [<-|[<-|[<-|[]]]]; lia.
Qed.

Lemma dec_field_round_trip_witness :
  read_dec (boot tt (dec_field 9999 ++ dec_field 1))
  = Ret 9999 (World tt (dec_field 1) ([] ++ [EvDec 9999])).
Proof.
  apply (dec_field_round_trip unit (boot tt (dec_field 9999 ++ dec_field 1))
           9999 (dec_field 1)).
  - simpl. tauto.
  - reflexivity.
Defined.

(** * The bounds of the local buffers *)

(** The bytes before the first terminator, when a terminator is at index
    [p]. *)
Lemma split_at_term (pending : list Z) (p : nat) :
  pending !! p = Some DEVCOM_TERM ->
  exists bs rest,
    pending = bs ++ DEVCOM_TERM :: rest
    /\ Forall (fun c => c <> DEVCOM_TERM) bs
    /\ (length bs <= p)%nat.
Proof.
  intros Hp.
  destruct (first_term pending) as [Hno|(bs & rest & -> & Hbs)].
  - now pose proof (Forall_lookup_1 _ _ _ _ Hno Hp).
  - exists bs, rest. repeat split; try assumption.
    destruct (Nat.le_gt_cases (length bs) p) as [Hle|Hgt]; [assumption|].
    rewrite lookup_app_l in Hp by assumption.
    now pose proof (Forall_lookup_1 _ _ _ _ Hbs Hp).
Qed.

(** C10.  When a terminator is on the line with at most 63 bytes before it
    (so in particular when it is among the first 63 bytes), the loop of the
    readers ends at the first terminator, with [dbuf_pos] the number of bytes
    before it: the stores went to the indices 0 to [dbuf_pos], all below
    [READBUFSIZE], the string is read back inside the buffer, and both
    [read_dec] and [read_asc] return. *)
Theorem readers_stay_in_bounds (D : Type) (w : world D) (p : nat) :
  (p < READBUFSIZE)%nat ->
  rx w !! p = Some DEVCOM_TERM ->
  exists bs rest buf,
    rx w = bs ++ DEVCOM_TERM :: rest
    /\ read_field fresh_buffer 0 (rx w) = FieldDone buf (length bs) rest
    /\ (length bs < READBUFSIZE)%nat
    /\ length buf = READBUFSIZE
    /\ c_string buf = Some (until_nul bs)
    /\ read_dec w
       = Ret (atoi bs) (World (dev w) rest (trace w ++ [EvDec (atoi bs)]))
    /\ read_asc w
       = Ret (until_nul bs)
           (World (dev w) rest (trace w ++ [EvAsc (until_nul bs)])).
Proof.
  intros Hp Hterm.
  destruct (split_at_term _ _ Hterm) as (bs & rest & Hrx & Hbs & Hlen).
  assert (Hfit : (length bs < READBUFSIZE)%nat) by lia.
  destruct (read_field_fits bs [] fresh_buffer rest Hbs Hfit)
    as (tail' & Hfield & Htail).
  simpl in Hfield.
  exists bs, rest, (map Some bs ++ Some 0 :: tail').
  rewrite Hrx at 1 2. repeat split; try assumption.
  - rewrite length_app, length_map. simpl.
    change READBUFSIZE with (length fresh_buffer). lia.
  - apply c_string_written.
  - apply read_dec_Got. rewrite Hrx. now apply read_dec_bytes_field.
  - unfold read_asc, read_with. rewrite Hrx.
    now rewrite read_asc_bytes_field.
Qed.

Lemma readers_stay_in_bounds_witness :
  exists bs rest buf,
    replicate 62 65 ++ [DEVCOM_TERM; 66] = bs ++ DEVCOM_TERM :: rest
    /\ read_field fresh_buffer 0 (replicate 62 65 ++ [DEVCOM_TERM; 66])
       = FieldDone buf (length bs) rest
    /\ (length bs < READBUFSIZE)%nat
    /\ length buf = READBUFSIZE
    /\ c_string buf = Some (until_nul bs)
    /\ read_dec (boot tt (replicate 62 65 ++ [DEVCOM_TERM; 66]))
       = Ret (atoi bs) (World tt rest ([] ++ [EvDec (atoi bs)]))
    /\ read_asc (boot tt (replicate 62 65 ++ [DEVCOM_TERM; 66]))
       = Ret (until_nul bs) (World tt rest ([] ++ [EvAsc (until_nul bs)])).
Proof.
  apply (readers_stay_in_bounds unit
           (boot tt (replicate 62 65 ++ [DEVCOM_TERM; 66])) 62).
  - unfold READBUFSIZE. lia.
  - reflexivity.
Defined.

(** * The readers on every line *)

(** The loop on bytes without a terminator that fit the buffer: it waits for
    more. *)
Lemma read_field_waits (bs done : list Z) (tail : buffer) :
  Forall (fun c => c <> DEVCOM_TERM) bs ->
  (length bs <= length tail)%nat ->
  read_field (map Some done ++ tail) (length done) bs = FieldBlocked.
Proof.
  revert done tail.
  induction bs as [|c bs IH]; intros done tail Hbs Hlen; simpl in *;
    [reflexivity|].
  inversion Hbs as [|? ? Hc Hbs']; subst.
  destruct (Z.eqb_spec c DEVCOM_TERM) as [->|_]; [contradiction|].
  destruct tail as [|o tail]; [simpl in Hlen; lia|].
  rewrite store_Some by (rewrite length_app, length_map; simpl; lia).
  rewrite insert_written.
  specialize (IH (done ++ [c]) tail Hbs').
  rewrite length_app in IH. simpl in IH.
  replace (length done + 1)%nat with (S (length done)) in IH by lia.
  apply IH. simpl in Hlen. lia.
Qed.

(** The loop on bytes without a terminator that fill the buffer, and one
    byte more: the store of that byte, or of the NUL if it is the terminator,
    is outside the buffer. *)
Lemma read_field_full (bs done : list Z) (tail : buffer) (c : Z)
    (rest : list Z) :
  Forall (fun c => c <> DEVCOM_TERM) bs ->
  length bs = length tail ->
  read_field (map Some done ++ tail) (length done) (bs ++ c :: rest)
  = FieldOverrun (length done + length tail).
Proof.
  revert done tail.
  induction bs as [|b bs IH]; intros done tail Hbs Hlen; simpl in *.
  - destruct tail; [|discriminate]. rewrite app_nil_r.
    rewrite !store_None by (rewrite length_map; lia).
    rewrite Nat.add_0_r. now destruct (c =? DEVCOM_TERM).
  - inversion Hbs as [|? ? Hb Hbs']; subst.
    destruct (Z.eqb_spec b DEVCOM_TERM) as [->|_]; [contradiction|].
    destruct tail as [|o tail]; [discriminate|].
    rewrite store_Some by (rewrite length_app, length_map; simpl; lia).
    rewrite insert_written.
    specialize (IH (done ++ [b]) tail Hbs').
    rewrite length_app in IH. simpl in IH.
    replace (length done + 1)%nat with (S (length done)) in IH by lia.
    rewrite IH by (simpl in Hlen; lia).
    simpl. f_equal. lia.
Qed.

(** X1.  [read_dec] decodes every number an [int] holds: when the decimal
    digits of [k], for any [k] from 0 to [INT_MAX], and the terminator are
    the next bytes on the line, [read_dec] returns [k] and leaves what
    follows the terminator; and the [size_t] the caller stores it in holds
    [k]. *)
Theorem read_dec_decodes_every_int (D : Type) (w : world D) (k : Z)
    (rest : list Z) :
  0 <= k <= INT_MAX ->
  rx w = dec_field k ++ rest ->
  read_dec w = Ret k (World (dev w) rest (trace w ++ [EvDec k]))
  /\ to_size k = k.
Proof.
  intros Hk Hrx. split; [|now apply to_size_small].
  apply read_dec_Got. rewrite Hrx. now apply read_dec_bytes_dec_field.
Qed.

Lemma read_dec_decodes_every_int_witness :
  read_dec (boot tt (dec_field 2147483647 ++ [65]))
  = Ret 2147483647 (World tt [65] [EvDec 2147483647])
  /\ to_size 2147483647 = 2147483647.
Proof.
  apply (read_dec_decodes_every_int unit
           (boot tt (dec_field 2147483647 ++ [65])) 2147483647 [65]).
  - unfold INT_MAX. lia.
  - reflexivity.
Defined.

(** X2.  A field that does not end within the buffer: when more than
    [READBUFSIZE] bytes are on the line and none of the first [READBUFSIZE]
    is the terminator, [read_dec] and [read_asc] store at index
    [READBUFSIZE], one past the end of their buffer, whatever the byte after
    the first [READBUFSIZE] is.  Nothing in the loop stops at the end of the
    buffer. *)
Theorem readers_overrun_long_field (D : Type) (w : world D) :
  (READBUFSIZE < length (rx w))%nat ->
  Forall (fun c => c <> DEVCOM_TERM) (take READBUFSIZE (rx w)) ->
  read_dec w = Stop (Overrun READBUFSIZE) w
  /\ read_asc w = Stop (Overrun READBUFSIZE) w.
Proof.
  intros Hlen Hno.
  assert (Hfield : read_field fresh_buffer 0 (rx w)
                   = FieldOverrun READBUFSIZE).
  { rewrite <- (take_drop READBUFSIZE (rx w)).
    destruct (drop READBUFSIZE (rx w)) as [|c rest] eqn:Hdrop.
    - apply (f_equal length) in Hdrop. rewrite length_drop in Hdrop.
      simpl in Hdrop. lia.
    - pose proof (read_field_full (take READBUFSIZE (rx w)) [] fresh_buffer
                    c rest Hno) as H.
      change (map Some [] ++ fresh_buffer) with fresh_buffer in H.
      change (length (@nil Z)) with 0%nat in H.
      rewrite H; [reflexivity|].
      rewrite length_take. unfold fresh_buffer. rewrite length_replicate.
      lia. }
  unfold read_dec, read_asc, read_with, read_dec_bytes, read_asc_bytes.
  rewrite Hfield. simpl. split; reflexivity.
Qed.

Lemma readers_overrun_long_field_witness :
  read_dec (boot tt (replicate 65 48)) = Stop (Overrun READBUFSIZE) (boot tt (replicate 65 48))
  /\ read_asc (boot tt (replicate 65 48))
     = Stop (Overrun READBUFSIZE) (boot tt (replicate 65 48)).
Proof.
  apply (readers_overrun_long_field unit (boot tt (replicate 65 48))).
  - simpl. unfold READBUFSIZE. lia.
  - simpl. repeat constructor; discriminate.
Defined.

(** X3.  There is no time-out: when the bytes on the line hold no terminator
    and fit the buffer, [read_dec] and [read_asc] do not return; they wait
    for more bytes. *)
Theorem readers_wait_for_terminator (D : Type) (w : world D) :
  Forall (fun c => c <> DEVCOM_TERM) (rx w) ->
  (length (rx w) <= READBUFSIZE)%nat ->
  read_dec w = Stop Blocked w /\ read_asc w = Stop Blocked w.
Proof.
  intros Hno Hlen.
  assert (Hfield : read_field fresh_buffer 0 (rx w) = FieldBlocked).
  { apply (read_field_waits (rx w) [] fresh_buffer Hno).
    unfold fresh_buffer. rewrite length_replicate. exact Hlen. }
  unfold read_dec, read_asc, read_with, read_dec_bytes, read_asc_bytes.
  rewrite Hfield. simpl. split; reflexivity.
Qed.

Lemma readers_wait_for_terminator_witness :
  read_dec (boot tt (bytes_of "1024")) = Stop Blocked (boot tt (bytes_of "1024"))
  /\ read_asc (boot tt (bytes_of "1024"))
     = Stop Blocked (boot tt (bytes_of "1024")).
Proof.
  apply (readers_wait_for_terminator unit (boot tt (bytes_of "1024"))).
  - simpl. repeat constructor; discriminate.
  - simpl. unfold READBUFSIZE. lia.
Defined.

(** The value of a run of digits does not depend on what follows the first
    byte that is no digit. *)
Lemma digits_val_stops (ds : list Z) (c : Z) (junk : list Z) (acc : Z) :
  Forall (fun d => isdigit d = true) ds ->
  isdigit c = false ->
  digits_val acc (ds ++ c :: junk) = digits_val acc ds.
Proof.
  intros Hds Hc. revert acc.
  induction Hds as [|d ds Hd _ IH]; intros acc; simpl.
  - now rewrite Hc.
  - rewrite Hd. apply IH.
Qed.

(** X4.  Only the first number of a field counts: when the decimal digits of
    [k] are followed by a byte that is no digit (the separator [','] of a
    field with several parameters, say) and by anything up to the
    terminator, [read_dec] returns [k] and drops the rest of the field. *)
Theorem read_dec_takes_first_number (D : Type) (w : world D) (k c : Z)
    (junk rest : list Z) :
  0 <= k <= INT_MAX ->
  isdigit c = false ->
  c <> DEVCOM_TERM ->
  Forall (fun b => b <> DEVCOM_TERM) junk ->
  (length (uint_digits (N.to_uint (Z.to_N k))) + 1 + length junk
   < READBUFSIZE)%nat ->
  rx w = uint_digits (N.to_uint (Z.to_N k)) ++ c :: junk
           ++ DEVCOM_TERM :: rest ->
  read_dec w = Ret k (World (dev w) rest (trace w ++ [EvDec k])).
Proof.
  intros Hk Hc Hct Hjunk Hlen Hrx.
  apply read_dec_Got. rewrite Hrx.
  pose proof (uint_digits_isdigit (N.to_uint (Z.to_N k))) as Hdig.
  set (ds := uint_digits (N.to_uint (Z.to_N k))) in *.
  change (ds ++ c :: junk ++ DEVCOM_TERM :: rest)
    with (ds ++ (c :: junk) ++ DEVCOM_TERM :: rest).
  rewrite app_assoc.
  rewrite read_dec_bytes_field.
  - f_equal.
    assert (Hval : digits_val 0 (ds ++ c :: junk) = k).
    { rewrite digits_val_stops by assumption.
      unfold ds. rewrite digits_val_uint.
      change (Pos.of_uint (N.to_uint (Z.to_N k)))
        with (N.of_uint (N.to_uint (Z.to_N k))).
      rewrite DecimalN.Unsigned.of_to. lia. }
    unfold atoi.
    destruct ds as [|d ds'] eqn:Hd.
    + simpl in Hval. rewrite Hc in Hval. subst k.
      exfalso. unfold ds in Hd. simpl in Hd. discriminate.
    + apply Forall_cons in Hdig as [Hd1 _].
      change ((d :: ds') ++ c :: junk) with (d :: (ds' ++ c :: junk)) in *.
      rewrite strtol_digits by assumption. rewrite Hval.
      unfold LONG_MAX, INT_MAX in *. rewrite Z.min_r by lia.
      unfold to_int. rewrite Z.mod_small by lia. lia.
  - apply Forall_app. split.
    + eapply Forall_impl; [exact Hdig|]. simpl. intros b Hb ->. discriminate.
    + now constructor.
  - rewrite length_app. simpl. lia.
Qed.

Lemma read_dec_takes_first_number_witness :
  read_dec (boot tt (bytes_of "1024,512" ++ [DEVCOM_TERM; 65]))
  = Ret 1024 (World tt [65] [EvDec 1024]).
Proof.
  apply (read_dec_takes_first_number unit
           (boot tt (bytes_of "1024,512" ++ [DEVCOM_TERM; 65]))
           1024 DEVCOM_SEP (bytes_of "512") [65]).
  - unfold INT_MAX. lia.
  - reflexivity.
  - discriminate.
  - simpl. repeat constructor; discriminate.
  - simpl. unfold READBUFSIZE. lia.
  - reflexivity.
Defined.

(** * More on the loops *)

(** X5.  A negative answer releases every chunk: [buffree] is unsigned, so a
    free-space field that [read_dec] reads as a negative number is a
    [buffree] above every chunk size [main] can have, and the polling loop
    ends after this one poll. *)
Theorem negative_answer_releases (D : Type) (plotter : device D) (n v : Z)
    (fuel : nat) (w : world D) :
  0 <= n < 2 ^ 63 ->
  v < 0 ->
  answers (rx w) [v] = true ->
  exists w',
    poll plotter (S fuel) n 0 w = Ret tt w'
    /\ trace w' = trace w ++ poll_log [v].
Proof.
  intros Hn Hv Hans.
  assert (Hint : INT_MIN <= v).
  { apply answers_cons in Hans as (rest & Hgot & _).
    apply read_dec_bytes_Got in Hgot as (bs & _ & _ & _ & ->).
    apply to_int_range. }
  assert (Hsz : n < to_size v).
  { unfold to_size, INT_MIN in *.
    replace v with (v + 2 ^ 64 + (-1) * 2 ^ 64) by lia.
    rewrite Z.mod_add by lia. rewrite Z.mod_small by lia. lia. }
  destruct (poll_release plotter [] v [] n 0 (S fuel) w) as (w' & Hp & Ht & _);
    [lia | exact Hans | constructor | exact Hsz | simpl; lia |].
  exists w'. split; assumption.
Qed.

Lemma negative_answer_releases_witness :
  exists w',
    poll silent 1 1000 0 (boot tt (bytes_of "-1" ++ [DEVCOM_TERM])) = Ret tt w'
    /\ trace w'
       = trace (boot tt (bytes_of "-1" ++ [DEVCOM_TERM])) ++ poll_log [-1].
Proof.
  apply (negative_answer_releases unit silent 1000 (-1) 0
           (boot tt (bytes_of "-1" ++ [DEVCOM_TERM]))).
  - lia.
  - lia.
  - reflexivity.
Defined.

(** Every round of the loop that writes has polled. *)
Lemma spool_shape_polls (c : Z) (evs : list event) :
  spool_shape c evs -> (length (data_of evs) <= length (polled evs))%nat.
Proof.
  induction 1 as [|buf evs _ Hpoll|buf waits v evs _ _ _ _ IH]; simpl.
  - lia.
  - rewrite data_of_polling by assumption. simpl. lia.
  - rewrite data_of_app, polled_app, data_of_poll_log, polled_poll_log.
    simpl. rewrite length_app, length_map, length_app. simpl. lia.
Qed.

(** X6.  The rounds of a run of the loop that ends, for a chunk size [c] of
    at least 1 and an input of [L] bytes: [L / c] writes of [c] bytes and
    then one write of [L mod c] bytes.  So when [L] is a multiple of [c]
    (when the input is empty, too) the last write is a write of 0 bytes.
    Every write had a poll of its own.  A loop whose buffer is [NULL] does
    not end, so this is about the loops that had their buffer. *)
Theorem spool_round_count (D : Type) (plotter : device D) (fuel : nat)
    (c : Z) (input : list Z) (w w' : world D) (f' : FILE) :
  0 < c ->
  spool plotter fuel c (fopen input) w = Ret f' w' ->
  exists evs full last,
    trace w' = trace w ++ evs
    /\ data_of evs = full ++ [last]
    /\ Forall (fun b => Z.of_nat (length b) = c) full
    /\ Z.of_nat (length full) = Z.of_nat (length input) / c
    /\ Z.of_nat (length last) = Z.of_nat (length input) mod c
    /\ (length full + 1 <= length (polled evs))%nat.
Proof.
  intros Hc Hret.
  destruct (spool_Ret_chunks plotter fuel (length input) c input w w' f' Hc
              (Nat.le_refl _) Hret) as (_ & evs & Htr & Hdata).
  destruct (chunks_aux_sizes (length input) (Z.to_nat c) input
              ltac:(lia) (Nat.le_refl _)) as (full & last & Hch & Hfull & Hlast).
  pose proof (concat_chunks_aux (length input) (Z.to_nat c) input) as Hcat.
  rewrite Hch in Hcat.
  assert (Hsum : Z.of_nat (length input)
                 = c * Z.of_nat (length full) + Z.of_nat (length last)).
  { rewrite <- Hcat at 1. rewrite concat_app, length_app. simpl.
    rewrite app_nil_r. rewrite Nat2Z.inj_add. f_equal.
    clear - Hfull Hc. induction Hfull as [|b full Hb _ IH]; simpl; [lia|].
    rewrite length_app, Nat2Z.inj_add, IH. lia. }
  exists evs, full, last. split; [exact Htr|].
  split; [now rewrite Hdata|].
  split; [eapply Forall_impl; [exact Hfull|]; simpl; intros; lia|].
  assert (Hl : 0 <= Z.of_nat (length last) < c) by lia.
  split; [|split].
  - apply (Z.div_unique_pos _ _ _ (Z.of_nat (length last))); lia.
  - apply (Z.mod_unique_pos _ _ (Z.of_nat (length full))); lia.
  - destruct (spool_has_shape plotter fuel c (fopen input) w ltac:(lia))
      as (evs' & Hev & Hshape).
    unfold events in Hev. rewrite Hret in Hev. simpl in Hev.
    rewrite Htr in Hev. apply app_inv_head in Hev. subst evs'.
    apply spool_shape_polls in Hshape.
    rewrite Hdata, Hch, length_app in Hshape. simpl in Hshape. exact Hshape.
Qed.

Lemma spool_round_count_witness :
  exists evs full last,
    trace (World tt [] (EvFread 2 [65; 66] :: poll_log [9]
                          ++ EvData [65; 66] :: EvFread 2 [67; 68]
                          :: poll_log [9] ++ EvData [67; 68] :: EvFread 2 []
                          :: poll_log [9] ++ [EvData []]))
    = trace (boot tt (dec_field 9 ++ dec_field 9 ++ dec_field 9)) ++ evs
    /\ data_of evs = full ++ [last]
    /\ Forall (fun b => Z.of_nat (length b) = 2) full
    /\ Z.of_nat (length full) = Z.of_nat (length [65; 66; 67; 68]) / 2
    /\ Z.of_nat (length last) = Z.of_nat (length [65; 66; 67; 68]) mod 2
    /\ (length full + 1 <= length (polled evs))%nat.
Proof.
  apply (spool_round_count unit silent 9 2 [65; 66; 67; 68]
           (boot tt (dec_field 9 ++ dec_field 9 ++ dec_field 9))
           _ (File [] true)).
  - lia.
  - reflexivity.
Defined.

(** A run of [main] that returns went through the prologue, which gave a
    chunk size of at least 1, and through the loop, which had its buffer and
    ended; the plotter-off command is the last event of its log. *)
Lemma main_Ret_inv (D : Type) (plotter : device D) (verbose : bool)
    (fuel : nat) (input : list Z) (w w' : world D) :
  main plotter verbose fuel input w = Ret tt w' ->
  exists c w1 pro f' w2,
    prologue plotter verbose w = Ret c w1
    /\ trace w1 = trace w ++ pro
    /\ Forall setup pro
    /\ 0 < c
    /\ c = chunksize_of (plotter_init plotter w)
    /\ spool plotter fuel c (fopen input) w1 = Ret f' w2
    /\ trace w' = trace w2 ++ [EvCmd CMD_OFF].
Proof.
  intros Hmain.
  destruct (prologue plotter verbose w) as [c w1|why w1] eqn:Hpro.
  - rewrite (main_unfold plotter verbose fuel input w w1 c Hpro) in Hmain.
    destruct (spool plotter fuel c (fopen input) w1) as [f' w2|why w2] eqn:Hsp;
      [|discriminate].
    inversion Hmain; subst w'. clear Hmain.
    destruct (prologue_Ret plotter verbose w w1 c Hpro)
      as (C & w0 & pro & Hinit & Hc & Htr1 & Hsetup).
    exists c, w1, pro, f', w2.
    split; [reflexivity|]. split; [exact Htr1|]. split; [exact Hsetup|].
    split; [|split; [|split]].
    + assert (0 <= c).
      { subst c. apply Z.div_pos; [apply to_size_range | lia]. }
      destruct (Z.eq_dec c 0) as [Hz|Hnz]; [|lia].
      pose proof (spool_zero_never_returns D plotter fuel input w1) as Hnever.
      rewrite <- Hz, Hsp in Hnever. discriminate.
    + rewrite Hinit. exact Hc.
    + exact Hsp.
    + apply trace_after.
  - unfold main in Hmain. rewrite (bind_Stop _ _ _ _ _ Hpro) in Hmain.
    discriminate.
Qed.

(** X7.  Whenever [main] returns, the bytes of its [write] calls, put end to
    end, are the input: every byte of it, in order, and nothing else; and
    the plotter-off command is the last thing it sent.  No condition on the
    chunk size is needed: a run with a chunk size of 0 does not return, and
    neither does a run whose buffer is [NULL]. *)
Theorem main_returns_input_written (D : Type) (plotter : device D)
    (verbose : bool) (fuel : nat) (input : list Z) (w w' : world D) :
  main plotter verbose fuel input w = Ret tt w' ->
  exists evs,
    trace w' = trace w ++ evs ++ [EvCmd CMD_OFF]
    /\ concat (data_of evs) = input
    /\ 1 <= chunksize_of (plotter_init plotter w).
Proof.
  intros Hmain.
  destruct (main_Ret_inv D plotter verbose fuel input w w' Hmain)
    as (c & w1 & pro & f' & w2 & _ & Htr1 & Hsetup & Hpos & Hc & Hsp & Htr').
  destruct (spool_Ret_chunks plotter fuel (length input) c input w1 w2 f'
              Hpos (Nat.le_refl _) Hsp) as (_ & evs & Htr2 & Hdata).
  exists (pro ++ evs). split; [|split].
  - rewrite Htr', Htr2, Htr1, <- !app_assoc. reflexivity.
  - rewrite data_of_app, (data_of_no_data pro).
    + simpl. rewrite Hdata. apply concat_chunks_aux.
    + eapply Forall_impl; [exact Hsetup|]. apply no_data_setup.
  - lia.
Qed.

Lemma main_returns_input_written_witness :
  exists evs,
    trace (world_of (main (fixed_answers 8 100) false 5 [65; 66; 67]
                       (boot tt [])))
    = trace (boot tt []) ++ evs ++ [EvCmd CMD_OFF]
    /\ concat (data_of evs) = [65; 66; 67]
    /\ 1 <= chunksize_of (plotter_init (fixed_answers 8 100) (boot tt [])).
Proof.
  apply (main_returns_input_written unit (fixed_answers 8 100) false 5
           [65; 66; 67] (boot tt [])).
  reflexivity.
Defined.

(** X8.  A plotter that does not answer the first query: when the line
    holds no terminator after the three commands of lines 229-231 (and no
    more bytes than the buffer of [read_dec] takes), [main] waits in
    [read_dec] at line 232 and goes no further: it has sent the three
    commands and nothing else, no data and no plotter-off command. *)
Theorem main_waits_for_first_answer (D : Type) (plotter : device D)
    (verbose : bool) (fuel : nat) (input : list Z) (w : world D) :
  Forall (fun c => c <> DEVCOM_TERM) (rx (queried plotter w)) ->
  (length (rx (queried plotter w)) <= READBUFSIZE)%nat ->
  main plotter verbose fuel input w = Stop Blocked (queried plotter w)
  /\ trace (queried plotter w)
     = trace w ++ [EvCmd CMD_ON; EvCmd CMD_RESET; EvCmd CMD_BUFSIZE].
Proof.
  intros Hno Hlen. split; [|apply trace_queried].
  assert (Hinit : plotter_init plotter w = Stop Blocked (queried plotter w)).
  { rewrite plotter_init_unfold.
    unfold read_dec, read_with, read_dec_bytes.
    pose proof (read_field_waits (rx (queried plotter w)) [] fresh_buffer Hno)
      as H.
    change (map Some [] ++ fresh_buffer) with fresh_buffer in H.
    change (length (@nil Z)) with 0%nat in H.
    rewrite H; [reflexivity|].
    unfold fresh_buffer. rewrite length_replicate. exact Hlen. }
  unfold main, prologue.
  erewrite bind_Stop; [reflexivity|].
  erewrite bind_Stop; [reflexivity|]. exact Hinit.
Qed.

Lemma main_waits_for_first_answer_witness :
  main silent true 10 [65; 66; 67] (boot tt [])
  = Stop Blocked (queried silent (boot tt []))
  /\ trace (queried silent (boot tt []))
     = trace (boot tt []) ++ [EvCmd CMD_ON; EvCmd CMD_RESET; EvCmd CMD_BUFSIZE].
Proof.
  apply (main_waits_for_first_answer unit silent true 10 [65; 66; 67]
           (boot tt [])).
  - constructor.
  - simpl. lia.
Defined.

(** * The serial port *)

(** A constant of 32 bits has no bit from 32 on. *)
Lemma testbit_high (k n : Z) :
  0 <= k < 2 ^ 32 -> 32 <= n -> Z.testbit k n = false.
Proof.
  intros [Hk Hlt] Hn.
  destruct (Z.eq_dec k 0) as [->|Hne]; [apply Z.bits_0|].
  apply Z.bits_above_log2; [exact Hk|].
  assert (Z.log2 k < 32) by (apply Z.log2_lt_pow2; lia).
  lia.
Qed.

(** Equality of two flag words built with [&] and [|] from the word [x] and
    constants of 32 bits: bit by bit, the first 32 one after the other. *)
Ltac flag_word x :=
  apply Z.bits_inj'; intros n Hn;
  repeat rewrite ?Z.lor_spec, ?Z.land_spec;
  destruct (Z.lt_ge_cases n 32) as [Hlt|Hge];
  [ let k := fresh "k" in
    let Hk := fresh "Hk" in
    assert (exists k, (k < 32)%nat /\ n = Z.of_nat k) as (k & Hk & ->)
      by (exists (Z.to_nat n); lia);
    generalize (Z.testbit x (Z.of_nat k));
    do 32 (destruct k as [|k]; [intros [|]; reflexivity|]);
    intros; lia
  | repeat match goal with
           | |- context [Z.testbit ?k n] =>
               lazymatch k with
               | context [x] => fail
               | _ => rewrite (testbit_high k n)
                        by first [exact Hge
                                 | vm_compute; split; [discriminate|reflexivity]]
               end
           end;
    destruct (Z.testbit x n); reflexivity ].

Ltac flag_words o :=
  unfold line_flags; cbv zeta;
  cbn [c_cflag c_iflag c_oflag c_lflag c_line c_cc];
  first [flag_word (c_cflag o) | flag_word (c_lflag o)
        | flag_word (c_iflag o) | flag_word (c_oflag o)].

(** The settings after lines 56-67, whatever [options] held before. *)
Lemma line_flags_assigned_bits (o : termios) : assigned_bits (line_flags o).
Proof.
  unfold assigned_bits. repeat split; flag_words o.
Qed.

(** What [init_serial] hands to [tcsetattr]. *)
Lemma init_serial_tcsetattr (sys : system) (path : string) (baud_rate : Z)
    (fd actions : Z) (o : termios) (r : Z) :
  In (SysTcsetattr fd actions o r) (snd (init_serial sys path baud_rate)) ->
  fd = sys_open sys path (Z.lor O_RDWR O_NOCTTY)
  /\ actions = TCSAFLUSH
  /\ o = line_flags
           (sys_cfsetospeed sys
              (sys_cfsetispeed sys (sys_tcgetattr sys fd) baud_rate)
              baud_rate)
  /\ r = sys_tcsetattr sys fd actions o.
Proof.
  unfold init_serial.
  set (fd0 := sys_open sys path (Z.lor O_RDWR O_NOCTTY)).
  destruct (fd0 <? 0); simpl.
  - intros [H|[]]. discriminate.
  - set (o0 := line_flags _).
    destruct (sys_tcsetattr sys fd0 TCSAFLUSH o0 <? 0); simpl;
      intros H; repeat (destruct H as [H|H]; try discriminate H);
      try contradiction; inversion H; subst; repeat split; reflexivity.
Qed.

(** The translations of CR and NL on input are as they were. *)
Lemma line_flags_cr_nl (o : termios) :
  Z.land (c_iflag (line_flags o)) CR_NL_BITS = Z.land (c_iflag o) CR_NL_BITS.
Proof. flag_words o. Qed.

(** X9.  In every call of [tcsetattr] that [init_serial] makes, for every
    system, path and speed, the bits that lines 56-67 name have the values
    the lines give them, whatever the port had in them before (none of the
    ten assignments undoes an earlier one): 8 data bits, odd parity, one stop
    bit, no hardware and no software flow control, no canonical mode, no
    echo, no signals, no processing of the output.  The input is not raw for
    all that: the lines do not name [ICRNL], [INLCR] and [IGNCR], and these
    go to [tcsetattr] as [tcgetattr] and the speed functions left them, so a
    port that translated CR to NL goes on doing so.  The settings are
    applied with [TCSAFLUSH] to the descriptor that [open] returned. *)
Theorem init_serial_line_settings (sys : system) (path : string)
    (baud_rate fd actions : Z) (o : termios) (r : Z) :
  In (SysTcsetattr fd actions o r) (snd (init_serial sys path baud_rate)) ->
  assigned_bits o
  /\ Z.land (c_iflag o) CR_NL_BITS
     = Z.land (c_iflag (sys_cfsetospeed sys
                          (sys_cfsetispeed sys (sys_tcgetattr sys fd)
                             baud_rate)
                          baud_rate))
              CR_NL_BITS
  /\ actions = TCSAFLUSH
  /\ fd = sys_open sys path (Z.lor O_RDWR O_NOCTTY).
Proof.
  intros Hin.
  apply init_serial_tcsetattr in Hin as (Hfd & Hact & Ho & _).
  split; [|split; [|split; assumption]].
  - rewrite Ho. apply line_flags_assigned_bits.
  - rewrite Ho. apply line_flags_cr_nl.
Qed.

Lemma init_serial_line_settings_witness :
  assigned_bits (Termios 304 0 2992 0 0 [])
  /\ Z.land (c_iflag (Termios 304 0 2992 0 0 [])) CR_NL_BITS
     = Z.land (c_iflag (sys_cfsetospeed cooked_port
                          (sys_cfsetispeed cooked_port
                             (sys_tcgetattr cooked_port 3) B9600)
                          B9600))
              CR_NL_BITS
  /\ TCSAFLUSH = TCSAFLUSH
  /\ 3 = sys_open cooked_port "/dev/ttyS0" (Z.lor O_RDWR O_NOCTTY).
Proof.
  apply (init_serial_line_settings cooked_port "/dev/ttyS0" B9600 3
           TCSAFLUSH (Termios 304 0 2992 0 0 []) 0).
  vm_compute. do 4 right. left. reflexivity.
Defined.

(** X10.  Lines 56-67 change the bits they name and nothing else: in each of
    the four flag words the other bits are as they were, and the line
    discipline and the control characters are not touched; every flag word
    is a [tcflag_t] afterwards; and the ten assignments applied to their
    own result change nothing. *)
Theorem line_flags_keeps_other_bits (o : termios) :
  Z.land (c_cflag (line_flags o)) (compl CFLAG_NAMED)
  = Z.land (c_cflag o) (compl CFLAG_NAMED)
  /\ Z.land (c_lflag (line_flags o)) (compl LFLAG_NAMED)
     = Z.land (c_lflag o) (compl LFLAG_NAMED)
  /\ Z.land (c_iflag (line_flags o)) (compl IFLAG_NAMED)
     = Z.land (c_iflag o) (compl IFLAG_NAMED)
  /\ Z.land (c_oflag (line_flags o)) (compl OFLAG_NAMED)
     = Z.land (c_oflag o) (compl OFLAG_NAMED)
  /\ c_line (line_flags o) = c_line o
  /\ c_cc (line_flags o) = c_cc o
  /\ tcflag_t (c_cflag (line_flags o)) = c_cflag (line_flags o)
  /\ tcflag_t (c_lflag (line_flags o)) = c_lflag (line_flags o)
  /\ tcflag_t (c_iflag (line_flags o)) = c_iflag (line_flags o)
  /\ tcflag_t (c_oflag (line_flags o)) = c_oflag (line_flags o)
  /\ line_flags (line_flags o) = line_flags o.
Proof.
  repeat split;
    try (unfold tcflag_t; rewrite <- Z.land_ones by lia;
         change (Z.ones 32) with 4294967295);
    try flag_words o.
  unfold line_flags; cbv zeta;
    cbn [c_cflag c_iflag c_oflag c_lflag c_line c_cc].
  f_equal;
    [flag_word (c_iflag o) | flag_word (c_oflag o)
    | flag_word (c_cflag o) | flag_word (c_lflag o)].
Qed.

Lemma open_fds_app (held : list Z) (l1 l2 : list syscall) :
  open_fds held (l1 ++ l2) = open_fds (open_fds held l1) l2.
Proof.
  revert held. induction l1 as [|c l1 IH]; intros held; [reflexivity|].
  destruct c; simpl; apply IH.
Qed.

Lemma open_files_app (held : list string) (l1 l2 : list syscall) :
  open_files held (l1 ++ l2) = open_files (open_files held l1) l2.
Proof.
  revert held. induction l1 as [|c l1 IH]; intros held; [reflexivity|].
  destruct c as [name [|]|[|name]| | | | | | |]; simpl; apply IH.
Qed.

(** What [init_serial] leaves open: the descriptor it returns, and nothing
    when it fails. *)
Lemma init_serial_open_fds (sys : system) (path : string) (baud_rate : Z) :
  open_fds [] (snd (init_serial sys path baud_rate))
  = if fst (init_serial sys path baud_rate) <? 0 then []
    else [fst (init_serial sys path baud_rate)].
Proof.
  unfold init_serial.
  set (fd := sys_open sys path (Z.lor O_RDWR O_NOCTTY)).
  destruct (fd <? 0) eqn:Hfd; simpl.
  - now rewrite Hfd.
  - set (o := line_flags _).
    destruct (sys_tcsetattr sys fd TCSAFLUSH o <? 0); simpl; rewrite Hfd.
    + simpl. now destruct (Z.eq_dec fd fd).
    + reflexivity.
Qed.

Lemma init_serial_open_files (sys : system) (path : string) (baud_rate : Z)
    (held : list string) :
  open_files held (snd (init_serial sys path baud_rate)) = held.
Proof.
  unfold init_serial.
  destruct (sys_open sys path (Z.lor O_RDWR O_NOCTTY) <? 0); simpl;
    [reflexivity|].
  now destruct (sys_tcsetattr _ _ _ _ <? 0).
Qed.

(** X11.  [init_serial] returns a negative number exactly when [open] or
    [tcsetattr] failed, and then no descriptor is left open: the one that
    [open] returned is closed again when [tcsetattr] fails.  Otherwise it
    returns the descriptor that [open] returned, which is open and is the
    only one. *)
Theorem init_serial_result (sys : system) (path : string) (baud_rate : Z) :
  let fd := sys_open sys path (Z.lor O_RDWR O_NOCTTY) in
  let options :=
    line_flags
      (sys_cfsetospeed sys
         (sys_cfsetispeed sys (sys_tcgetattr sys fd) baud_rate) baud_rate) in
  let r := fst (init_serial sys path baud_rate) in
  let calls := snd (init_serial sys path baud_rate) in
  (r < 0 <-> fd < 0 \/ sys_tcsetattr sys fd TCSAFLUSH options < 0)
  /\ (r < 0 -> open_fds [] calls = [])
  /\ (0 <= r -> r = fd /\ open_fds [] calls = [fd]).
Proof.
  intros fd options r calls.
  pose proof (init_serial_open_fds sys path baud_rate) as Hopen.
  fold r calls in Hopen.
  assert (Hr : r = if fd <? 0 then fd
                   else if sys_tcsetattr sys fd TCSAFLUSH options <? 0
                        then -1 else fd).
  { unfold r, init_serial. fold fd.
    destruct (fd <? 0); [reflexivity|]. fold options.
    now destruct (sys_tcsetattr sys fd TCSAFLUSH options <? 0). }
  destruct (Z.ltb_spec fd 0) as [Hfd|Hfd];
    [|destruct (Z.ltb_spec (sys_tcsetattr sys fd TCSAFLUSH options) 0)
        as [Hset|Hset]].
  - split; [|split]; [split; intros; (lia || (left; lia)) | |lia].
    intros Hneg. destruct (Z.ltb_spec r 0); [exact Hopen | lia].
  - split; [|split]; [split; intros; (lia || (right; lia)) | |lia].
    intros Hneg. destruct (Z.ltb_spec r 0); [exact Hopen | lia].
  - split; [|split]; [split; intros; lia | lia |].
    intros _. split; [exact Hr|].
    destruct (Z.ltb_spec r 0); [lia|]. now rewrite Hopen, Hr.
Qed.

(** * The command line *)

(** The loop never assigns [baud_rate]. *)
Lemma process_arguments_baud (argv : list getopt_call) (o o' : options) :
  process_arguments o argv = Parsed o' -> o_baud_rate o' = o_baud_rate o.
Proof.
  revert o. induction argv as [|g argv IH]; intros o; simpl.
  - now intros [= <-].
  - repeat match goal with
           | |- context [if ?b then _ else _] => destruct b
           end;
      try discriminate; try (now intros [= <-]);
      intros H; apply IH in H; exact H.
Qed.

(** [verbose] is set by a call that returned ['v'] and by nothing else. *)
Lemma process_arguments_verbose (argv : list getopt_call) (o o' : options) :
  process_arguments o argv = Parsed o' ->
  o_verbose o' = true ->
  o_verbose o = true \/ existsb (returned "v") argv = true.
Proof.
  revert o. induction argv as [|g argv IH]; intros o; simpl.
  - intros [= <-]. now left.
  - unfold returned at 1.
    destruct (to_char (g_return g) =? -1); [intros [= <-]; now left|].
    destruct (Z.eqb_spec (to_char (g_return g)) (code "d")) as [Hd|_].
    { rewrite Hd. intros H Hv. destruct (IH _ H Hv) as [Ho|He]; simpl in *;
        [now left | right; now rewrite He]. }
    destruct (Z.eqb_spec (to_char (g_return g)) (code "f")) as [Hf|_].
    { rewrite Hf. intros H Hv. destruct (IH _ H Hv) as [Ho|He]; simpl in *;
        [now left | right; now rewrite He]. }
    destruct (Z.eqb_spec (to_char (g_return g)) (code "r")) as [Hr|_].
    { rewrite Hr. intros H Hv. destruct (IH _ H Hv) as [Ho|He]; simpl in *;
        [now left | right; now rewrite He]. }
    destruct (Z.eqb_spec (to_char (g_return g)) (code "v")) as [Hv'|_].
    { intros _ _. right. reflexivity. }
    destruct (to_char (g_return g) =? code "?"); discriminate.
Qed.

(** One round of the loop on a call that returned an option letter. *)
Lemma process_arguments_option (g : getopt_call) (argv : list getopt_call)
    (o : options) :
  is_option g = true ->
  process_arguments o (g :: argv)
  = process_arguments
      (Options (if returned "d" g then g_optarg g else o_device o)
               (if returned "f" g then Some (g_optarg g) else o_filename o)
               (o_verbose o || returned "v" g)
               (o_baud_rate o))
      argv.
Proof.
  unfold is_option, returned. intros Hopt. simpl.
  destruct (Z.eqb_spec (to_char (g_return g)) (code "d")) as [Hd|Hd].
  { rewrite Hd. simpl. now rewrite orb_false_r. }
  destruct (Z.eqb_spec (to_char (g_return g)) (code "f")) as [Hf|Hf].
  { rewrite Hf. simpl. now rewrite orb_false_r. }
  destruct (Z.eqb_spec (to_char (g_return g)) (code "r")) as [Hr|Hr].
  { rewrite Hr. simpl. rewrite orb_false_r. now destruct o. }
  destruct (Z.eqb_spec (to_char (g_return g)) (code "v")) as [Hv|Hv];
    [|discriminate].
  rewrite Hv. simpl. now rewrite orb_true_r.
Qed.

(** X12.  What the options mean.  On a command line where every call of
    [getopt] returned one of the four option letters, the loop accepts the
    line: the device is the argument of the last [-d] (the default without
    one), the file name that of the last [-f] (none without one), the
    verbose mode is on exactly when some call returned ['v'] (or it was on
    before), and the speed is what it was: [-r] changes nothing, nor does
    its argument.  A call that returns ['?'] after such calls ends the
    program with a failure, whatever follows it. *)
Theorem options_last_wins (argv : list getopt_call) (o : options) :
  forallb is_option argv = true ->
  process_arguments o argv
  = Parsed (Options (match last_optarg "d" argv with
                     | Some s => s
                     | None => o_device o
                     end)
                    (match last_optarg "f" argv with
                     | Some s => Some s
                     | None => o_filename o
                     end)
                    (o_verbose o || existsb (returned "v") argv)
                    (o_baud_rate o))
  /\ forall g rest,
       returned "?" g = true ->
       process_arguments o (argv ++ g :: rest) = Rejected.
Proof.
  revert o. induction argv as [|g argv IH]; intros o Hall.
  - split.
    + simpl. rewrite orb_false_r. now destruct o.
    + intros g rest Hq. unfold returned in Hq. simpl.
      apply Z.eqb_eq in Hq. rewrite Hq. reflexivity.
  - simpl in Hall. apply andb_true_iff in Hall as [Hg Hall].
    split.
    + rewrite process_arguments_option by exact Hg.
      destruct (IH (Options (if returned "d" g then g_optarg g else o_device o)
                      (if returned "f" g then Some (g_optarg g)
                       else o_filename o)
                      (o_verbose o || returned "v" g) (o_baud_rate o)) Hall)
        as [-> _].
      cbn [o_device o_filename o_verbose o_baud_rate last_optarg existsb].
      f_equal. f_equal.
      * destruct (last_optarg "d" argv); [reflexivity|].
        now destruct (returned "d" g).
      * destruct (last_optarg "f" argv); [reflexivity|].
        now destruct (returned "f" g).
      * now rewrite orb_assoc.
    + intros q rest Hq.
      change ((g :: argv) ++ q :: rest) with (g :: (argv ++ q :: rest)).
      rewrite process_arguments_option by exact Hg.
      now apply IH.
Qed.

Lemma options_last_wins_witness :
  process_arguments default_options
    [Getopt 100 "/dev/ttyUSB0" 0; Getopt 114 "19200" 0;
     Getopt 118 "" 0; Getopt 100 "/dev/ttyS1" 0]
  = Parsed (Options "/dev/ttyS1" None true B9600)
  /\ forall g rest,
       returned "?" g = true ->
       process_arguments default_options
         ([Getopt 100 "/dev/ttyUSB0" 0; Getopt 114 "19200" 0;
           Getopt 118 "" 0; Getopt 100 "/dev/ttyS1" 0] ++ g :: rest)
       = Rejected.
Proof.
  apply (options_last_wins
           [Getopt 100 "/dev/ttyUSB0" 0; Getopt 114 "19200" 0;
            Getopt 118 "" 0; Getopt 100 "/dev/ttyS1" 0] default_options).
  reflexivity.
Defined.

(** X13.  [abort()] at line 199 is dead code as long as [getopt] keeps to
    its contract: when every call returns -1, ['?'] or one of the four
    option letters, the loop ends by accepting or by rejecting the command
    line. *)
Theorem abort_needs_stray_return (argv : list getopt_call) (o : options) :
  Forall getopt_contract argv ->
  process_arguments o argv <> Aborted.
Proof.
  intros Hall. revert o.
  induction Hall as [|g argv Hg _ IH]; intros o; simpl; [discriminate|].
  destruct (to_char (g_return g) =? -1) eqn:H1; [discriminate|].
  destruct (to_char (g_return g) =? code "d") eqn:Hd; [apply IH|].
  destruct (to_char (g_return g) =? code "f") eqn:Hf; [apply IH|].
  destruct (to_char (g_return g) =? code "r") eqn:Hr; [apply IH|].
  destruct (to_char (g_return g) =? code "v") eqn:Hv; [apply IH|].
  destruct (to_char (g_return g) =? code "?") eqn:Hq; [discriminate|].
  exfalso. unfold getopt_contract in Hg. simpl in Hg.
  destruct Hg as [Hg|[Hg|[Hg|[Hg|[Hg|[Hg|[]]]]]]]; rewrite <- Hg in *;
    discriminate.
Qed.

Lemma abort_needs_stray_return_witness :
  process_arguments default_options
    [Getopt 118 "" 0; Getopt 63 "" 120; Getopt (-1) "" 0]
  <> Aborted.
Proof.
  apply (abort_needs_stray_return
           [Getopt 118 "" 0; Getopt 63 "" 120; Getopt (-1) "" 0]
           default_options).
  repeat (constructor; [unfold getopt_contract; simpl; auto 10|]).
  constructor.
Defined.

(** * The whole program *)

Lemma open_input_Some (sys : system) (filename : option string)
    (input : stream) (data : list Z) (opening : list syscall) :
  open_input sys filename = (Some (input, data), opening) ->
  (filename = None /\ input = Stdin /\ data = sys_stdin sys /\ opening = [])
  \/ exists name,
       filename = Some name /\ input = Named name
       /\ sys_fopen sys name = Some data
       /\ opening = [SysFopen name true].
Proof.
  unfold open_input. destruct filename as [name|].
  - destruct (sys_fopen sys name) as [bytes|] eqn:Hf; [|discriminate].
    intros [= <- <- <-]. right. now exists name.
  - intros [= <- <- <-]. now left.
Qed.

Lemma open_input_None (sys : system) (filename : option string)
    (opening : list syscall) :
  open_input sys filename = (None, opening) ->
  exists name,
    filename = Some name /\ sys_fopen sys name = None
    /\ opening = [SysFopen name false].
Proof.
  unfold open_input. destruct filename as [name|]; [|discriminate].
  destruct (sys_fopen sys name) as [bytes|] eqn:Hf; [discriminate|].
  intros [= <-]. now exists name.
Qed.

(** The speeds [init_serial] sets are the speed it was given. *)
Lemma init_serial_speed (sys : system) (path : string) (baud_rate speed : Z) :
  In (SysCfsetispeed speed) (snd (init_serial sys path baud_rate))
  \/ In (SysCfsetospeed speed) (snd (init_serial sys path baud_rate)) ->
  speed = baud_rate.
Proof.
  unfold init_serial.
  destruct (sys_open sys path (Z.lor O_RDWR O_NOCTTY) <? 0); simpl.
  - intros [[H|[]]|[H|[]]]; discriminate.
  - destruct (sys_tcsetattr _ _ _ _ <? 0); simpl;
      intros [H|H];
      repeat (destruct H as [H|H]; try discriminate H); try contradiction;
      now inversion H.
Qed.

(** The cases of a run, in the order of the program. *)
Ltac entry_cases :=
  unfold entrypoint;
  destruct (process_arguments default_options _) as [o| |] eqn:Hparse;
  [ pose proof (process_arguments_baud _ _ _ Hparse) as Hbaud;
    simpl in Hbaud;
    destruct (open_input _ (o_filename o)) as [[[input data]|] opening]
      eqn:Hin;
    [ destruct (init_serial _ (o_device o) (o_baud_rate o))
        as [serial_fd setting] eqn:Hinit;
      destruct (Z.ltb_spec serial_fd 0) as [Hfd|Hfd];
      [ | destruct (main _ (o_verbose o) _ data _) as [[] w|why w] eqn:Hmain;
          [ destruct (o_verbose o) eqn:Hv | ] ]
    | ]
  | | ];
  cbn [run_ending run_calls run_line].

(** X14.  Every failure comes before the dialogue.  The program returns
    [EXIT_FAILURE] exactly when the command line is rejected, or the input
    file named on it cannot be opened, or [init_serial] (always called with
    [B9600]) fails; and then nothing was sent to the plotter. *)
Theorem failure_before_dialogue (D : Type) (sys : system)
    (plotter : device D) (d : D) (pending : list Z) (fuel : nat)
    (argv : list getopt_call) :
  let r := entrypoint sys plotter d pending fuel argv in
  (run_ending r = Exited EXIT_FAILURE <->
   process_arguments default_options argv = Rejected
   \/ exists o,
        process_arguments default_options argv = Parsed o
        /\ (fst (open_input sys (o_filename o)) = None
            \/ fst (init_serial sys (o_device o) B9600) < 0))
  /\ (run_ending r = Exited EXIT_FAILURE -> run_line r = None).
Proof.
  intros r. unfold r. entry_cases.
  - (* the port could not be set up *)
    split; [|reflexivity]. split; [|reflexivity].
    intros _. right. exists o. split; [reflexivity|]. right.
    rewrite <- Hbaud, Hinit. exact Hfd.
  - (* verbose, and the dialogue returned *)
    split; [|discriminate]. split; [discriminate|].
    intros [H|(o' & [= <-] & [H|H])]; [discriminate| |].
    + rewrite Hin in H. discriminate.
    + rewrite <- Hbaud, Hinit in H. simpl in H. lia.
  - (* quiet, and the dialogue returned *)
    split; [|discriminate]. split; [discriminate|].
    intros [H|(o' & [= <-] & [H|H])]; [discriminate| |].
    + rewrite Hin in H. discriminate.
    + rewrite <- Hbaud, Hinit in H. simpl in H. lia.
  - (* the dialogue did not return *)
    split; [|discriminate]. split; [discriminate|].
    intros [H|(o' & [= <-] & [H|H])]; [discriminate| |].
    + rewrite Hin in H. discriminate.
    + rewrite <- Hbaud, Hinit in H. simpl in H. lia.
  - (* the input file could not be opened *)
    split; [|reflexivity]. split; [|reflexivity].
    intros _. right. exists o. split; [reflexivity|]. left.
    now rewrite Hin.
  - (* the command line was rejected *)
    split; [|reflexivity]. split; [|reflexivity]. intros _. now left.
  - (* abort *)
    split; [|discriminate]. split; [discriminate|].
    intros [H|(o' & H & _)]; discriminate.
Qed.

(** X15.  Whenever the program returns, with either status, it has closed
    what it opened: the serial port is closed if [open] had succeeded, and
    the input file that was opened by name is closed. *)
Theorem exit_closes_what_it_opened (D : Type) (sys : system)
    (plotter : device D) (d : D) (pending : list Z) (fuel : nat)
    (argv : list getopt_call) (status : Z) :
  run_ending (entrypoint sys plotter d pending fuel argv) = Exited status ->
  open_fds [] (run_calls (entrypoint sys plotter d pending fuel argv)) = []
  /\ open_files [] (run_calls (entrypoint sys plotter d pending fuel argv))
     = [].
Proof.
  entry_cases; intros Hend; try discriminate Hend.
  - (* the port could not be set up *)
    pose proof (init_serial_open_fds sys (o_device o) (o_baud_rate o)) as Hfds.
    pose proof (init_serial_open_files sys (o_device o) (o_baud_rate o))
      as Hfiles.
    rewrite Hinit in Hfds, Hfiles. simpl in Hfds, Hfiles.
    destruct (Z.ltb_spec serial_fd 0); [|lia].
    rewrite !open_fds_app, !open_files_app.
    destruct (open_input_Some _ _ _ _ _ Hin)
      as [(Hf & -> & _ & ->)|(name & Hf & -> & _ & ->)]; rewrite Hf; simpl.
    + rewrite Hfds, Hfiles. split; reflexivity.
    + rewrite Hfds, Hfiles. simpl.
      destruct (string_dec name name); [split; reflexivity | contradiction].
  - (* verbose, and the dialogue returned *)
    pose proof (init_serial_open_fds sys (o_device o) (o_baud_rate o)) as Hfds.
    pose proof (init_serial_open_files sys (o_device o) (o_baud_rate o))
      as Hfiles.
    rewrite Hinit in Hfds, Hfiles. simpl in Hfds, Hfiles.
    destruct (Z.ltb_spec serial_fd 0); [lia|].
    rewrite !open_fds_app, !open_files_app.
    destruct (open_input_Some _ _ _ _ _ Hin)
      as [(Hf & -> & _ & ->)|(name & Hf & -> & _ & ->)]; simpl.
    + rewrite Hfds, Hfiles. simpl.
      destruct (Z.eq_dec serial_fd serial_fd);
        [split; reflexivity | contradiction].
    + rewrite Hfds, Hfiles. simpl.
      destruct (Z.eq_dec serial_fd serial_fd); [|contradiction].
      destruct (string_dec name name); [split; reflexivity | contradiction].
  - (* the input file could not be opened *)
    destruct (open_input_None _ _ _ Hin) as (name & _ & _ & ->).
    split; reflexivity.
  - (* the command line was rejected *)
    split; reflexivity.
Qed.

Lemma exit_closes_what_it_opened_witness :
  open_fds []
    (run_calls (entrypoint (one_port [] [65; 66; 67] 0) (busy_plotter 100)
                  0 [] 5 [Getopt 118 "" 0; Getopt 102 "plot.hpgl" 0]))
  = []
  /\ open_files []
       (run_calls (entrypoint (one_port [] [65; 66; 67] 0)
                     (busy_plotter 100) 0 [] 5
                     [Getopt 118 "" 0; Getopt 102 "plot.hpgl" 0]))
     = [].
Proof.
  apply (exit_closes_what_it_opened Z (one_port [] [65; 66; 67] 0)
           (busy_plotter 100) 0 [] 5
           [Getopt 118 "" 0; Getopt 102 "plot.hpgl" 0] EXIT_SUCCESS).
  reflexivity.
Defined.

(** X16.  The quiet mode never ends well.  When no call of [getopt] returned
    ['v'], the program does not return [EXIT_SUCCESS]: when the input and
    the port were opened and the dialogue with the plotter has returned, the
    run reaches line 284, which frees [ident], and no statement has assigned
    [ident]. *)
Theorem quiet_run_frees_unset_ident (D : Type) (sys : system)
    (plotter : device D) (d : D) (pending : list Z) (fuel : nat)
    (argv : list getopt_call) :
  existsb (returned "v") argv = false ->
  run_ending (entrypoint sys plotter d pending fuel argv)
  <> Exited EXIT_SUCCESS
  /\ forall o input data opening,
       process_arguments default_options argv = Parsed o ->
       open_input sys (o_filename o) = (Some (input, data), opening) ->
       0 <= fst (init_serial sys (o_device o) B9600) ->
       returns (main plotter false fuel data (World d pending [])) = true ->
       run_ending (entrypoint sys plotter d pending fuel argv) = FreeUnset.
Proof.
  intros Hquiet.
  assert (Hverb : forall o, process_arguments default_options argv = Parsed o ->
                            o_verbose o = false).
  { intros o Ho. destruct (o_verbose o) eqn:Hv; [|reflexivity].
    destruct (process_arguments_verbose _ _ _ Ho Hv) as [H|H];
      [discriminate | congruence]. }
  split.
  - entry_cases; try discriminate.
    rewrite (Hverb o eq_refl) in Hv. discriminate.
  - intros o input data opening Ho Hin Hinit Hret.
    pose proof (process_arguments_baud _ _ _ Ho) as Hbaud. simpl in Hbaud.
    unfold entrypoint. rewrite Ho, Hin, Hbaud.
    destruct (init_serial sys (o_device o) B9600) as [serial_fd setting].
    simpl in Hinit. destruct (Z.ltb_spec serial_fd 0); [lia|].
    rewrite (Hverb o Ho).
    destruct (main plotter false fuel data (World d pending []))
      as [[] w|why w]; [reflexivity | discriminate].
Qed.

Lemma quiet_run_frees_unset_ident_witness :
  run_ending (entrypoint (one_port [65; 66; 67] [] 0) (fixed_answers 8 100)
                tt [] 5 [])
  <> Exited EXIT_SUCCESS
  /\ forall o input data opening,
       process_arguments default_options [] = Parsed o ->
       open_input (one_port [65; 66; 67] [] 0) (o_filename o)
       = (Some (input, data), opening) ->
       0 <= fst (init_serial (one_port [65; 66; 67] [] 0) (o_device o) B9600) ->
       returns (main (fixed_answers 8 100) false 5 data (World tt [] []))
       = true ->
       run_ending (entrypoint (one_port [65; 66; 67] [] 0)
                     (fixed_answers 8 100) tt [] 5 [])
       = FreeUnset.
Proof.
  apply (quiet_run_frees_unset_ident unit (one_port [65; 66; 67] [] 0)
           (fixed_answers 8 100) tt [] 5 []).
  reflexivity.
Defined.

(** X17.  What reaching the clean-up means.  When a run gets to line 284
    (in verbose mode it then returns [EXIT_SUCCESS]; in quiet mode it frees
    the unset [ident] there), the options were accepted, the input was
    opened (the file of the last [-f], or the standard input), and every
    byte of it, in order, was handed to [write] on the serial port, followed
    by the plotter-off command. *)
Theorem cleanup_means_input_written (D : Type) (sys : system)
    (plotter : device D) (d : D) (pending : list Z) (fuel : nat)
    (argv : list getopt_call) :
  run_ending (entrypoint sys plotter d pending fuel argv)
  = Exited EXIT_SUCCESS
  \/ run_ending (entrypoint sys plotter d pending fuel argv) = FreeUnset ->
  exists o data w evs,
    process_arguments default_options argv = Parsed o
    /\ match o_filename o with
       | Some name => sys_fopen sys name = Some data
       | None => data = sys_stdin sys
       end
    /\ run_line (entrypoint sys plotter d pending fuel argv) = Some w
    /\ trace w = evs ++ [EvCmd CMD_OFF]
    /\ concat (data_of evs) = data.
Proof.
  entry_cases; intros [Hend|Hend]; try discriminate Hend.
  all: destruct (main_Ret_inv D plotter _ fuel data (World d pending []) w
                   Hmain)
         as (c & w1 & pro & f' & w2 & _ & Htr1 & Hsetup & Hpos & _ & Hsp
             & Htr');
       destruct (spool_Ret_chunks plotter fuel (length data) c data w1 w2 f'
                   Hpos (Nat.le_refl _) Hsp) as (_ & evs & Htr2 & Hdata);
       exists o, data, w, (pro ++ evs);
       split; [reflexivity|]; split; [|split; [reflexivity|]].
  all: try (destruct (open_input_Some _ _ _ _ _ Hin)
              as [(Hf & _ & -> & _)|(name & Hf & _ & Hopen & _)]; rewrite Hf;
            [reflexivity | exact Hopen]).
  all: split;
         [ rewrite Htr', Htr2, Htr1; simpl; now rewrite <- app_assoc
         | rewrite data_of_app, (data_of_no_data pro);
           [ simpl; rewrite Hdata; apply concat_chunks_aux
           | eapply Forall_impl; [exact Hsetup|]; apply no_data_setup ] ].
Qed.

Lemma cleanup_means_input_written_witness :
  exists o data w evs,
    process_arguments default_options [Getopt 102 "plot.hpgl" 0] = Parsed o
    /\ match o_filename o with
       | Some name => sys_fopen (one_port [] [65; 66; 67] 0) name = Some data
       | None => data = sys_stdin (one_port [] [65; 66; 67] 0)
       end
    /\ run_line (entrypoint (one_port [] [65; 66; 67] 0) (busy_plotter 100)
                   0 [] 5 [Getopt 102 "plot.hpgl" 0])
       = Some w
    /\ trace w = evs ++ [EvCmd CMD_OFF]
    /\ concat (data_of evs) = data.
Proof.
  apply (cleanup_means_input_written Z (one_port [] [65; 66; 67] 0)
           (busy_plotter 100) 0 [] 5 [Getopt 102 "plot.hpgl" 0]).
  right. reflexivity.
Defined.

(** X18.  The speed is always 9600 baud: whatever the command line holds,
    [-r] with any argument included, every call of [cfsetispeed] and of
    [cfsetospeed] in a run has the speed [B9600]. *)
Theorem speed_is_always_9600 (D : Type) (sys : system) (plotter : device D)
    (d : D) (pending : list Z) (fuel : nat) (argv : list getopt_call)
    (speed : Z) :
  In (SysCfsetispeed speed)
     (run_calls (entrypoint sys plotter d pending fuel argv))
  \/ In (SysCfsetospeed speed)
       (run_calls (entrypoint sys plotter d pending fuel argv)) ->
  speed = B9600.
Proof.
  assert (Hopening : forall o input data opening,
             open_input sys (o_filename o) = (Some (input, data), opening) ->
             ~ In (SysCfsetispeed speed) opening
             /\ ~ In (SysCfsetospeed speed) opening).
  { intros o input data opening Hin.
    destruct (open_input_Some _ _ _ _ _ Hin)
      as [(_ & _ & _ & ->)|(name & _ & _ & _ & ->)]; simpl;
      split; intros H; repeat (destruct H as [H|H]; try discriminate H);
      contradiction. }
  entry_cases.
  - destruct (Hopening _ _ _ _ Hin) as [Hi Ho].
    rewrite !in_app_iff. intros H.
    rewrite <- Hbaud.
    apply (init_serial_speed sys (o_device o) (o_baud_rate o)).
    rewrite Hinit. simpl.
    destruct (o_filename o); simpl in H;
      destruct H as [[H|[H|H]]|[H|[H|H]]]; try contradiction; auto;
      repeat (destruct H as [H|H]; try discriminate H); contradiction.
  - destruct (Hopening _ _ _ _ Hin) as [Hi Ho].
    rewrite !in_app_iff. intros H.
    rewrite <- Hbaud.
    apply (init_serial_speed sys (o_device o) (o_baud_rate o)).
    rewrite Hinit. simpl.
    destruct H as [[H|[H|H]]|[H|[H|H]]]; try contradiction; auto;
      repeat (destruct H as [H|H]; try discriminate H); contradiction.
  - destruct (Hopening _ _ _ _ Hin) as [Hi Ho].
    rewrite !in_app_iff. intros H.
    rewrite <- Hbaud.
    apply (init_serial_speed sys (o_device o) (o_baud_rate o)).
    rewrite Hinit. simpl. tauto.
  - destruct (Hopening _ _ _ _ Hin) as [Hi Ho].
    rewrite !in_app_iff. intros H.
    rewrite <- Hbaud.
    apply (init_serial_speed sys (o_device o) (o_baud_rate o)).
    rewrite Hinit. simpl. tauto.
  - destruct (open_input_None _ _ _ Hin) as (name & _ & _ & ->).
    intros [H|H]; repeat (destruct H as [H|H]; try discriminate H);
      contradiction.
  - intros [[]|[]].
  - intros [[]|[]].
Qed.

Lemma speed_is_always_9600_witness :
  In (SysCfsetispeed 13)
     (run_calls (entrypoint (one_port [] [] 0) silent tt [] 5
                   [Getopt 114 "19200" 0]))
  /\ 13 = B9600.
Proof.
  assert (H : In (SysCfsetispeed 13)
                (run_calls (entrypoint (one_port [] [] 0) silent tt [] 5
                              [Getopt 114 "19200" 0]))).
  { vm_compute. do 2 right. left. reflexivity. }
  split; [exact H|].
  apply (speed_is_always_9600 unit (one_port [] [] 0) silent tt [] 5
           [Getopt 114 "19200" 0] 13).
  left. exact H.
Defined.

(** * The commands of a run *)

Lemma commands_app (l1 l2 : list event) :
  commands (l1 ++ l2) = commands l1 ++ commands l2.
Proof.
  induction l1 as [|e l1 IH]; [reflexivity|].
  destruct e; simpl; now rewrite IH.
Qed.

Lemma delays_app (l1 l2 : list event) :
  delays (l1 ++ l2) = delays l1 ++ delays l2.
Proof.
  induction l1 as [|e l1 IH]; [reflexivity|].
  destruct e; simpl; now rewrite IH.
Qed.

Lemma commands_poll_log (vs : list Z) :
  commands (poll_log vs) = replicate (length vs) CMD_FREE.
Proof. induction vs as [|v vs IH]; simpl; [reflexivity | now rewrite IH]. Qed.

Lemma delays_poll_log (vs : list Z) :
  delays (poll_log vs) = replicate (length vs) QUERY_DELAY.
Proof. induction vs as [|v vs IH]; simpl; [reflexivity | now rewrite IH]. Qed.

Section Commands.
Context {D : Type} (plotter : device D).

(** The log of the identification query when it returns. *)
Lemma identify_Ret (verbose : bool) (w w1 : world D) :
  identify plotter verbose w = Ret tt w1 ->
  exists evs,
    trace w1 = trace w ++ evs
    /\ commands evs = (if verbose then [CMD_IDENT] else [])
    /\ polled evs = [] /\ delays evs = [].
Proof.
  destruct verbose; simpl.
  - unfold serial_write. rewrite bind_act. unfold bind.
    match goal with
    | |- context [read_asc ?w0] =>
        destruct (read_asc w0) as [s w2|why w2] eqn:Hrd; [|discriminate]
    end.
    intros [= <-].
    apply read_asc_Ret in Hrd. rewrite trace_after in Hrd.
    exists [EvCmd CMD_IDENT; EvAsc s].
    split; [rewrite Hrd; now rewrite <- app_assoc | repeat split].
  - intros [= <-]. exists []. split; [now rewrite app_nil_r | repeat split].
Qed.

(** The log of the prologue when it returns. *)
Lemma prologue_Ret_commands (verbose : bool) (w w1 : world D) (c : Z) :
  prologue plotter verbose w = Ret c w1 ->
  exists pro,
    trace w1 = trace w ++ pro
    /\ commands pro
       = [CMD_ON; CMD_RESET; CMD_BUFSIZE]
           ++ (if verbose then [CMD_IDENT] else [])
           ++ [CMD_BUFSIZE; CMD_BUFSIZE; CMD_BEGIN]
    /\ length (polled pro) = 1%nat
    /\ delays pro = [].
Proof.
  intros Hpro.
  destruct (plotter_init plotter w) as [C w0|why w0] eqn:Hinit.
  - rewrite (prologue_unfold _ _ _ _ _ Hinit) in Hpro.
    destruct (identify plotter verbose w0) as [[] w2|why w2] eqn:Hid;
      [|discriminate].
    destruct (identify_Ret _ _ _ Hid) as (evs & Htr & Hcmd & Hpolled & Hdel).
    inversion Hpro; subst. clear Hpro.
    apply plotter_init_Ret in Hinit as [Htr0 _].
    exists ([EvCmd CMD_ON; EvCmd CMD_RESET; EvCmd CMD_BUFSIZE; EvDec C] ++ evs
            ++ [EvCmd CMD_BUFSIZE; EvCmd CMD_BUFSIZE; EvCmd CMD_BEGIN]).
    split; [|split; [|split]].
    + rewrite !trace_after, Htr, Htr0. now rewrite <- !app_assoc.
    + rewrite !commands_app, Hcmd. reflexivity.
    + rewrite !polled_app, Hpolled. reflexivity.
    + rewrite !delays_app, Hdel. reflexivity.
  - unfold prologue in Hpro.
    rewrite (bind_Stop _ _ _ _ _ Hinit) in Hpro. discriminate.
Qed.

(** The log of the loop when it ends: one free-space query and one delay for
    every answer it read, and no other command. *)
Lemma spool_Ret_commands (fuel : nat) (c : Z) (input : FILE)
    (w w' : world D) (f' : FILE) :
  spool plotter fuel c input w = Ret f' w' ->
  exists evs,
    trace w' = trace w ++ evs
    /\ commands evs = replicate (length (polled evs)) CMD_FREE
    /\ delays evs = replicate (length (polled evs)) QUERY_DELAY.
Proof.
  revert input w.
  induction fuel as [|fuel IH]; intros input w Hrun.
  - simpl in Hrun. destruct (feof input) eqn:Heof; [|discriminate].
    inversion Hrun; subst. exists []. now rewrite app_nil_r.
  - destruct (feof input) eqn:Heof.
    + rewrite spool_eof in Hrun by assumption.
      inversion Hrun; subst. exists []. now rewrite app_nil_r.
    + destruct (malloc c) eqn:Hmem;
        [|rewrite spool_null in Hrun by assumption; discriminate].
      rewrite spool_unfold in Hrun by assumption.
      unfold bind at 1 in Hrun.
      match type of Hrun with
      | context [poll plotter fuel ?n 0 ?w1] =>
          destruct (poll plotter fuel n 0 w1) as [[] w2|why w2] eqn:Hpoll;
            [|discriminate]
      end.
      apply poll_Ret in Hpoll as (waits & v & Htr & _ & _); [|lia].
      unfold write in Hrun. rewrite bind_act in Hrun.
      apply IH in Hrun as (evs & Htr' & Hcmd & Hdel).
      cbn [trace] in Htr.
      exists (EvFread c (fst (fread c input)) :: poll_log (waits ++ [v])
                ++ EvData (fst (fread c input)) :: evs).
      split; [|split].
      * rewrite Htr', trace_after, Htr. now rewrite <- !app_assoc.
      * cbn [commands polled].
        rewrite commands_app, polled_app, commands_poll_log, polled_poll_log.
        cbn [commands polled].
        rewrite Hcmd, (length_app (map to_size (waits ++ [v]))), length_map,
          replicate_add. reflexivity.
      * cbn [delays polled].
        rewrite delays_app, polled_app, delays_poll_log, polled_poll_log.
        cbn [delays polled].
        rewrite Hdel, (length_app (map to_size (waits ++ [v]))), length_map,
          replicate_add. reflexivity.
Qed.

End Commands.

(** X19.  The commands of a whole session.  When [main] returns, the strings
    it sent with [serial_write] are, in this order: plotter on, reset, the
    buffer-size query; the identification query in verbose mode; two more
    buffer-size queries and the begin command; one free-space query for
    every poll; and plotter off, once, at the end.  The loop waited
    [QUERY_DELAY] once per poll and the prologue not at all, and the run read
    one DEC field for the first buffer-size query and one per poll: two
    fewer than the queries it sent for one. *)
Theorem session_commands (D : Type) (plotter : device D) (verbose : bool)
    (fuel : nat) (input : list Z) (w w' : world D) :
  main plotter verbose fuel input w = Ret tt w' ->
  exists evs polls,
    trace w' = trace w ++ evs
    /\ commands evs
       = [CMD_ON; CMD_RESET; CMD_BUFSIZE]
           ++ (if verbose then [CMD_IDENT] else [])
           ++ [CMD_BUFSIZE; CMD_BUFSIZE; CMD_BEGIN]
           ++ replicate polls CMD_FREE ++ [CMD_OFF]
    /\ delays evs = replicate polls QUERY_DELAY
    /\ length (polled evs) = S polls.
Proof.
  intros Hmain.
  destruct (main_Ret_inv D plotter verbose fuel input w w' Hmain)
    as (c & w1 & _ & f' & w2 & Hpro & _ & _ & _ & _ & Hsp & Htr').
  destruct (prologue_Ret_commands plotter verbose w w1 c Hpro)
    as (pro & Htr1 & Hcmd1 & Hpolled1 & Hdel1).
  destruct (spool_Ret_commands plotter fuel c (fopen input) w1 w2 f' Hsp)
    as (evs & Htr2 & Hcmd2 & Hdel2).
  exists (pro ++ evs ++ [EvCmd CMD_OFF]), (length (polled evs)).
  split; [|split; [|split]].
  - rewrite Htr', Htr2, Htr1. now rewrite <- !app_assoc.
  - rewrite !commands_app, Hcmd1, Hcmd2. simpl.
    now rewrite <- !app_assoc.
  - rewrite !delays_app, Hdel1, Hdel2. simpl. now rewrite app_nil_r.
  - rewrite !polled_app, !length_app, Hpolled1. simpl. lia.
Qed.

Lemma session_commands_witness :
  exists evs polls,
    trace (world_of (main (busy_plotter 100) true 5 [65; 66; 67] (boot 0 [])))
    = trace (boot 0 []) ++ evs
    /\ commands evs
       = [CMD_ON; CMD_RESET; CMD_BUFSIZE]
           ++ (if true then [CMD_IDENT] else [])
           ++ [CMD_BUFSIZE; CMD_BUFSIZE; CMD_BEGIN]
           ++ replicate polls CMD_FREE ++ [CMD_OFF]
    /\ delays evs = replicate polls QUERY_DELAY
    /\ length (polled evs) = S polls.
Proof.
  apply (session_commands Z (busy_plotter 100) true 5 [65; 66; 67]
           (boot 0 [])).
  reflexivity.
Defined.

(** * The order of a session *)

Lemma commands_In (s : list Z) (evs : list event) :
  In (EvCmd s) evs -> In s (commands evs).
Proof.
  induction evs as [|e evs IH]; [intros []|].
  intros [->|H]; [now left|].
  destruct e; simpl; auto.
Qed.

Lemma In_commands (s : list Z) (evs : list event) :
  In s (commands evs) -> In (EvCmd s) evs.
Proof.
  induction evs as [|e evs IH]; [intros []|].
  destruct e; simpl; try (intros H; right; now apply IH).
  intros [->|H]; [now left | right; now apply IH].
Qed.

(** Where an event that is not in [l] can be in [l ++ rest]. *)
Lemma split_after (e : event) (l rest pre post : list event) :
  ~ In e l ->
  l ++ rest = pre ++ e :: post ->
  exists pre', pre = l ++ pre' /\ rest = pre' ++ e :: post.
Proof.
  revert pre. induction l as [|x l IH]; intros pre Hnot Heq.
  - now exists pre.
  - destruct pre as [|y pre]; simpl in Heq.
    + inversion Heq; subst. exfalso. apply Hnot. now left.
    + inversion Heq as [[Hx Hrest]]; subst.
      destruct (IH pre) as (pre' & -> & ->); [|assumption|].
      * intros H. apply Hnot. now right.
      * now exists pre'.
Qed.

Lemma loop_event_not_off (evs : list event) :
  Forall loop_event evs -> ~ In (EvCmd CMD_OFF) evs.
Proof.
  intros Hall Hin.
  apply (proj1 (List.Forall_forall _ _) Hall) in Hin.
  simpl in Hin. discriminate.
Qed.

Section Order.
Context {D : Type} (plotter : device D).

(** The log of the polling loop, however it ends. *)
Lemma poll_events (fuel : nat) (n b : Z) (w : world D) :
  exists evs,
    events (poll plotter fuel n b w) = trace w ++ evs
    /\ Forall loop_event evs.
Proof.
  revert b w. induction fuel as [|fuel IH]; intros b w.
  - exists []. split; [|constructor].
    unfold events. simpl. rewrite app_nil_r. now destruct (b <=? n).
  - destruct (Z.le_gt_cases b n) as [Hle|Hgt].
    + rewrite poll_unfold by assumption. unfold bind.
      match goal with
      | |- context [read_dec ?w2] =>
          destruct (read_dec w2) as [v w3|why w3] eqn:Hrd
      end.
      * apply read_dec_Ret in Hrd as (_ & Htr & _).
        rewrite !trace_after in Htr.
        destruct (IH (to_size v) w3) as (evs & Hev & Hall).
        exists ([EvSleep QUERY_DELAY; EvCmd CMD_FREE; EvDec v] ++ evs).
        split.
        -- rewrite Hev, Htr. now rewrite <- !app_assoc.
        -- apply Forall_app. split; [|assumption].
           repeat constructor.
      * apply read_dec_Stop in Hrd as [-> _].
        exists [EvSleep QUERY_DELAY; EvCmd CMD_FREE].
        split; [|repeat constructor].
        unfold events. cbn [world_of]. rewrite !trace_after.
        now rewrite <- !app_assoc.
    + rewrite poll_exit by lia. exists []. split; [|constructor].
      unfold events. simpl. now rewrite app_nil_r.
Qed.

(** The log of the spooling loop, however it ends. *)
Lemma spool_events (fuel : nat) (c : Z) (input : FILE) (w : world D) :
  exists evs,
    events (spool plotter fuel c input w) = trace w ++ evs
    /\ Forall loop_event evs.
Proof.
  revert input w. induction fuel as [|fuel IH]; intros input w.
  - exists []. split; [|constructor].
    unfold events. simpl. rewrite app_nil_r. now destruct (feof input).
  - destruct (feof input) eqn:Heof.
    + rewrite spool_eof by assumption. exists []. split; [|constructor].
      unfold events. simpl. now rewrite app_nil_r.
    + destruct (malloc c) eqn:Hmem;
        [|rewrite spool_null by assumption; exists []; split; [|constructor];
          unfold events; simpl; now rewrite app_nil_r].
      rewrite spool_unfold by assumption. unfold bind at 1.
      match goal with
      | |- context [poll plotter fuel ?m 0 ?w1] =>
          destruct (poll_events fuel m 0 w1) as (pevs & Hpev & Hpall);
          destruct (poll plotter fuel m 0 w1) as [[] w2|why w2]
      end; unfold events in Hpev; cbn [world_of trace] in Hpev.
      * unfold write. rewrite bind_act.
        match goal with
        | |- context [spool plotter fuel c ?i ?w3] =>
            destruct (IH i w3) as (evs & Hev & Hall)
        end.
        rewrite trace_after in Hev.
        exists (EvFread c (fst (fread c input)) :: pevs
                  ++ EvData (fst (fread c input)) :: evs).
        split.
        -- rewrite Hev, Hpev. now rewrite <- !app_assoc.
        -- constructor; [exact I|].
           apply Forall_app. split; [assumption|].
           constructor; [exact I | assumption].
      * exists (EvFread c (fst (fread c input)) :: pevs).
        split.
        -- unfold events. simpl. rewrite Hpev. now rewrite <- !app_assoc.
        -- constructor; [exact I | assumption].
Qed.

(** The log of a prologue that does not return: it waits for the buffer
    size, or for the identification. *)
Lemma prologue_Stop_log (verbose : bool) (w w1 : world D) why :
  prologue plotter verbose w = Stop why w1 ->
  exists pro,
    trace w1 = trace w ++ pro
    /\ Forall no_data pro
    /\ ~ In (EvCmd CMD_OFF) pro.
Proof.
  intros Hpro.
  destruct (plotter_init plotter w) as [C w0|why0 w0] eqn:Hinit.
  - rewrite (prologue_unfold _ _ _ _ _ Hinit) in Hpro.
    apply plotter_init_Ret in Hinit as [Htr0 _].
    destruct verbose; simpl in Hpro.
    + unfold serial_write in Hpro. rewrite bind_act in Hpro.
      unfold bind in Hpro.
      match type of Hpro with
      | context [read_asc ?w2] =>
          destruct (read_asc w2) as [s w3|why3 w3] eqn:Hrd;
            [discriminate|]
      end.
      apply read_asc_Stop in Hrd as ->.
      inversion Hpro; subst.
      exists [EvCmd CMD_ON; EvCmd CMD_RESET; EvCmd CMD_BUFSIZE; EvDec C;
              EvCmd CMD_IDENT].
      split; [|split].
      * rewrite trace_after, Htr0. now rewrite <- !app_assoc.
      * repeat constructor.
      * simpl. intros H.
        repeat (destruct H as [H|H]; try discriminate H). contradiction.
    + discriminate.
  - unfold prologue in Hpro.
    rewrite (bind_Stop _ _ _ _ _ Hinit) in Hpro.
    inversion Hpro; subst.
    apply plotter_init_Stop in Hinit.
    exists [EvCmd CMD_ON; EvCmd CMD_RESET; EvCmd CMD_BUFSIZE].
    split; [assumption|split].
    + repeat constructor.
    + simpl. intros H.
      repeat (destruct H as [H|H]; try discriminate H). contradiction.
Qed.

End Order.

(** X20.  The order of a session, for every run of [main], whether it
    returns or not.  The plotter-off command is sent at most once, as the
    last thing, and only by a run that returns: a run that waits for the
    plotter for ever leaves it switched on.  And no data is written before
    the begin command has been sent. *)
Theorem off_only_at_the_end (D : Type) (plotter : device D) (verbose : bool)
    (fuel : nat) (input : list Z) (w : world D) :
  exists evs,
    events (main plotter verbose fuel input w) = trace w ++ evs
    /\ (forall pre post,
          evs = pre ++ EvCmd CMD_OFF :: post ->
          post = [] /\ returns (main plotter verbose fuel input w) = true)
    /\ (forall pre buf post,
          evs = pre ++ EvData buf :: post -> In (EvCmd CMD_BEGIN) pre).
Proof.
  destruct (prologue plotter verbose w) as [c w1|why w1] eqn:Hpro.
  - rewrite (main_unfold plotter verbose fuel input w w1 c Hpro).
    destruct (prologue_Ret_commands plotter verbose w w1 c Hpro)
      as (pro & Htr1 & Hcmd & _ & _).
    destruct (prologue_Ret plotter verbose w w1 c Hpro)
      as (_ & _ & pro' & _ & _ & Htr1' & Hsetup).
    rewrite Htr1 in Htr1'. apply app_inv_head in Htr1'. subst pro'.
    assert (Hbegin : In (EvCmd CMD_BEGIN) pro).
    { apply In_commands. rewrite Hcmd. destruct verbose; simpl; auto 10. }
    assert (Hnooff : ~ In (EvCmd CMD_OFF) pro).
    { intros H. apply commands_In in H. rewrite Hcmd in H.
      destruct verbose; simpl in H;
        repeat (destruct H as [H|H]; try discriminate H); contradiction. }
    assert (Hnodata : forall buf, ~ In (EvData buf) pro).
    { intros buf H.
      apply (proj1 (List.Forall_forall _ _) Hsetup) in H. exact H. }
    destruct (spool_events plotter fuel c (fopen input) w1)
      as (evs & Hev & Hall).
    unfold events in Hev.
    destruct (spool plotter fuel c (fopen input) w1) as [f' w2|why w2];
      cbn [world_of] in Hev.
    + exists (pro ++ evs ++ [EvCmd CMD_OFF]). split; [|split].
      * unfold events. cbn [world_of]. rewrite trace_after, Hev, Htr1.
        now rewrite <- !app_assoc.
      * intros pre post Heq. split; [|reflexivity].
        apply split_after in Heq as (pre1 & -> & Heq); [|assumption].
        apply split_after in Heq as (pre2 & -> & Heq);
          [|now apply loop_event_not_off].
        destruct pre2 as [|x pre2]; simpl in Heq.
        -- now inversion Heq.
        -- inversion Heq as [[Hx Hrest]]. now destruct pre2.
      * intros pre buf post Heq.
        apply split_after in Heq as (pre1 & -> & _); [|apply Hnodata].
        apply in_app_iff. now left.
    + exists (pro ++ evs). split; [|split].
      * unfold events. cbn [world_of]. rewrite Hev, Htr1.
        now rewrite <- !app_assoc.
      * intros pre post Heq. exfalso.
        apply split_after in Heq as (pre1 & -> & Heq); [|assumption].
        apply (loop_event_not_off evs Hall). rewrite Heq.
        apply in_app_iff. right. now left.
      * intros pre buf post Heq.
        apply split_after in Heq as (pre1 & -> & _); [|apply Hnodata].
        apply in_app_iff. now left.
  - unfold main. rewrite (bind_Stop _ _ _ _ _ Hpro).
    destruct (prologue_Stop_log plotter verbose w w1 why Hpro)
      as (pro & Htr & Hnodata & Hnooff).
    exists pro. split; [exact Htr|split].
    + intros pre post Heq. exfalso. apply Hnooff. rewrite Heq.
      apply in_app_iff. right. now left.
    + intros pre buf post Heq. exfalso.
      assert (Hin : In (EvData buf) pro).
      { rewrite Heq. apply in_app_iff. right. now left. }
      apply (proj1 (List.Forall_forall _ _) Hnodata) in Hin. exact Hin.
Qed.
